(** * Zendesk -> MySQL incremental backup: a shallow embedding of [backup.py]

    The development follows the source file top to bottom: Python values,
    configuration, helpers, the retrying fetcher, the relational store, the
    typed upserts, the attachment download and the sync coordinators.

    Modelling conventions.
    - A decoded JSON document is a [json] tree; JSON numbers are integers
      (ids, epochs and sizes are integers in the remote API).
    - Strings are sequences of 8-bit characters.
    - Library functions whose definition is not part of the program
      ([datetime.fromisoformat], [json.dumps], [float], [Path.resolve],
      [repr] of a container) are the fields of a record [pylib], which
      the program takes as an argument.
    - Effects are threaded through a state-and-exception monad over a
      [world]: the store, the attachment directory tree, the clock, the
      number of HTTP requests issued and the trace of effects.
    - The remote server is a script: the response to the n-th request.
    - [while True] loops take a fuel argument; running out of it is the
      outcome [Fuel], distinct from returning and from raising. *)

From Stdlib Require Import ZArith QArith Qminmax String Ascii List Lia Bool.
From stdpp Require Import base option list gmap strings pretty.

Set Warnings "-register-all".
Open Scope string_scope.
Open Scope Z_scope.

(* ------------------------------------------------------------------ *)
(** ** Python values *)

Inductive json :=
| JNull
| JBool (b : bool)
| JNum (z : Z)
| JStr (s : string)
| JArr (l : list json)
| JObj (d : list (string * json)).

Abbreviation dict := (list (string * json)).

(** [d.get(k)] *)
Fixpoint lookup_key (d : dict) (k : string) : option json :=
  match d with
  | [] => None
  | (k', v) :: d' => if String.eqb k' k then Some v else lookup_key d' k
  end.

Definition get (d : dict) (k : string) : json :=
  match lookup_key d k with Some v => v | None => JNull end.

(** [d.get(k, default)] *)
Definition get_default (d : dict) (k : string) (dflt : json) : json :=
  match lookup_key d k with Some v => v | None => dflt end.

(** Truth value of a Python object *)
Definition truthy (j : json) : bool :=
  match j with
  | JNull => false
  | JBool b => b
  | JNum z => negb (z =? 0)
  | JStr s => negb (String.eqb s "")
  | JArr l => match l with [] => false | _ => true end
  | JObj d => match d with [] => false | _ => true end
  end.

(** [a or b] *)
Definition py_or (a b : json) : json := if truthy a then a else b.

(** Exceptions. The two [RuntimeError]s raised by [get_with_retry] carry
    what the message is formatted from. *)
Inductive error_detail :=
| DetailJson (j : json)
| DetailText (s : string).

Inductive exn :=
| GetFailed (url : string) (status : Z) (detail : error_detail)
| GetExhausted (url : string)
| KeyError (k : string)
| TypeError
| ValueError
| OverflowError
| AttributeError
| RequestException
| JSONDecodeError
| ProgrammingError
| DatabaseError
| OSError.

Definition is_RuntimeError (e : exn) : bool :=
  match e with GetFailed _ _ _ | GetExhausted _ => true | _ => false end.

(* ------------------------------------------------------------------ *)
(** ** Characters and decimal numerals *)

Definition dquote : ascii := ascii_of_nat 34.
Definition backslash : ascii := ascii_of_nat 92.

Definition is_digit (c : ascii) : bool :=
  let n := nat_of_ascii c in (48 <=? n)%nat && (n <=? 57)%nat.

Definition digit_val (c : ascii) : Z := Z.of_nat (nat_of_ascii c) - 48.

(** Characters [str.strip()] and [int()] treat as blanks. *)
Definition is_space (c : ascii) : bool :=
  let n := nat_of_ascii c in
  ((9 <=? n)%nat && (n <=? 13)%nat) || (n =? 32)%nat || ((28 <=? n)%nat && (n <=? 31)%nat).

Fixpoint lstrip (s : string) : string :=
  match s with
  | String c s' => if is_space c then lstrip s' else s
  | EmptyString => EmptyString
  end.

Fixpoint rstrip (s : string) : string :=
  match s with
  | EmptyString => EmptyString
  | String c s' =>
      match rstrip s' with
      | EmptyString => if is_space c then EmptyString else String c EmptyString
      | r => String c r
      end
  end.

(** Digits with single underscores between them, as [int()] accepts.
    [acc] is the value read so far, [prev] tells whether the previous
    character was a digit. *)
Fixpoint digits_value (s : string) (acc : Z) (prev : bool) : option Z :=
  match s with
  | EmptyString => if prev then Some acc else None
  | String c s' =>
      if is_digit c then digits_value s' (acc * 10 + digit_val c) true
      else if Ascii.eqb c "_" then (if prev then digits_value s' acc false else None)
      else None
  end.

(** [int(s)] for a string: [None] is [ValueError]. *)
Definition int_of_string (s : string) : option Z :=
  match rstrip (lstrip s) with
  | String "-" r => option_map Z.opp (digits_value r 0 false)
  | String "+" r => digits_value r 0 false
  | r => digits_value r 0 false
  end.

(** [int(x)] *)
Definition py_int (j : json) : exn + Z :=
  match j with
  | JNum z => inr z
  | JBool b => inr (if b then 1 else 0)
  | JStr s => match int_of_string s with Some z => inr z | None => inl ValueError end
  | _ => inl TypeError
  end.

(** [str.lower()] *)
Definition lower_char (c : ascii) : ascii :=
  let n := nat_of_ascii c in
  if (65 <=? n)%nat && (n <=? 90)%nat then ascii_of_nat (n + 32) else c.

Fixpoint lower (s : string) : string :=
  match s with
  | EmptyString => EmptyString
  | String c s' => String (lower_char c) (lower s')
  end.

(** [s[:n]] *)
Fixpoint take_str (n : nat) (s : string) : string :=
  match n, s with
  | S n', String c s' => String c (take_str n' s')
  | _, _ => EmptyString
  end.

(* ------------------------------------------------------------------ *)
(** ** Configuration (the module-level constants read from the environment) *)

Record config := {
  Z_BASE : string;
  PER_PAGE : Z;
  INCLUDE : string;
  EXCLUDE_DELETED : bool;
  BOOTSTRAP_HOURS : Z;
  CLOSED_TICKETS_ONLY : bool;
  USE_TICKET_EVENTS_FOR_COMMENTS : bool;
  PRUNE_REOPENED_FROM_DB : bool;
  DOWNLOAD_ATTACHMENTS : bool;
  ATTACHMENTS_DIR : string;
  ORG_PER_PAGE : Z;
  ORG_PAGE_DELAY_SECS : Q;
  SKIP_ORGANIZATIONS : bool
}.

Definition RETRY_STATUS : list Z := [429; 500; 502; 503; 504].

(* ------------------------------------------------------------------ *)
(** ** HTTP exchanges *)

Record request := {
  req_url : string;
  req_params : dict;
  req_stream : bool
}.

(** What the program reads of a [requests.Response]: the status, the
    [Retry-After] header, the decoded body ([None]: [resp.json()] raises),
    the body text and, for a streamed body, the chunks [iter_content]
    yields ([None]: the transfer breaks at this point). *)
Record response := {
  status_code : Z;
  retry_after : option string;
  resp_json : option json;
  resp_text : string;
  resp_chunks : list (option string)
}.

(** A Python float as far as [time.sleep] tells them apart. *)
Inductive pyfloat :=
| Fin (q : Q)
| Inf (negative : bool)
| NaN.

(** What [get_with_retry] returns: [resp.json()] or, streaming, [resp]. *)
Inductive fetched :=
| Body (j : json)
| Stream (r : response).

(* ------------------------------------------------------------------ *)
(** ** The relational store *)

Inductive sqlval :=
| SNull
| SInt (z : Z)
| SStr (s : string).

#[global] Instance sqlval_eq_dec : EqDecision sqlval.
Proof. solve_decision. Defined.

(** A row maps column names to values, in the column order of the
    [INSERT]; a table is the list of its rows. *)
Abbreviation row := (list (string * sqlval)).
Abbreviation table := (list row).
Abbreviation database := (gmap string table).

Fixpoint cell (r : row) (c : string) : sqlval :=
  match r with
  | [] => SNull
  | (c', v) :: r' => if String.eqb c' c then v else cell r' c
  end.

Inductive coltype :=
| BIGINT
| VARCHAR (n : nat).

Definition in_bigint (z : Z) : bool :=
  (- 2 ^ 63 <=? z) && (z <? 2 ^ 63).

(** The decimal literals the server converts for an integer column: a
    string of digits and signs that Python's [int] reads too. The server
    also takes other spellings of a number (a decimal point, an
    exponent, a leading [+] or blank), which are not modelled. *)
Definition strict_int (s : string) : option Z :=
  if forallb (fun c => is_digit c || Ascii.eqb c "-") (list_ascii_of_string s)
  then int_of_string s else None.

(** The value a primary-key column of type [ty] holds for a bound
    parameter, [None] when the server rejects the statement. *)
Definition store_key (ty : coltype) (v : sqlval) : option sqlval :=
  match ty, v with
  | _, SNull => None
  | BIGINT, SInt z => if in_bigint z then Some (SInt z) else None
  | BIGINT, SStr s =>
      match strict_int s with
      | Some z => if in_bigint z then Some (SInt z) else None
      | None => None
      end
  | VARCHAR n, SStr s => if (String.length s <=? n)%nat then Some (SStr s) else None
  | VARCHAR n, SInt z =>
      if (String.length (pretty z) <=? n)%nat then Some (SStr (pretty z)) else None
  end.

Definition key_of (pk : list string) (r : row) : list sqlval := map (cell r) pk.

(** [ON DUPLICATE KEY UPDATE c = VALUES(c), ...] on the existing row. *)
Definition on_duplicate (upd : list string) (new old : row) : row :=
  map (fun cv : string * sqlval =>
         if bool_decide (cv.1 ∈ upd) then (cv.1, cell new cv.1) else cv) old.

(** [INSERT ... ON DUPLICATE KEY UPDATE ...] on a table. *)
Fixpoint upsert_rows (pk upd : list string) (new : row) (t : table) : table :=
  match t with
  | [] => [new]
  | r :: t' =>
      if bool_decide (key_of pk r = key_of pk new)
      then on_duplicate upd new r :: t'
      else r :: upsert_rows pk upd new t'
  end.

Fixpoint lookup_key_ty (key : list (string * coltype)) (c : string) : option coltype :=
  match key with
  | [] => None
  | (k, ty) :: key' => if String.eqb k c then Some ty else lookup_key_ty key' c
  end.

(** The row as stored: key columns converted to their column type. *)
Fixpoint stored_row (key : list (string * coltype)) (r : row) : option row :=
  match r with
  | [] => Some []
  | (c, v) :: r' =>
      match stored_row key r' with
      | None => None
      | Some s' =>
          match lookup_key_ty key c with
          | Some ty =>
              match store_key ty v with
              | Some v' => Some ((c, v') :: s')
              | None => None
              end
          | None => Some ((c, v) :: s')
          end
      end
  end.

(** [INSERT INTO tbl (...) VALUES (...) ON DUPLICATE KEY UPDATE upd] on
    the store, for the row [r] as stored. *)
Definition insert_on_duplicate (tbl : string) (pk upd : list string) (r : row)
    (d : database) : database :=
  <[tbl := upsert_rows pk upd r (d !!! tbl)]> d.

(** [DELETE FROM tbl WHERE col = z] *)
Definition delete_where (tbl col : string) (z : Z) (d : database) : database :=
  <[tbl := List.filter (fun r => negb (bool_decide (cell r col = SInt z))) (d !!! tbl)]> d.

(** [SELECT col FROM tbl WHERE kcol = k], first row. *)
Definition select_first (tbl kcol : string) (k : sqlval) (d : database) : option row :=
  List.find (fun r => bool_decide (cell r kcol = k)) (d !!! tbl).

(** The connector's conversion of a bound Python value; lists and
    dictionaries have none. *)
Definition to_param (j : json) : option sqlval :=
  match j with
  | JNull => Some SNull
  | JBool b => Some (SInt (if b then 1 else 0))
  | JNum z => Some (SInt z)
  | JStr s => Some (SStr s)
  | JArr _ | JObj _ => None
  end.

Fixpoint all_params (ps : list (option sqlval)) : option (list sqlval) :=
  match ps with
  | [] => Some []
  | p :: ps' =>
      match p, all_params ps' with
      | Some v, Some vs => Some (v :: vs)
      | _, _ => None
      end
  end.

(* ------------------------------------------------------------------ *)
(** ** The world and the effect monad *)

Inductive event :=
| EvGet (rq : request)
| EvSleep (secs : Q)
| EvUpsert (tbl : string) (r : row)
| EvDelete (tbl col : string) (z : Z)
| EvWrite (path : string) (chunk : string).

Record world := {
  db : database;
  dirs : gset string;
  files : gmap string string;
  clock : Z;
  nreq : nat;
  trace : list event
}.

Definition with_db (d : database) (w : world) : world :=
  {| db := d; dirs := dirs w; files := files w; clock := clock w;
     nreq := nreq w; trace := trace w |}.

Definition with_dirs (ds : gset string) (w : world) : world :=
  {| db := db w; dirs := ds; files := files w; clock := clock w;
     nreq := nreq w; trace := trace w |}.

Definition with_files (fs : gmap string string) (w : world) : world :=
  {| db := db w; dirs := dirs w; files := fs; clock := clock w;
     nreq := nreq w; trace := trace w |}.

Definition with_nreq (n : nat) (w : world) : world :=
  {| db := db w; dirs := dirs w; files := files w; clock := clock w;
     nreq := n; trace := trace w |}.

Definition log (e : event) (w : world) : world :=
  {| db := db w; dirs := dirs w; files := files w; clock := clock w;
     nreq := nreq w; trace := trace w ++ [e] |}.

Inductive outcome (A : Type) :=
| Ok (a : A)
| Raise (e : exn)
| Fuel.
Arguments Ok {A} a.
Arguments Raise {A} e.
Arguments Fuel {A}.

Definition M (A : Type) : Type := world -> outcome A * world.

Definition ret {A} (a : A) : M A := fun w => (Ok a, w).

Definition raise {A} (e : exn) : M A := fun w => (Raise e, w).

Definition out_of_fuel {A} : M A := fun w => (Fuel, w).

Definition bind {A B} (m : M A) (k : A -> M B) : M B :=
  fun w =>
    match m w with
    | (Ok a, w') => k a w'
    | (Raise e, w') => (Raise e, w')
    | (Fuel, w') => (Fuel, w')
    end.

(** [try: m except Exception: h] *)
Definition try_except {A} (m : M A) (h : exn -> M A) : M A :=
  fun w =>
    match m w with
    | (Raise e, w') => h e w'
    | rw => rw
    end.

Declare Scope M_scope.
Delimit Scope M_scope with M.
Notation "x ← y ; z" := (bind y (fun x => z))
  (at level 20, y at level 100, z at level 200, only parsing) : M_scope.
Notation "y ;; z" := (bind y (fun _ => z))
  (at level 100, z at level 200, only parsing, right associativity) : M_scope.
Open Scope M_scope.

(** [for x in l: body(x)] *)
Fixpoint for_each {A} (body : A -> M unit) (l : list A) : M unit :=
  match l with
  | [] => ret tt
  | x :: l' => body x ;; for_each body l'
  end.

Definition lift_sum {A} (r : exn + A) : M A :=
  match r with inl e => raise e | inr a => ret a end.

Definition read {A} (f : world -> A) : M A := fun w => (Ok (f w), w).

Definition modify (f : world -> world) : M unit := fun w => (Ok tt, f w).

(** Iterating over a Python value: a list yields its items, a string its
    characters, a dictionary its keys; anything else is not iterable. *)
Definition py_iter (j : json) : exn + list json :=
  match j with
  | JArr l => inr l
  | JStr s => inr (map (fun c => JStr (String c EmptyString)) (list_ascii_of_string s))
  | JObj d => inr (map (fun kv => JStr kv.1) d)
  | _ => inl TypeError
  end.

(** Calling [.get] on a value that is not a dictionary. *)
Definition as_dict (j : json) : exn + dict :=
  match j with
  | JObj d => inr d
  | _ => inl AttributeError
  end.

(** [d[k]] *)
Definition item (d : dict) (k : string) : exn + json :=
  match lookup_key d k with Some v => inr v | None => inl (KeyError k) end.

(** A directory is at [p]: it was made, or a file lies under it. *)
Definition dir_exists (p : string) (w : world) : bool :=
  bool_decide (p ∈ dirs w)
  || existsb (fun k => String.prefix (p ++ "/") k) (elements (dom (files w))).

(* ------------------------------------------------------------------ *)
(** ** Library functions

    - [py_fromisoformat s] is
      [datetime.fromisoformat(s).strftime("%Y-%m-%d %H:%M:%S")], [None]
      when [fromisoformat] raises;
    - [py_dumps x] is [json.dumps(x)] and [py_dumps_unicode x] is
      [json.dumps(x, ensure_ascii=False)];
    - [py_repr x] is [str(x)] for a list or a dictionary;
    - [py_float s] is [float(s)], [None] when it raises;
    - [py_resolve p] is [str(Path(p).resolve())];
    - [py_mkdir_fails p], [py_stat_fails p] and [py_open_fails p] tell
      whether the file system refuses to make the directory [p] that
      does not exist, to look at the path [p] where no file is, and to
      open [p] for writing (a name too long, a missing parent, no
      permission): the call then raises an [OSError];
    - [py_schema_fails] and [py_connect_fails] tell whether the server
      refuses [init_schema] (its connection, or one of its statements)
      and the connection of the run. *)

Record pylib := {
  py_fromisoformat : string -> option string;
  py_dumps : json -> string;
  py_dumps_unicode : json -> string;
  py_repr : json -> string;
  py_float : string -> option pyfloat;
  py_resolve : string -> string;
  py_mkdir_fails : string -> bool;
  py_stat_fails : string -> bool;
  py_open_fails : string -> bool;
  py_schema_fails : bool;
  py_connect_fails : bool
}.

(* ------------------------------------------------------------------ *)
(** ** The program *)

Section Backup.

Variable cfg : config.

(** The remote server: the outcome of the n-th request the program
    issues ([None]: [SESSION.get] itself raises). *)
Variable remote : nat -> request -> option response.

(** The library functions the program calls. *)
Variable py : pylib.
Local Abbreviation fromisoformat := (py_fromisoformat py).
Local Abbreviation dumps := (py_dumps py).
Local Abbreviation dumps_unicode := (py_dumps_unicode py).
Local Abbreviation repr := (py_repr py).
Local Abbreviation float_of_string := (py_float py).
Local Abbreviation resolve := (py_resolve py).

(** *** Helpers *)

(** [str(x)] *)
Definition py_str (j : json) : string :=
  match j with
  | JNull => "None"
  | JBool b => if b then "True" else "False"
  | JNum z => pretty z
  | JStr s => s
  | JArr _ | JObj _ => repr j
  end.

(** [Path(p).mkdir(parents=True, exist_ok=True)]: there is nothing to
    make when the directory exists; otherwise the file system may
    refuse. *)
Definition ensure_dir (p : string) : M unit :=
  fun w =>
    if dir_exists p w || negb (py_mkdir_fails py p)
    then (Ok tt, with_dirs ({[p]} ∪ dirs w) w)
    else (Raise OSError, w).

(** The character class of the pattern in [safe_filename]. *)
Definition is_illegal (c : ascii) : bool :=
  existsb (Ascii.eqb c) [backslash; "/"; ":"; "*"; "?"; dquote; "<"; ">"; "|"]%char.

(** [re.sub(r"[...]+", "_", s)]: every maximal run becomes one underscore. *)
Fixpoint sub_illegal (s : string) (in_run : bool) : string :=
  match s with
  | EmptyString => EmptyString
  | String c s' =>
      if is_illegal c
      then (if in_run then sub_illegal s' true else String "_" (sub_illegal s' true))
      else String c (sub_illegal s' false)
  end.

Definition safe_filename (name : json) : exn + string :=
  match py_or name (JStr "") with
  | JStr s =>
      let name := sub_illegal s false in
      inr (if (180 <? String.length name)%nat then take_str 180 name else name)
  | _ => inl TypeError
  end.

(** [initial_start_time_epoch] at the moment [int(time.time())] is [now]. *)
Definition start_time_at (now : Z) : Z :=
  now - Z.max (BOOTSTRAP_HOURS cfg * 3600) 120.

Definition initial_start_time_epoch : M Z :=
  now ← read clock; ret (start_time_at now).

(** [s.replace("Z", "+00:00")] *)
Fixpoint replace_Z (s : string) : string :=
  match s with
  | EmptyString => EmptyString
  | String c s' =>
      if Ascii.eqb c "Z" then "+00:00" ++ replace_Z s' else String c (replace_Z s')
  end.

(** [parse_dt]: the result is bound as a statement parameter, so it is
    given as the SQL value it becomes. *)
Definition parse_dt (s : json) : sqlval :=
  if negb (truthy s) then SNull
  else match s with
       | JStr str =>
           match fromisoformat (replace_Z str) with
           | Some d => SStr d
           | None => SNull
           end
       | _ => SNull
       end.

(** *** The retrying fetcher *)

Definition http_get (rq : request) : M response :=
  fun w =>
    let w' := log (EvGet rq) (with_nreq (S (nreq w)) w) in
    match remote (nreq w) rq with
    | Some r => (Ok r, w')
    | None => (Raise RequestException, w')
    end.

(** [time.sleep(d)]. An infinite delay overflows the timer, whatever
    its sign. So does a finite one from about 9.2e9 seconds on, which
    is left out here. *)
Definition sleep (d : pyfloat) : M unit :=
  match d with
  | Fin q => if Qle_bool 0 q then modify (log (EvSleep q)) else raise ValueError
  | Inf _ => raise OverflowError
  | NaN => raise ValueError
  end.

Definition error_body (resp : response) : error_detail :=
  match resp_json resp with
  | Some j => DetailJson j
  | None => DetailText (take_str 300 (resp_text resp))
  end.

(** [float(retry_after) if retry_after else backoff] *)
Definition sleep_for (resp : response) (backoff : Q) : M pyfloat :=
  match retry_after resp with
  | Some s =>
      if negb (String.eqb s "")
      then match float_of_string s with
           | Some f => ret f
           | None => raise ValueError
           end
      else ret (Fin backoff)
  | None => ret (Fin backoff)
  end.

(** The body of [for _ in range(8)], with the attempts left and the
    current [backoff]. *)
Fixpoint retry_loop (attempts : nat) (backoff : Q) (rq : request) : M fetched :=
  match attempts with
  | O => raise (GetExhausted (req_url rq))
  | S n =>
      resp ← http_get rq;
      if status_code resp =? 200 then
        if req_stream rq then ret (Stream resp)
        else match resp_json resp with
             | Some j => ret (Body j)
             | None => raise JSONDecodeError
             end
      else if bool_decide (status_code resp ∈ RETRY_STATUS) then
        d ← sleep_for resp backoff;
        sleep d;;
        retry_loop n (Qmin (backoff * 2) 30) rq
      else raise (GetFailed (req_url rq) (status_code resp) (error_body resp))
  end.

Definition get_with_retry (url : string) (params : dict) (stream : bool) : M fetched :=
  retry_loop 8 1 {| req_url := url; req_params := params; req_stream := stream |}.

(** A value passed as the URL: [requests] rejects what is not a string
    before anything is sent. *)
Definition as_url (j : json) : exn + string :=
  match j with
  | JStr s => inr s
  | _ => inl RequestException
  end.

(** [get_with_retry(url)] where a decoded page is expected. *)
Definition get_page (url : json) (params : dict) : M json :=
  u ← lift_sum (as_url url);
  r ← get_with_retry u params false;
  match r with
  | Body j => ret j
  | Stream _ => raise AttributeError
  end.

(** [page.get(k) or page.get("links", {}).get("next")] *)
Definition link_or_next (page : dict) (k : string) : exn + json :=
  let a := get page k in
  if truthy a then inr a
  else match as_dict (get_default page "links" (JObj [])) with
       | inl e => inl e
       | inr l => inr (get l "next")
       end.

(** *** The store *)

(** An [INSERT INTO t (cols) VALUES (...) ON DUPLICATE KEY UPDATE
    c = VALUES(c), ...] statement: the table, its key columns, the columns
    inserted and the columns updated. [st_types] lists the columns whose
    type the model enforces (the key columns); the other columns hold the
    bound value as it is. *)
Record statement := {
  st_table : string;
  st_types : list (string * coltype);
  st_pk : list string;
  st_cols : list string;
  st_upd : list string
}.

(** [cur.execute(st, params)] followed by [conn.commit()]. *)
Definition execute (st : statement) (params : list (option sqlval)) : M unit :=
  match all_params params with
  | None => raise ProgrammingError
  | Some vals =>
      fun w =>
        match stored_row (st_types st) (zip (st_cols st) vals) with
        | Some r =>
            (Ok tt,
             log (EvUpsert (st_table st) r)
               (with_db (insert_on_duplicate (st_table st) (st_pk st) (st_upd st) r (db w)) w))
        | None => (Raise DatabaseError, w)
        end
  end.

(** [1 if x else 0] *)
Definition flag (j : json) : option sqlval :=
  Some (SInt (if truthy j then 1 else 0)).

Definition dt (j : json) : option sqlval := Some (parse_dt j).

Definition js (j : json) : option sqlval := Some (SStr (dumps j)).

Definition sync_state_stmt : statement :=
  {| st_table := "sync_state";
     st_types := [("resource", VARCHAR 64); ("cursor_token", VARCHAR 255)];
     st_pk := ["resource"];
     st_cols := ["resource"; "cursor_token"; "updated_at"];
     st_upd := ["cursor_token"; "updated_at"] |}.

Definition get_cursor_val (resource : string) : M json :=
  d ← read db;
  match select_first "sync_state" "resource" (SStr resource) d with
  | Some r =>
      match cell r "cursor_token" with
      | SStr s => ret (JStr s)
      | SInt z => ret (JNum z)
      | SNull => ret JNull
      end
  | None => ret JNull
  end.

(** [updated_at] is filled by the server with its current timestamp, on
    insertion and on update. *)
Definition set_cursor_val (resource : string) (token : json) : M unit :=
  now ← read clock;
  execute sync_state_stmt [Some (SStr resource); to_param token; Some (SInt now)].

Definition raw_snapshots_stmt : statement :=
  {| st_table := "raw_snapshots";
     st_types := [("resource", VARCHAR 64); ("entity_id", BIGINT)];
     st_pk := ["resource"; "entity_id"];
     st_cols := ["resource"; "entity_id"; "updated_at"; "payload_json"];
     st_upd := ["updated_at"; "payload_json"] |}.

Definition raw_params (resource : string) (entity_id : Z) (updated_at : json)
    (payload : dict) : list (option sqlval) :=
  [Some (SStr resource); Some (SInt entity_id); dt updated_at;
   Some (SStr (dumps_unicode (JObj payload)))].

Definition upsert_raw (resource : string) (entity_id : Z) (updated_at : json)
    (payload : dict) : M unit :=
  execute raw_snapshots_stmt (raw_params resource entity_id updated_at payload).

(** [int(d["id"])] *)
Definition int_id (d : dict) : M Z :=
  v ← lift_sum (item d "id");
  lift_sum (py_int v).

Definition id_bigint : list (string * coltype) := [("id", BIGINT)].

Definition id_varchar : list (string * coltype) := [("id", VARCHAR 64)].

Definition path_param (local_path : option string) : sqlval :=
  match local_path with Some p => SStr p | None => SNull end.

(** [DELETE FROM tbl WHERE col = z] *)
Definition execute_delete (tbl col : string) (z : Z) : M unit :=
  modify (fun w => log (EvDelete tbl col z) (with_db (delete_where tbl col z (db w)) w)).

(** *** Typed upserts *)

Definition users_stmt : statement :=
  {| st_table := "users";
     st_types := id_bigint;
     st_pk := ["id"];
     st_cols :=
       ["id"; "name"; "email"; "role"; "role_type"; "active"; "suspended";
        "organization_id"; "phone"; "locale"; "time_zone"; "created_at";
        "updated_at"; "last_login_at"; "tags_json"; "user_fields_json";
        "photo_json"];
     st_upd :=
       ["name"; "email"; "role"; "role_type"; "active"; "suspended";
        "organization_id"; "phone"; "locale"; "time_zone"; "created_at";
        "updated_at"; "last_login_at"; "tags_json"; "user_fields_json";
        "photo_json"] |}.

Definition user_params (u : dict) : list (option sqlval) :=
  [to_param (get u "id"); to_param (get u "name"); to_param (get u "email");
   to_param (get u "role"); to_param (get u "role_type");
   flag (get u "active"); flag (get u "suspended");
   to_param (get u "organization_id"); to_param (get u "phone");
   to_param (get u "locale"); to_param (get u "time_zone");
   dt (get u "created_at"); dt (get u "updated_at");
   dt (get u "last_login_at"); js (py_or (get u "tags") (JArr []));
   js (py_or (get u "user_fields") (JObj []));
   js (py_or (get u "photo") (JObj []))].

Definition upsert_user (u : dict) : M unit :=
  execute users_stmt (user_params u);;
  i ← int_id u;
  upsert_raw "users" i (get u "updated_at") u.

Definition organizations_stmt : statement :=
  {| st_table := "organizations";
     st_types := id_bigint;
     st_pk := ["id"];
     st_cols :=
       ["id"; "name"; "external_id"; "group_id"; "details"; "notes";
        "shared_tickets"; "shared_comments"; "domain_names_json";
        "tags_json"; "organization_fields_json"; "created_at"; "updated_at"];
     st_upd :=
       ["name"; "external_id"; "group_id"; "details"; "notes";
        "shared_tickets"; "shared_comments"; "domain_names_json";
        "tags_json"; "organization_fields_json"; "created_at"; "updated_at"] |}.

Definition org_params (o : dict) : list (option sqlval) :=
  [to_param (get o "id"); to_param (get o "name");
   to_param (get o "external_id"); to_param (get o "group_id");
   to_param (get o "details"); to_param (get o "notes");
   flag (get o "shared_tickets"); flag (get o "shared_comments");
   js (py_or (get o "domain_names") (JArr []));
   js (py_or (get o "tags") (JArr []));
   js (py_or (get o "organization_fields") (JObj [])); dt (get o "created_at");
   dt (get o "updated_at")].

Definition upsert_org (o : dict) : M unit :=
  execute organizations_stmt (org_params o);;
  i ← int_id o;
  upsert_raw "organizations" i (get o "updated_at") o.

Definition tickets_stmt : statement :=
  {| st_table := "tickets";
     st_types := id_bigint;
     st_pk := ["id"];
     st_cols :=
       ["id"; "subject"; "description"; "status"; "priority"; "type";
        "requester_id"; "assignee_id"; "organization_id"; "created_at";
        "updated_at"; "due_at"];
     st_upd :=
       ["subject"; "description"; "status"; "priority"; "type";
        "requester_id"; "assignee_id"; "organization_id"; "created_at";
        "updated_at"; "due_at"] |}.

Definition ticket_params (t : dict) : list (option sqlval) :=
  [to_param (get t "id"); to_param (get t "subject");
   to_param (get t "description"); to_param (get t "status");
   to_param (get t "priority"); to_param (get t "type");
   to_param (get t "requester_id"); to_param (get t "assignee_id");
   to_param (get t "organization_id"); dt (get t "created_at");
   dt (get t "updated_at"); dt (get t "due_at")].

Definition upsert_ticket (t : dict) : M unit :=
  execute tickets_stmt (ticket_params t);;
  i ← int_id t;
  upsert_raw "tickets" i (get t "updated_at") t.

Definition delete_ticket (ticket_id : Z) : M unit :=
  execute_delete "attachments" "ticket_id" ticket_id;;
  execute_delete "ticket_comments" "ticket_id" ticket_id;;
  execute_delete "tickets" "id" ticket_id.

Definition ticket_comments_stmt : statement :=
  {| st_table := "ticket_comments";
     st_types := id_bigint;
     st_pk := ["id"];
     st_cols :=
       ["id"; "ticket_id"; "author_id"; "public"; "body"; "created_at";
        "updated_at"];
     st_upd :=
       ["ticket_id"; "author_id"; "public"; "body"; "created_at";
        "updated_at"] |}.

Definition comment_params (ticket_id : Z) (c : dict) : list (option sqlval) :=
  [to_param (get c "id"); Some (SInt ticket_id); to_param (get c "author_id");
   flag (get c "public"); to_param (get c "body"); dt (get c "created_at");
   dt (py_or (get c "updated_at") (get c "created_at"))].

Definition upsert_comment (ticket_id : Z) (c : dict) : M unit :=
  execute ticket_comments_stmt (comment_params ticket_id c);;
  i ← int_id c;
  upsert_raw "comments" i (py_or (get c "updated_at") (get c "created_at")) c.

Definition attachments_stmt : statement :=
  {| st_table := "attachments";
     st_types := id_bigint;
     st_pk := ["id"];
     st_cols :=
       ["id"; "ticket_id"; "comment_id"; "file_name"; "content_url";
        "local_path"; "content_type"; "size"; "thumbnails_json"; "created_at"];
     st_upd :=
       ["ticket_id"; "comment_id"; "file_name"; "content_url"; "local_path";
        "content_type"; "size"; "thumbnails_json"; "created_at"] |}.

Definition attachment_params (ticket_id comment_id : Z) (a : dict) (local_path : option string) : list (option sqlval) :=
  [to_param (get a "id"); Some (SInt ticket_id); Some (SInt comment_id);
   to_param (get a "file_name"); to_param (get a "content_url");
   Some (path_param local_path); to_param (get a "content_type");
   to_param (get a "size"); js (py_or (get a "thumbnails") (JArr []));
   dt (get a "created_at")].

Definition upsert_attachment (ticket_id comment_id : Z) (a : dict) (local_path : option string) : M unit :=
  execute attachments_stmt (attachment_params ticket_id comment_id a local_path);;
  i ← int_id a;
  upsert_raw "attachments" i (get a "created_at") a.

Definition views_stmt : statement :=
  {| st_table := "views";
     st_types := id_bigint;
     st_pk := ["id"];
     st_cols :=
       ["id"; "title"; "description"; "active"; "position"; "default_view";
        "restriction_json"; "execution_json"; "conditions_json";
        "created_at"; "updated_at"];
     st_upd :=
       ["title"; "description"; "active"; "position"; "default_view";
        "restriction_json"; "execution_json"; "conditions_json";
        "created_at"; "updated_at"] |}.

Definition view_params (v : dict) : list (option sqlval) :=
  [to_param (get v "id"); to_param (get v "title");
   to_param (get v "description"); flag (get v "active");
   to_param (get v "position"); flag (get v "default");
   js (get v "restriction"); js (get v "execution"); js (get v "conditions");
   dt (get v "created_at"); dt (get v "updated_at")].

Definition upsert_view (v : dict) : M unit :=
  execute views_stmt (view_params v);;
  i ← int_id v;
  upsert_raw "views" i (get v "updated_at") v.

Definition triggers_stmt : statement :=
  {| st_table := "triggers";
     st_types := id_bigint;
     st_pk := ["id"];
     st_cols :=
       ["id"; "title"; "description"; "active"; "position"; "category_id";
        "raw_title"; "default_trigger"; "conditions_json"; "actions_json";
        "created_at"; "updated_at"];
     st_upd :=
       ["title"; "description"; "active"; "position"; "category_id";
        "raw_title"; "default_trigger"; "conditions_json"; "actions_json";
        "created_at"; "updated_at"] |}.

Definition trigger_params (t : dict) : list (option sqlval) :=
  [to_param (get t "id"); to_param (get t "title");
   to_param (get t "description"); flag (get t "active");
   to_param (get t "position"); to_param (get t "category_id");
   to_param (get t "raw_title"); flag (get t "default");
   js (py_or (get t "conditions") (JObj []));
   js (py_or (get t "actions") (JArr [])); dt (get t "created_at");
   dt (get t "updated_at")].

Definition upsert_trigger (t : dict) : M unit :=
  execute triggers_stmt (trigger_params t);;
  i ← int_id t;
  upsert_raw "triggers" i (get t "updated_at") t.

Definition trigger_categories_stmt : statement :=
  {| st_table := "trigger_categories";
     st_types := id_varchar;
     st_pk := ["id"];
     st_cols :=
       ["id"; "name"; "position"; "created_at"; "updated_at"];
     st_upd :=
       ["name"; "position"; "created_at"; "updated_at"] |}.

Definition trigger_category_params (c : dict) : list (option sqlval) :=
  [Some (SStr (py_str (get c "id"))); to_param (get c "name");
   to_param (get c "position"); dt (get c "created_at");
   dt (get c "updated_at")].

Definition upsert_trigger_category (c : dict) : M unit :=
  execute trigger_categories_stmt (trigger_category_params c);;
  i ← int_id c;
  upsert_raw "trigger_categories" i (get c "updated_at") c.

Definition macros_stmt : statement :=
  {| st_table := "macros";
     st_types := id_bigint;
     st_pk := ["id"];
     st_cols :=
       ["id"; "title"; "description"; "active"; "position"; "default_macro";
        "restriction_json"; "actions_json"; "created_at"; "updated_at"];
     st_upd :=
       ["title"; "description"; "active"; "position"; "default_macro";
        "restriction_json"; "actions_json"; "created_at"; "updated_at"] |}.

Definition macro_params (m : dict) : list (option sqlval) :=
  [to_param (get m "id"); to_param (get m "title");
   to_param (get m "description"); flag (get m "active");
   to_param (get m "position"); flag (get m "default");
   js (get m "restriction"); js (py_or (get m "actions") (JArr []));
   dt (get m "created_at"); dt (get m "updated_at")].

Definition upsert_macro (m : dict) : M unit :=
  execute macros_stmt (macro_params m);;
  i ← int_id m;
  upsert_raw "macros" i (get m "updated_at") m.

(** *** Downloads *)

(** The file exists and [st_size > 0]. *)
Definition nonempty_file (fs : gmap string string) (p : string) : bool :=
  match fs !! p with
  | Some content => negb (String.eqb content "")
  | None => false
  end.

(** [target.exists() and target.stat().st_size > 0]: where a file is,
    whether it is not empty; where none is, the file system may refuse
    to look. *)
Definition probe (target : string) : M bool :=
  fun w =>
    match files w !! target with
    | Some content => (Ok (negb (String.eqb content "")), w)
    | None => if py_stat_fails py target then (Raise OSError, w) else (Ok false, w)
    end.

(** [open(target, "wb")]: the file is created or truncated, unless the
    file system refuses. *)
Definition open_wb (target : string) : M unit :=
  fun w =>
    if py_open_fails py target then (Raise OSError, w)
    else (Ok tt, with_files (<[target := ""]> (files w)) w).

(** [f.write(chunk)] *)
Definition write (target chunk : string) : M unit :=
  modify (fun w =>
    log (EvWrite target chunk)
      (with_files (<[target := default "" (files w !! target) ++ chunk]> (files w)) w)).

(** [for chunk in resp.iter_content(...): if chunk: f.write(chunk)] *)
Fixpoint write_chunks (target : string) (chunks : list (option string)) : M unit :=
  match chunks with
  | [] => ret tt
  | None :: _ => raise RequestException
  | Some c :: rest =>
      (if negb (String.eqb c "") then write target c else ret tt);;
      write_chunks target rest
  end.

(** The body of the [try] block. *)
Definition transfer (url : json) (target : string) : M (option string) :=
  u ← lift_sum (as_url url);
  r ← get_with_retry u [] true;
  match r with
  | Stream resp =>
      open_wb target;;
      write_chunks target (resp_chunks resp);;
      ret (Some (resolve target))
  | Body _ => raise AttributeError
  end.

(** [base_dir / f"{rid}__{fname}"] *)
Definition target_path (ticket_id : Z) (rid fname : string) : string :=
  ATTACHMENTS_DIR cfg ++ "/" ++ pretty ticket_id ++ "/" ++ rid ++ "__" ++ fname.

(** The target path of an attachment of ticket [ticket_id]. *)
Definition attachment_target (ticket_id : Z) (att : dict) : exn + string :=
  let rid := py_str (get att "id") in
  match safe_filename (py_or (get att "file_name") (JStr ("attachment_" ++ rid))) with
  | inl e => inl e
  | inr fname => inr (target_path ticket_id rid fname)
  end.

Definition download_attachment (ticket_id comment_id : Z) (att : dict)
    : M (option string) :=
  if negb (DOWNLOAD_ATTACHMENTS cfg) then ret None
  else
    let url := get att "content_url" in
    if negb (truthy url) then ret None
    else
      ensure_dir (ATTACHMENTS_DIR cfg ++ "/" ++ pretty ticket_id);;
      target ← lift_sum (attachment_target ticket_id att);
      present ← probe target;
      if (present : bool) then ret (Some (resolve target))
      else try_except (transfer url target) (fun _ => ret None).

(** *** Pagination drivers *)

(** [for page in iter_cursor_page(first): body]. The generator is given
    the loop body, which tells whether it ended in [break]; the result is
    the sequence of pages the generator yielded. *)
Fixpoint iter_cursor_page (fuel : nat) (page : json) (body : json -> M bool)
    : M (list json) :=
  match fuel with
  | O => out_of_fuel
  | S n =>
      stop ← body page;
      if (stop : bool) then ret [page]
      else
        p ← lift_sum (as_dict page);
        after_url ← lift_sum (link_or_next p "after_url");
        if negb (truthy after_url) then ret [page]
        else
          page' ← get_page after_url [];
          rest ← iter_cursor_page n page' body;
          ret (page :: rest)
  end.

(** [iter_list_pages], from the page in hand (the first one is fetched by
    the caller below, as the generator does before its first [yield]). *)
Fixpoint list_pages_from (fuel : nat) (page : json) (body : json -> M unit)
    : M (list json) :=
  match fuel with
  | O => out_of_fuel
  | S n =>
      body page;;
      p ← lift_sum (as_dict page);
      next_url ← lift_sum (link_or_next p "next_page");
      if negb (truthy next_url) then ret [page]
      else
        page' ← get_page next_url [];
        rest ← list_pages_from n page' body;
        ret (page :: rest)
  end.

Definition iter_list_pages (fuel : nat) (url : string) (params : dict)
    (body : json -> M unit) : M (list json) :=
  page ← get_page (JStr url) params;
  list_pages_from fuel page body.

(** [for x in page.get(key, []): body(x)] with [x] used as a dictionary *)
Definition for_records (page : json) (key : string) (body : dict -> M unit) : M unit :=
  p ← lift_sum (as_dict page);
  l ← lift_sum (py_iter (get_default p key (JArr [])));
  for_each (fun x => d ← lift_sum (as_dict x); body d) l.

(** [ac = page.get(key); if ac: set_cursor_val(conn, resource, conv(ac))] *)
Definition checkpoint (resource : string) (page : json) (key : string)
    (conv : json -> json) : M unit :=
  p ← lift_sum (as_dict page);
  let tok := get p key in
  if truthy tok then set_cursor_val resource (conv tok) else ret tt.

Definition page_flag (page : json) (key : string) : M bool :=
  p ← lift_sum (as_dict page);
  ret (truthy (get p key)).

(** *** Sync functions *)

Definition bootstrap_or (last : json) (k : string) (conv : json -> exn + json)
    : M (string * json) :=
  if truthy last then v ← lift_sum (conv last); ret (k, v)
  else st ← initial_start_time_epoch; ret ("start_time", JNum st).

Definition users_body (page : json) : M bool :=
  for_records page "users" upsert_user;;
  checkpoint "users" page "after_cursor" id;;
  page_flag page "end_of_stream".

Definition sync_users (fuel : nat) : M unit :=
  last ← get_cursor_val "users";
  start ← bootstrap_or last "cursor" inr;
  first ← get_page (JStr (Z_BASE cfg ++ "/api/v2/incremental/users/cursor.json"))
            [("per_page", JNum (PER_PAGE cfg)); start];
  iter_cursor_page fuel first users_body;;
  ret tt.

Definition str_of (j : json) : json := JStr (py_str j).

Definition int_of (j : json) : exn + json :=
  match py_int j with inl e => inl e | inr z => inr (JNum z) end.

(** The [while True] loop of [sync_organizations]. *)
Fixpoint organizations_pages (fuel : nat) (url : json) (params : dict) : M unit :=
  match fuel with
  | O => out_of_fuel
  | S n =>
      page ← get_page url params;
      for_records page "organizations" upsert_org;;
      checkpoint "organizations" page "end_time" str_of;;
      p ← lift_sum (as_dict page);
      let next_page := get p "next_page" in
      if negb (truthy next_page) then ret tt
      else
        sleep (Fin (ORG_PAGE_DELAY_SECS cfg));;
        organizations_pages n next_page []
  end.

Definition sync_organizations (fuel : nat) : M unit :=
  if SKIP_ORGANIZATIONS cfg then ret tt
  else
    last_epoch ← get_cursor_val "organizations";
    start ← bootstrap_or last_epoch "start_time" int_of;
    organizations_pages fuel
      (JStr (Z_BASE cfg ++ "/api/v2/incremental/organizations.json"))
      [("per_page", JNum (ORG_PER_PAGE cfg)); start].

Definition ticket_initial_params (last_cursor : json) : M dict :=
  start ← bootstrap_or last_cursor "cursor" inr;
  ret (("per_page", JNum (PER_PAGE cfg))
       :: (if negb (String.eqb (INCLUDE cfg) "") then [("include", JStr (INCLUDE cfg))] else [])
       ++ (if EXCLUDE_DELETED cfg then [("exclude_deleted", JStr "true")] else [])
       ++ [start])%list.

(** [(t.get("status") or "").lower()] *)
Definition status_lower (t : dict) : exn + string :=
  match py_or (get t "status") (JStr "") with
  | JStr s => inr (lower s)
  | _ => inl AttributeError
  end.

(** [int(c.get("id") or 0)] *)
Definition comment_id_of (c : dict) : M Z :=
  lift_sum (py_int (py_or (get c "id") (JNum 0))).

(** The body of [for a in ...]: download, then upsert with the path. *)
Definition attachment_step (ticket_id comment_id : Z) (a : json) : M unit :=
  att ← lift_sum (as_dict a);
  local_path ← download_attachment ticket_id comment_id att;
  upsert_attachment ticket_id comment_id att local_path.

(** [c.get("attachments") or []] as the list the loop runs over *)
Definition attachments_of (c : dict) : exn + list json :=
  py_iter (py_or (get c "attachments") (JArr [])).

(** The body of [for c in cpage.get("comments", [])] for ticket [t]. *)
Definition comment_step (t : dict) (c : dict) : M unit :=
  tid ← int_id t;
  upsert_comment tid c;;
  l ← lift_sum (attachments_of c);
  for_each (fun a => cid ← comment_id_of c; attachment_step tid cid a) l.

(** The body of [for t in page.get("tickets", [])]. *)
Definition ticket_step (fuel : nat) (t : dict) : M unit :=
  status ← lift_sum (status_lower t);
  let is_closed := String.eqb status "closed" in
  if CLOSED_TICKETS_ONLY cfg && negb is_closed then
    if PRUNE_REOPENED_FROM_DB cfg then i ← int_id t; delete_ticket i
    else ret tt
  else
    upsert_ticket t;;
    if negb (USE_TICKET_EVENTS_FOR_COMMENTS cfg) then
      i ← lift_sum (item t "id");
      iter_list_pages fuel
        (Z_BASE cfg ++ "/api/v2/tickets/" ++ py_str i ++ "/comments.json")
        [("per_page", JNum 100)]
        (fun cpage => for_records cpage "comments" (comment_step t));;
      ret tt
    else ret tt.

Definition tickets_body (fuel : nat) (page : json) : M bool :=
  for_records page "tickets" (ticket_step fuel);;
  checkpoint "tickets" page "after_cursor" id;;
  page_flag page "end_of_stream".

Definition sync_tickets_comments_attachments (fuel : nat) : M (list json) :=
  last ← get_cursor_val "tickets";
  params ← ticket_initial_params last;
  first ← get_page (JStr (Z_BASE cfg ++ "/api/v2/incremental/tickets/cursor.json")) params;
  iter_cursor_page fuel first (tickets_body fuel).

(** The dictionary [c] built from a child event. *)
Definition comment_of_event (ce : dict) (ce_id : json) : dict :=
  [("id", ce_id); ("author_id", get ce "author_id");
   ("public", get_default ce "public" (JBool false)); ("body", get ce "body");
   ("created_at", get ce "created_at"); ("updated_at", get ce "created_at");
   ("attachments", py_or (get ce "attachments") (JArr []))].

Definition is_comment_event (ce : dict) : bool :=
  match py_or (get ce "event_type") (get ce "type") with
  | JStr s => String.eqb s "Comment"
  | _ => false
  end.

(** The body of [for ce in (ev.get("child_events") or [])]. *)
Definition child_event_step (tid : Z) (ce : json) : M unit :=
  d ← lift_sum (as_dict ce);
  if is_comment_event d then
    ce_id ← lift_sum (item d "id");
    upsert_comment tid (comment_of_event d ce_id);;
    l ← lift_sum (attachments_of d);
    for_each (fun a =>
                i ← lift_sum (item d "id");
                cid ← lift_sum (py_int i);
                attachment_step tid cid a) l
  else ret tt.

(** The body of [for ev in page.get("ticket_events", [])]. *)
Definition event_step (ev : dict) : M unit :=
  tid ← lift_sum (py_int (get ev "ticket_id"));
  in_scope ←
    (if CLOSED_TICKETS_ONLY cfg then
       r ← get_page (JStr (Z_BASE cfg ++ "/api/v2/tickets/" ++ pretty tid ++ ".json")) [];
       p ← lift_sum (as_dict r);
       t ← lift_sum (as_dict (get_default p "ticket" (JObj [])));
       status ← lift_sum (status_lower t);
       ret (String.eqb status "closed")
     else ret true);
  if (in_scope : bool) then
    l ← lift_sum (py_iter (py_or (get ev "child_events") (JArr [])));
    for_each (child_event_step tid) l
  else ret tt.

(** The [while True] loop of [sync_ticket_events_for_comments]. *)
Fixpoint ticket_events_pages (fuel : nat) (url : json) (params : dict) : M unit :=
  match fuel with
  | O => out_of_fuel
  | S n =>
      page ← get_page url params;
      for_records page "ticket_events" event_step;;
      p ← lift_sum (as_dict page);
      let next_page := get p "next_page" in
      if truthy next_page then ticket_events_pages n next_page []
      else checkpoint "ticket_events" page "end_time" str_of
  end.

Definition sync_ticket_events_for_comments (fuel : nat) : M unit :=
  last_epoch ← get_cursor_val "ticket_events";
  start ← bootstrap_or last_epoch "start_time" int_of;
  ticket_events_pages fuel
    (JStr (Z_BASE cfg ++ "/api/v2/incremental/ticket_events.json"))
    [start; ("per_page", JNum (PER_PAGE cfg)); ("include", JStr "comment_events")].

(** The loop shared, word for word, by [sync_views], [sync_triggers],
    [sync_trigger_categories] and [sync_macros]. *)
Fixpoint snapshot_pages (fuel : nat) (key : string) (upsert : dict -> M unit)
    (page : json) : M unit :=
  match fuel with
  | O => out_of_fuel
  | S n =>
      for_records page key upsert;;
      p ← lift_sum (as_dict page);
      next_page ← lift_sum (link_or_next p "next_page");
      if negb (truthy next_page) then ret tt
      else
        page' ← get_page next_page [];
        snapshot_pages n key upsert page'
  end.

Definition snapshot_params (with_include : bool) : dict :=
  (("per_page", JNum (Z.min (PER_PAGE cfg) 100))
   :: (if with_include && negb (String.eqb (INCLUDE cfg) "")
       then [("include", JStr (INCLUDE cfg))] else []))%list.

Definition sync_views (fuel : nat) : M unit :=
  page ← get_page (JStr (Z_BASE cfg ++ "/api/v2/views.json")) (snapshot_params true);
  snapshot_pages fuel "views" upsert_view page.

Definition sync_triggers (fuel : nat) : M unit :=
  page ← get_page (JStr (Z_BASE cfg ++ "/api/v2/triggers.json")) (snapshot_params false);
  snapshot_pages fuel "triggers" upsert_trigger page.

Definition sync_trigger_categories (fuel : nat) : M unit :=
  page ← get_page (JStr (Z_BASE cfg ++ "/api/v2/trigger_categories.json"))
           (snapshot_params false);
  snapshot_pages fuel "trigger_categories" upsert_trigger_category page.

Definition sync_macros (fuel : nat) : M unit :=
  page ← get_page (JStr (Z_BASE cfg ++ "/api/v2/macros.json")) (snapshot_params true);
  snapshot_pages fuel "macros" upsert_macro page.

(** [init_schema]: a connection of its own and the statements of
    [SCHEMA_SQL], each [CREATE ... IF NOT EXISTS]: they leave the rows of
    every table where they are (a table not made yet holds no row, which
    is how [!!!] reads it), or the server refuses and the call raises. *)
Definition init_schema : M unit :=
  fun w => if py_schema_fails py then (Raise DatabaseError, w) else (Ok tt, w).

(** [get_db]: the connection of the run, made or refused. The world has
    one store, which stands for what the connection reads and writes. *)
Definition get_db : M unit :=
  fun w => if py_connect_fails py then (Raise DatabaseError, w) else (Ok tt, w).

(** [conn.close()] *)
Definition conn_close : M unit := ret tt.

Definition main (fuel : nat) : M unit :=
  (if DOWNLOAD_ATTACHMENTS cfg then ensure_dir (ATTACHMENTS_DIR cfg) else ret tt);;
  init_schema;;
  get_db;;
  sync_users fuel;;
  sync_organizations fuel;;
  sync_tickets_comments_attachments fuel;;
  (if USE_TICKET_EVENTS_FOR_COMMENTS cfg then sync_ticket_events_for_comments fuel
   else ret tt);;
  sync_views fuel;;
  sync_triggers fuel;;
  sync_trigger_categories fuel;;
  sync_macros fuel;;
  conn_close.

End Backup.

(* ------------------------------------------------------------------ *)
(** ** Concrete instances, used to run the model on examples *)

Module Demo.

Definition cfg (closed_only prune : bool) : config :=
  {| Z_BASE := "https://acme.zendesk.com";
     PER_PAGE := 500;
     INCLUDE := "";
     EXCLUDE_DELETED := false;
     BOOTSTRAP_HOURS := 24;
     CLOSED_TICKETS_ONLY := closed_only;
     USE_TICKET_EVENTS_FOR_COMMENTS := false;
     PRUNE_REOPENED_FROM_DB := prune;
     DOWNLOAD_ATTACHMENTS := true;
     ATTACHMENTS_DIR := "./attachments";
     ORG_PER_PAGE := 100;
     ORG_PAGE_DELAY_SECS := (3 # 2)%Q;
     SKIP_ORGANIZATIONS := false |}.

Definition py : pylib :=
  {| py_fromisoformat := fun s => Some s;
     py_dumps := fun _ => "{}";
     py_dumps_unicode := fun _ => "{}";
     py_repr := fun _ => "{}";
     py_float := fun _ => Some (Fin 5%Q);
     py_resolve := fun p => "/srv/" ++ p;
     py_mkdir_fails := fun _ => false;
     py_stat_fails := fun _ => false;
     py_open_fails := fun _ => false;
     py_schema_fails := false;
     py_connect_fails := false |}.

Definition world0 : world :=
  {| db := ∅; dirs := ∅; files := ∅; clock := 1700000000; nreq := 0; trace := [] |}.

Definition reply (status : Z) (body : option json) : response :=
  {| status_code := status; retry_after := None; resp_json := body;
     resp_text := ""; resp_chunks := [] |}.

Definition stream_reply (chunks : list (option string)) : response :=
  {| status_code := 200; retry_after := None; resp_json := None;
     resp_text := ""; resp_chunks := chunks |}.

(** An attachment of a comment. *)
Definition attachment : dict :=
  [("id", JNum 7); ("file_name", JStr "report:final.pdf");
   ("content_url", JStr "https://acme.zendesk.com/attachments/7")].



(** A first page of the ticket-events feed and of the organizations
    feed, each with an [end_time] and a link to the next page. *)
Definition events_page1 : dict :=
  [("ticket_events", JArr [JObj [("ticket_id", JNum 42); ("child_events", JArr [])]]);
   ("end_time", JNum 1700000100);
   ("next_page", JStr "https://acme.zendesk.com/api/v2/incremental/ticket_events.json?start_time=1700000100")].

Definition organizations_page1 : dict :=
  [("organizations", JArr [JObj [("id", JNum 5); ("name", JStr "Acme")]]);
   ("end_time", JNum 1700000100);
   ("next_page", JStr "https://acme.zendesk.com/api/v2/incremental/organizations.json?start_time=1700000100")].

(** Ticket 42 as open and as closed, and the pages of a tickets feed:
    one that shows it open, one that shows it closed and ends the feed,
    one that shows it open and ends the feed. *)
Definition ticket_open : json := JObj [("id", JNum 42); ("status", JStr "open")].

Definition ticket_closed : json := JObj [("id", JNum 42); ("status", JStr "closed")].

Definition tickets_page_open : dict :=
  [("tickets", JArr [ticket_open]); ("after_cursor", JStr "A");
   ("end_of_stream", JBool false);
   ("after_url", JStr "https://acme.zendesk.com/api/v2/incremental/tickets/cursor.json?cursor=A")].

Definition tickets_page_closed : dict :=
  [("tickets", JArr [ticket_closed]); ("end_of_stream", JBool true)].


Definition no_comments : dict := [("comments", JArr [])].

(** A server that answers the n-th request with the n-th response of a
    script, and fails to answer beyond it. *)
Definition script (l : list response) : nat -> request -> option response :=
  fun n _ => nth_error l n.

End Demo.

(* ------------------------------------------------------------------ *)
(** ** Vocabulary of the statements *)

(** No checkpoint row for [resource] in [sync_state]. *)
Definition no_checkpoint (resource : string) (w : world) : Prop :=
  select_first "sync_state" "resource" (SStr resource) (db w) = None.

(** The store after [delete_ticket]. *)
Definition db_after_delete (tid : Z) (d : database) : database :=
  delete_where "tickets" "id" tid
    (delete_where "ticket_comments" "ticket_id" tid
       (delete_where "attachments" "ticket_id" tid d)).

(** The backoff in force at the attempt of index [i] (from 0). *)
Definition backoff_at (i : nat) : Q := Nat.iter i (fun b => Qmin (b * 2) 30) 1%Q.

(** A response [get_with_retry] answers with a retry. *)
Definition retryable (resp : response) : bool :=
  negb (status_code resp =? 200) && bool_decide (status_code resp ∈ RETRY_STATUS).

(** The time slept after a retryable response: the advertised delay when
    the header is there and denotes a finite, non-negative number, the
    backoff when there is no header (or an empty one); [None] when the
    header is there and [float] or [time.sleep] rejects it. *)
Definition delay_of (py : pylib) (resp : response) (backoff : Q) : option Q :=
  match retry_after resp with
  | Some s =>
      if negb (String.eqb s "") then
        match py_float py s with
        | Some (Fin q) => if Qle_bool 0 q then Some q else None
        | _ => None
        end
      else Some backoff
  | None => Some backoff
  end.

(** [retried remote py rq k n i = Some ds]: the [k] responses to the
    requests number [n], [n+1], ... are retryable and the delays slept
    after them are [ds], the first of these attempts having index [i]. *)
Fixpoint retried (remote : nat -> request -> option response) (py : pylib)
    (rq : request) (k n i : nat) : option (list Q) :=
  match k with
  | O => Some []
  | S k' =>
      match remote n rq with
      | Some resp =>
          if retryable resp then
            match delay_of py resp (backoff_at i) with
            | Some d => option_map (cons d) (retried remote py rq k' (S n) (S i))
            | None => None
            end
          else None
      | None => None
      end
  end.

(** The world after one request. *)
Definition requested (rq : request) (w : world) : world :=
  log (EvGet rq) (with_nreq (S (nreq w)) w).

(** The world after the rounds of request and sleep with delays [ds]. *)
Fixpoint after_rounds (rq : request) (ds : list Q) (w : world) : world :=
  match ds with
  | [] => w
  | d :: ds' => after_rounds rq ds' (log (EvSleep d) (requested rq w))
  end.

(** The entity types, with the arguments their upsert takes besides the
    payload. *)
Inductive entity :=
| User
| Organization
| Ticket
| Comment (ticket_id : Z)
| Attachment (ticket_id comment_id : Z) (local_path : option string)
| View
| Trigger
| TriggerCategory
| Macro.

Definition upsert (py : pylib) (e : entity) (p : dict) : M unit :=
  match e with
  | User => upsert_user py p
  | Organization => upsert_org py p
  | Ticket => upsert_ticket py p
  | Comment tid => upsert_comment py tid p
  | Attachment tid cid lp => upsert_attachment py tid cid p lp
  | View => upsert_view py p
  | Trigger => upsert_trigger py p
  | TriggerCategory => upsert_trigger_category py p
  | Macro => upsert_macro py p
  end.

Definition entity_stmt (e : entity) : statement :=
  match e with
  | User => users_stmt
  | Organization => organizations_stmt
  | Ticket => tickets_stmt
  | Comment _ => ticket_comments_stmt
  | Attachment _ _ _ => attachments_stmt
  | View => views_stmt
  | Trigger => triggers_stmt
  | TriggerCategory => trigger_categories_stmt
  | Macro => macros_stmt
  end.

Definition entity_params (py : pylib) (e : entity) (p : dict) : list (option sqlval) :=
  match e with
  | User => user_params py p
  | Organization => org_params py p
  | Ticket => ticket_params py p
  | Comment tid => comment_params py tid p
  | Attachment tid cid lp => attachment_params py tid cid p lp
  | View => view_params py p
  | Trigger => trigger_params py p
  | TriggerCategory => trigger_category_params py p
  | Macro => macro_params py p
  end.

(** The resource name the raw snapshot is filed under. *)
Definition entity_resource (e : entity) : string :=
  match e with
  | User => "users"
  | Organization => "organizations"
  | Ticket => "tickets"
  | Comment _ => "comments"
  | Attachment _ _ _ => "attachments"
  | View => "views"
  | Trigger => "triggers"
  | TriggerCategory => "trigger_categories"
  | Macro => "macros"
  end.

(** The time stamp passed to [upsert_raw]. *)
Definition entity_updated (e : entity) (p : dict) : json :=
  match e with
  | Comment _ => py_or (get p "updated_at") (get p "created_at")
  | Attachment _ _ _ => get p "created_at"
  | _ => get p "updated_at"
  end.

(** The row a statement stores for its parameters, or the error raised. *)
Definition stored (st : statement) (params : list (option sqlval)) : exn + row :=
  match all_params params with
  | None => inl ProgrammingError
  | Some vals =>
      match stored_row (st_types st) (zip (st_cols st) vals) with
      | Some r => inr r
      | None => inl DatabaseError
      end
  end.

(** The world after a statement stored the row [r]. *)
Definition committed (st : statement) (r : row) (w : world) : world :=
  log (EvUpsert (st_table st) r)
    (with_db (insert_on_duplicate (st_table st) (st_pk st) (st_upd st) r (db w)) w).

(** [int(p["id"])] as a value. *)
Definition id_of (p : dict) : exn + Z :=
  match item p "id" with
  | inl e => inl e
  | inr v => py_int v
  end.

(** The statements of the program, one per table. *)
Definition statements : list statement :=
  [sync_state_stmt; raw_snapshots_stmt; users_stmt; organizations_stmt;
   tickets_stmt; ticket_comments_stmt; attachments_stmt; views_stmt;
   triggers_stmt; trigger_categories_stmt; macros_stmt].

(** The rows of a table under a given primary key. *)
Definition rows_with_key (pk : list string) (k : list sqlval) (t : table) : list row :=
  List.filter (fun r => bool_decide (key_of pk r = k)) t.

(** A table as the schema shapes it: no two rows under one primary key,
    every row with the columns of the table. *)
Definition table_wf (st : statement) (t : table) : Prop :=
  NoDup (map (key_of (st_pk st)) t) /\ Forall (fun r : row => r.*1 = st_cols st) t.

Definition db_wf (d : database) : Prop :=
  Forall (fun st => table_wf st (d !!! st_table st)) statements.

(** The columns of a statement are distinct, and each one is a key
    column or is overwritten by the update. *)
Definition stmt_ok (st : statement) : bool :=
  bool_decide (NoDup (st_cols st))
  && forallb (fun c => bool_decide (c ∈ st_pk st) || bool_decide (c ∈ st_upd st))
       (st_cols st).

(** [same f]: the component [f] of the world is left as it was. *)
Definition same {A} (f : world -> A) : world -> world -> Prop :=
  fun w w' => f w' = f w.

(** The per-ticket directory of the attachments of ticket [ticket_id]. *)
Definition ticket_dir (cfg : config) (ticket_id : Z) : string :=
  ATTACHMENTS_DIR cfg ++ "/" ++ pretty ticket_id.



(** A page request. *)
Definition page_request (url : string) (params : dict) : request :=
  {| req_url := url; req_params := params; req_stream := false |}.


(** The checkpoint table. *)
Definition sync_state_of (w : world) : table := db w !!! "sync_state".

(** The page fetches and checkpoint writes of a trace, in order. *)
Definition fetches_and_checkpoints (evs : list event) : list event :=
  List.filter (fun ev => match ev with
                         | EvGet _ => true
                         | EvUpsert tbl _ => String.eqb tbl "sync_state"
                         | _ => false
                         end) evs.

(** The trace grew by events that are not [DELETE] statements. *)
Definition is_delete (ev : event) : bool :=
  match ev with EvDelete _ _ _ => true | _ => false end.

Definition no_delete (w w' : world) : Prop :=
  exists evs, trace w' = (trace w ++ evs)%list /\ forallb (fun ev => negb (is_delete ev)) evs = true.

(** No row of table [tbl] holds the ticket id [tid] in column [col]. *)
Definition no_ref (tbl col : string) (tid : Z) (d : database) : Prop :=
  forall r, r ∈ d !!! tbl -> cell r col <> SInt tid.

(** The ticket [tid] is absent from the typed tables: no ticket row, no
    comment row and no attachment row refers to it. *)
Definition ticket_absent (tid : Z) (d : database) : Prop :=
  no_ref "tickets" "id" tid d
  /\ no_ref "ticket_comments" "ticket_id" tid d
  /\ no_ref "attachments" "ticket_id" tid d.






(** The ticket [tid], if absent, stays absent. *)
Definition keeps_absent (tid : Z) (w w' : world) : Prop :=
  ticket_absent tid (db w) -> ticket_absent tid (db w').

(** [preserves R m]: running [m] relates the world before to the world
    after, whatever the outcome. *)
Definition preserves {A} (R : world -> world -> Prop) (m : M A) : Prop :=
  forall w, R w (m w).2.

(** A file name without any of the characters [safe_filename] replaces. *)
Definition clean (s : string) : bool :=
  forallb (fun c => negb (is_illegal c)) (list_ascii_of_string s).

(** Further instances for the examples. *)
Module Sample.

(** Library functions whose [float] reads decimal integers only. *)
Definition py : pylib :=
  {| py_fromisoformat := fun s => Some s;
     py_dumps := fun _ => "{}";
     py_dumps_unicode := fun _ => "{}";
     py_repr := fun _ => "{}";
     py_float := fun s => option_map (fun z => Fin (inject_Z z)) (int_of_string s);
     py_resolve := fun p => "/srv/" ++ p;
     py_mkdir_fails := fun _ => false;
     py_stat_fails := fun _ => false;
     py_open_fails := fun _ => false;
     py_schema_fails := false;
     py_connect_fails := false |}.

(** A 429 response that gives its [Retry-After] as a date. *)
Definition busy_until : response :=
  {| status_code := 429; retry_after := Some "Wed, 21 Oct 2015 07:28:00 GMT";
     resp_json := None; resp_text := ""; resp_chunks := [] |}.

(** A configuration with the attachment download switched off. *)
Definition cfg_store_only : config :=
  {| Z_BASE := "https://acme.zendesk.com";
     PER_PAGE := 500;
     INCLUDE := "";
     EXCLUDE_DELETED := false;
     BOOTSTRAP_HOURS := 24;
     CLOSED_TICKETS_ONLY := true;
     USE_TICKET_EVENTS_FOR_COMMENTS := false;
     PRUNE_REOPENED_FROM_DB := true;
     DOWNLOAD_ATTACHMENTS := false;
     ATTACHMENTS_DIR := "./attachments";
     ORG_PER_PAGE := 100;
     ORG_PAGE_DELAY_SECS := (3 # 2)%Q;
     SKIP_ORGANIZATIONS := false |}.

(** A whole run: no user, no organization, ticket 42 closed with one
    comment that carries an attachment, ticket 43 open, and nothing in
    the four snapshot lists. *)
Definition run_script : list response :=
  [Demo.reply 200 (Some (JObj [("users", JArr []); ("end_of_stream", JBool true)]));
   Demo.reply 200 (Some (JObj [("organizations", JArr [])]));
   Demo.reply 200
     (Some (JObj [("tickets", JArr [Demo.ticket_closed;
                                    JObj [("id", JNum 43); ("status", JStr "open")]]);
                  ("end_of_stream", JBool true)]));
   Demo.reply 200
     (Some (JObj [("comments",
                   JArr [JObj [("id", JNum 9); ("body", JStr "see file");
                               ("attachments", JArr [JObj Demo.attachment])]])]));
   Demo.reply 200 (Some (JObj [("views", JArr [])]));
   Demo.reply 200 (Some (JObj [("triggers", JArr [])]));
   Demo.reply 200 (Some (JObj [("trigger_categories", JArr [])]));
   Demo.reply 200 (Some (JObj [("macros", JArr [])]))].

End Sample.

(** The chunks of a body, put end to end. *)
Definition joined (cs : list string) : string := fold_right String.append "" cs.

(** What a run has on disk: the files and the directories. *)
Definition disk (w : world) : gmap string string * gset string := (files w, dirs w).

(* ------------------------------------------------------------------ *)
(** ** The HTTP entry point ([api/backup.py]) *)

(** [os.getenv(name, dflt).lower() == "true"], as [backup.py] reads its
    switches, the variable holding [env] ([None]: it is not set). *)
Definition env_flag (env : option string) (dflt : string) : bool :=
  String.eqb (lower (default dflt env)) "true".

(** [os.environ.setdefault(name, v)] on the variable. *)
Definition setdefault (env : option string) (v : string) : option string :=
  Some (default v env).

Definition with_download_flag (b : bool) (cfg : config) : config :=
  {| Z_BASE := Z_BASE cfg;
     PER_PAGE := PER_PAGE cfg;
     INCLUDE := INCLUDE cfg;
     EXCLUDE_DELETED := EXCLUDE_DELETED cfg;
     BOOTSTRAP_HOURS := BOOTSTRAP_HOURS cfg;
     CLOSED_TICKETS_ONLY := CLOSED_TICKETS_ONLY cfg;
     USE_TICKET_EVENTS_FOR_COMMENTS := USE_TICKET_EVENTS_FOR_COMMENTS cfg;
     PRUNE_REOPENED_FROM_DB := PRUNE_REOPENED_FROM_DB cfg;
     DOWNLOAD_ATTACHMENTS := b;
     ATTACHMENTS_DIR := ATTACHMENTS_DIR cfg;
     ORG_PER_PAGE := ORG_PER_PAGE cfg;
     ORG_PAGE_DELAY_SECS := ORG_PAGE_DELAY_SECS cfg;
     SKIP_ORGANIZATIONS := SKIP_ORGANIZATIONS cfg |}.

(** The configuration [backup] is imported with: the one read from the
    rest of the environment, with the download switch as the variable
    [DOWNLOAD_ATTACHMENTS] gives it after the [setdefault]. *)
Definition api_config (env : option string) (cfg : config) : config :=
  with_download_flag (env_flag (setdefault env "false") "true") cfg.

Definition json_headers : list (string * string) :=
  [("Content-Type", "application/json")].

(** [handler]: the body, the status and the headers it returns.
    [str_exn e] is [str(e)]. *)
Definition handler (cfg : config) (env : option string)
    (remote : nat -> request -> option response) (py : pylib)
    (str_exn : exn -> string) (fuel : nat)
    : M (string * Z * list (string * string)) :=
  try_except
    (main (api_config env cfg) remote py fuel;;
     ret (py_dumps py (JObj [("ok", JBool true);
                             ("message", JStr "Zendesk backup finished")]),
          200, json_headers))
    (fun e =>
       ret (py_dumps py (JObj [("ok", JBool false); ("error", JStr (str_exn e))]),
            500, json_headers)).


(** A ticket row whose status, in lower case, is "closed". *)
Definition closed_row (r : row) : bool :=
  match cell r "status" with
  | SStr s => String.eqb (lower s) "closed"
  | _ => false
  end.

(** An effect other than the storing of a ticket row that is not
    closed. *)
Definition stores_closed_only (ev : event) : bool :=
  match ev with
  | EvUpsert tbl r => negb (String.eqb tbl "tickets") || closed_row r
  | _ => true
  end.

(** The trace grew by such effects only. *)
Definition only_closed_stored (w w' : world) : Prop :=
  exists evs, trace w' = (trace w ++ evs)%list /\ forallb stores_closed_only evs = true.

(** A page of a cursor feed after which the coordinators go on: it is
    not flagged as the end of the stream and it links to a next page. *)
Definition has_next (page : json) : bool :=
  match page with
  | JObj p =>
      negb (truthy (get p "end_of_stream"))
      && match link_or_next p "after_url" with
         | inr u => truthy u
         | inl _ => false
         end
  | _ => false
  end.

(* ------------------------------------------------------------------ *)
(** ** Reasoning about computations *)

Lemma bind_Ok {A B} (m : M A) (k : A -> M B) w b w' :
  bind m k w = (Ok b, w') ->
  exists a w1, m w = (Ok a, w1) /\ k a w1 = (Ok b, w').
Proof.
  unfold bind. destruct (m w) as [[a|e|] w1]; intros H; try discriminate.
  eauto.
Qed.

Lemma bind_run {A B} (m : M A) (k : A -> M B) w a w1 :
  m w = (Ok a, w1) -> bind m k w = k a w1.
Proof. unfold bind. intros ->. reflexivity. Qed.

Lemma bind_raise {A B} (m : M A) (k : A -> M B) w e w1 :
  m w = (Raise e, w1) -> bind m k w = (Raise e, w1).
Proof. unfold bind. intros ->. reflexivity. Qed.

Lemma lift_sum_Ok {A} (r : exn + A) w a w' :
  lift_sum r w = (Ok a, w') -> r = inr a /\ w' = w.
Proof. destruct r; cbn; intros H; inversion H; auto. Qed.

Lemma for_each_app {A} (body : A -> M unit) l1 l2 w :
  for_each body (l1 ++ l2)%list w =
  bind (for_each body l1) (fun _ => for_each body l2) w.
Proof.
  revert w. induction l1 as [|x l1 IH]; intros w.
  - reflexivity.
  - change (bind (body x) (fun _ => for_each body (l1 ++ l2)%list) w =
            bind (bind (body x) (fun _ => for_each body l1))
                 (fun _ => for_each body l2) w).
    unfold bind. destruct (body x w) as [[[]|e|] w1]; auto.
Qed.

Section Preserves.

Context (R : world -> world -> Prop) `{!PreOrder R}.

Lemma preserves_ret {A} (a : A) : preserves R (ret a).
Proof. intros w. reflexivity. Qed.

Lemma preserves_raise {A} e : preserves R (@raise A e).
Proof. intros w. reflexivity. Qed.

Lemma preserves_fuel {A} : preserves R (@out_of_fuel A).
Proof. intros w. reflexivity. Qed.

Lemma preserves_read {A} (f : world -> A) : preserves R (read f).
Proof. intros w. reflexivity. Qed.

Lemma preserves_lift_sum {A} (r : exn + A) : preserves R (lift_sum r).
Proof. destruct r; intros w; reflexivity. Qed.

Lemma preserves_bind {A B} (m : M A) (k : A -> M B) :
  preserves R m -> (forall a, preserves R (k a)) -> preserves R (bind m k).
Proof.
  intros Hm Hk w. unfold bind. specialize (Hm w).
  destruct (m w) as [[a|e|] w1]; cbn in *; auto.
  etransitivity; [exact Hm | apply Hk].
Qed.

Lemma preserves_try {A} (m : M A) (h : exn -> M A) :
  preserves R m -> (forall e, preserves R (h e)) -> preserves R (try_except m h).
Proof.
  intros Hm Hh w. unfold try_except. specialize (Hm w).
  destruct (m w) as [[a|e|] w1]; cbn in *; auto.
  etransitivity; [exact Hm | apply Hh].
Qed.

Lemma preserves_for_each {A} (body : A -> M unit) l :
  (forall x, preserves R (body x)) -> preserves R (for_each body l).
Proof.
  intros Hb. induction l as [|x l IH]; cbn.
  - apply preserves_ret.
  - apply preserves_bind; auto.
Qed.

Lemma preserves_modify (f : world -> world) :
  (forall w, R w (f w)) -> preserves R (modify f).
Proof. intros H w. apply H. Qed.

Lemma init_schema_preserves py : preserves R (init_schema py).
Proof. intros w. unfold init_schema. destruct (py_schema_fails py); reflexivity. Qed.

Lemma get_db_preserves py : preserves R (get_db py).
Proof. intros w. unfold get_db. destruct (py_connect_fails py); reflexivity. Qed.

End Preserves.

(** Applying a lemma of the section above: the preorder is found among
    the instances. *)
Ltac papply lem := apply lem; try exact _.

(** One step of a proof that a computation preserves a relation. *)
Ltac preserves_step :=
  lazymatch goal with
  | |- preserves _ (bind _ _) => papply preserves_bind; [| intros ?]
  | |- preserves _ (ret _) => papply preserves_ret
  | |- preserves _ (raise _) => papply preserves_raise
  | |- preserves _ out_of_fuel => papply preserves_fuel
  | |- preserves _ (read _) => papply preserves_read
  | |- preserves _ (lift_sum _) => papply preserves_lift_sum
  | |- preserves _ (try_except _ _) => papply preserves_try; [| intros ?]
  | |- preserves _ (for_each _ _) => papply preserves_for_each; intros ?
  | |- preserves _ (if ?b then _ else _) => destruct b
  | |- preserves _ (match ?x with _ => _ end) => destruct x
  end.

(* ------------------------------------------------------------------ *)
(** ** The bootstrap start time *)

Lemma get_cursor_val_absent resource w :
  no_checkpoint resource w -> get_cursor_val resource w = (Ok JNull, w).
Proof.
  unfold no_checkpoint, get_cursor_val, bind, read. intros ->. reflexivity.
Qed.

(** C4. With no checkpoint for the resource, the start time the
    coordinator asks for is the current time minus the larger of the
    configured lookback and 120 seconds: never less than two minutes in
    the past, equal to now minus the lookback when that is at least two
    minutes, and exactly two minutes otherwise. *)
Theorem bootstrap_start_floor (cfg : config) (resource k : string)
    (conv : json -> exn + json) (w : world) :
  no_checkpoint resource w ->
  bind (get_cursor_val resource) (fun last => bootstrap_or cfg last k conv) w
    = (Ok ("start_time", JNum (start_time_at cfg (clock w))), w)
  /\ start_time_at cfg (clock w) = clock w - Z.max (BOOTSTRAP_HOURS cfg * 3600) 120
  /\ start_time_at cfg (clock w) <= clock w - 120
  /\ (120 <= BOOTSTRAP_HOURS cfg * 3600 ->
      start_time_at cfg (clock w) = clock w - BOOTSTRAP_HOURS cfg * 3600)
  /\ (BOOTSTRAP_HOURS cfg * 3600 < 120 ->
      start_time_at cfg (clock w) = clock w - 120).
Proof.
  intros Hno. split.
  - rewrite (bind_run _ _ _ _ _ (get_cursor_val_absent _ _ Hno)). reflexivity.
  - unfold start_time_at. repeat split; lia.
Qed.

(* ------------------------------------------------------------------ *)
(** ** The store: frame of the ticket delete *)

Lemma delete_where_other tbl col z (d : database) tbl' :
  tbl' <> tbl -> delete_where tbl col z d !! tbl' = d !! tbl'.
Proof. intros H. unfold delete_where. apply lookup_insert_ne. congruence. Qed.

Lemma delete_where_other_total tbl col z (d : database) tbl' :
  tbl' <> tbl -> delete_where tbl col z d !!! tbl' = d !!! tbl'.
Proof.
  intros H. unfold lookup_total, map_lookup_total.
  rewrite delete_where_other; auto.
Qed.

Lemma delete_where_same tbl col z (d : database) :
  delete_where tbl col z d !!! tbl =
  List.filter (fun r => negb (bool_decide (cell r col = SInt z))) (d !!! tbl).
Proof. unfold delete_where. apply lookup_total_insert_eq. Qed.

Lemma delete_where_subset tbl col z (d : database) tbl' r :
  r ∈ delete_where tbl col z d !!! tbl' -> r ∈ d !!! tbl'.
Proof.
  destruct (decide (tbl' = tbl)) as [->|Hne].
  - rewrite delete_where_same, !list_elem_of_In, filter_In. tauto.
  - rewrite delete_where_other_total; auto.
Qed.

Lemma delete_where_gone tbl col z (d : database) r :
  r ∈ delete_where tbl col z d !!! tbl -> cell r col <> SInt z.
Proof.
  rewrite delete_where_same, list_elem_of_In, filter_In. intros [_ H].
  apply negb_true_iff, bool_decide_eq_false in H. exact H.
Qed.

Lemma delete_ticket_run tid w :
  delete_ticket tid w =
  (Ok tt,
   {| db := db_after_delete tid (db w); dirs := dirs w; files := files w;
      clock := clock w; nreq := nreq w;
      trace := trace w ++ [EvDelete "attachments" "ticket_id" tid;
                           EvDelete "ticket_comments" "ticket_id" tid;
                           EvDelete "tickets" "id" tid] |}).
Proof.
  unfold delete_ticket, execute_delete, bind, modify, log, with_db; cbn.
  rewrite <- !app_assoc. reflexivity.
Qed.

(** C10. Deleting a ticket always succeeds, removes rows from
    [tickets], [ticket_comments] and [attachments] only, and leaves every
    other table as it was; the [raw_snapshots] table in particular, with
    the mirror rows of the ticket, its comments and its attachments, is
    unchanged, and so are the files on disk. *)
Theorem delete_ticket_frame (tid : Z) (w : world) :
  (delete_ticket tid w).1 = Ok tt
  /\ (forall tbl, tbl ∉ ["tickets"; "ticket_comments"; "attachments"] ->
        db (delete_ticket tid w).2 !! tbl = db w !! tbl)
  /\ db (delete_ticket tid w).2 !!! "raw_snapshots" = db w !!! "raw_snapshots"
  /\ (forall tbl r, r ∈ db (delete_ticket tid w).2 !!! tbl -> r ∈ db w !!! tbl)
  /\ files (delete_ticket tid w).2 = files w
  /\ dirs (delete_ticket tid w).2 = dirs w.
Proof.
  rewrite delete_ticket_run; cbn. unfold db_after_delete.
  split; [reflexivity|]. split; [|split; [|split; [|split; reflexivity]]].
  - intros tbl Hn. rewrite !delete_where_other; auto;
      intros ->; apply Hn; set_solver.
  - rewrite !delete_where_other_total; auto; discriminate.
  - intros tbl r H. do 3 apply delete_where_subset in H. exact H.
Qed.

(* ------------------------------------------------------------------ *)
(** ** The retrying fetcher *)

Section Fetcher.

Variable remote : nat -> request -> option response.
Variable py : pylib.


Lemma http_get_run rq w :
  http_get remote rq w =
  (match remote (nreq w) rq with Some r => Ok r | None => Raise RequestException end,
   requested rq w).
Proof. unfold http_get, requested. destruct (remote (nreq w) rq); reflexivity. Qed.

Lemma nreq_after_rounds rq ds w :
  nreq (after_rounds rq ds w) = (nreq w + length ds)%nat.
Proof.
  revert w. induction ds as [|d ds IH]; intros w; cbn.
  - lia.
  - rewrite IH. cbn. lia.
Qed.

Lemma retried_length rq k n i ds :
  retried remote py rq k n i = Some ds -> length ds = k.
Proof.
  revert n i ds. induction k as [|k IH]; intros n i ds; cbn.
  - intros [= <-]. reflexivity.
  - destruct (remote n rq) as [resp|]; [|discriminate].
    destruct (retryable resp); [|discriminate].
    destruct (delay_of py resp (backoff_at i)) as [d|]; [|discriminate].
    destruct (retried remote py rq k (S n) (S i)) as [ds'|] eqn:E; [|discriminate].
    intros [= <-]. cbn. f_equal. eauto.
Qed.

Lemma backoff_nonneg i : Qle_bool 0 (backoff_at i) = true.
Proof.
  apply Qle_bool_iff. induction i as [|i IH].
  - discriminate.
  - change (backoff_at (S i)) with (Qmin (backoff_at i * 2) 30).
    apply Q.min_glb; [|discriminate].
    apply Qmult_le_0_compat; [exact IH | discriminate].
Qed.

(** One retry round. *)
Lemma retry_round n b rq w resp d :
  Qle_bool 0 b = true ->
  remote (nreq w) rq = Some resp ->
  retryable resp = true ->
  delay_of py resp b = Some d ->
  retry_loop remote py (S n) b rq w =
  retry_loop remote py n (Qmin (b * 2) 30) rq (log (EvSleep d) (requested rq w)).
Proof.
  intros Hb Hr Hre Hd. cbn [retry_loop].
  rewrite (bind_run _ _ w resp (requested rq w)) by (rewrite http_get_run, Hr; reflexivity).
  unfold retryable in Hre. apply andb_true_iff in Hre as [H200 Hin].
  apply negb_true_iff in H200. rewrite H200, Hin.
  assert (Hs : forall q, Qle_bool 0 q = true ->
            sleep (Fin q) (requested rq w) = (Ok tt, log (EvSleep q) (requested rq w))).
  { intros q Hq. unfold sleep. rewrite Hq. reflexivity. }
  unfold delay_of in Hd. unfold sleep_for.
  destruct (retry_after resp) as [s|].
  - destruct (negb (s =? "")%string).
    + destruct (py_float py s) as [[q| |]|]; try discriminate.
      destruct (Qle_bool 0 q) eqn:Hq; [|discriminate]. injection Hd as <-.
      unfold bind at 1, ret. rewrite (bind_run _ _ _ _ _ (Hs q Hq)). reflexivity.
    + injection Hd as <-.
      unfold bind at 1, ret. rewrite (bind_run _ _ _ _ _ (Hs b Hb)). reflexivity.
  - injection Hd as <-.
    unfold bind at 1, ret. rewrite (bind_run _ _ _ _ _ (Hs b Hb)). reflexivity.
Qed.

(** [k] retry rounds. *)
Lemma retry_rounds k m i rq w ds :
  retried remote py rq k (nreq w) i = Some ds ->
  retry_loop remote py (k + m) (backoff_at i) rq w =
  retry_loop remote py m (backoff_at (i + k)) rq (after_rounds rq ds w).
Proof.
  revert i w ds. induction k as [|k IH]; intros i w ds; cbn [retried].
  - intros [= <-]. rewrite Nat.add_0_r. reflexivity.
  - destruct (remote (nreq w) rq) as [resp|] eqn:Hr; [|discriminate].
    destruct (retryable resp) eqn:Hre; [|discriminate].
    destruct (delay_of py resp (backoff_at i)) as [d|] eqn:Hd; [|discriminate].
    destruct (retried remote py rq k (S (nreq w)) (S i)) as [ds'|] eqn:E; [|discriminate].
    intros [= <-]. cbn [Nat.add after_rounds].
    rewrite (retry_round _ _ _ _ resp d (backoff_nonneg i) Hr Hre Hd).
    change (Qmin (backoff_at i * 2) 30) with (backoff_at (S i)).
    rewrite (IH (S i) _ ds') by exact E.
    replace (S i + k)%nat with (i + S k)%nat by lia. reflexivity.
Qed.





End Fetcher.




(* ------------------------------------------------------------------ *)
(** ** The store: rows and keys *)

Lemma fmap_map {A B} (f : A -> B) (l : list A) : f <$> l = map f l.
Proof. reflexivity. Qed.

Lemma cell_not_in (r : row) c : c ∉ r.*1 -> cell r c = SNull.
Proof.
  induction r as [|[c' v] r IH]; cbn; [reflexivity|].
  intros H. destruct (String.eqb_spec c' c) as [->|Hne].
  - exfalso. apply H. left.
  - apply IH. intros Hin. apply H. right. exact Hin.
Qed.

Lemma cell_of_elem (r : row) c v : NoDup r.*1 -> (c, v) ∈ r -> cell r c = v.
Proof.
  induction r as [|[c' v'] r IH]; cbn; intros Hnd Hin.
  - inversion Hin.
  - apply NoDup_cons in Hnd as [Hc' Hnd].
    apply elem_of_cons in Hin as [[= -> ->]|Hin].
    + rewrite String.eqb_refl. reflexivity.
    + destruct (String.eqb_spec c' c) as [->|Hne]; [|auto].
      exfalso. apply Hc'. apply list_elem_of_fmap. exists (c, v). auto.
Qed.

Lemma row_rebuild (r : row) :
  NoDup r.*1 -> map (fun c => (c, cell r c)) r.*1 = r.
Proof.
  intros Hnd. transitivity (map id r); [|apply map_id].
  change (r.*1) with (map fst r). rewrite map_map. apply map_ext_in. intros [c v] Hin. cbn.
  f_equal. apply cell_of_elem; [exact Hnd|]. apply list_elem_of_In. exact Hin.
Qed.

Lemma on_duplicate_names upd (new old : row) : (on_duplicate upd new old).*1 = old.*1.
Proof.
  unfold on_duplicate. rewrite !fmap_map, map_map. apply map_ext.
  intros [c v]. cbn. destruct (bool_decide _); reflexivity.
Qed.

Lemma cell_cons c' v (r : row) c :
  cell ((c', v) :: r) c = if String.eqb c' c then v else cell r c.
Proof. reflexivity. Qed.

Lemma cell_on_duplicate upd (new old : row) c :
  cell (on_duplicate upd new old) c =
  if bool_decide (c ∈ upd) then (if bool_decide (c ∈ old.*1) then cell new c else SNull)
  else cell old c.
Proof.
  induction old as [|[c' v] old IH].
  - cbn. destruct (bool_decide (c ∈ upd)); [|reflexivity].
    rewrite bool_decide_eq_false_2; [reflexivity | apply not_elem_of_nil].
  - change (on_duplicate upd new ((c', v) :: old))
      with ((if bool_decide (c' ∈ upd) then (c', cell new c') else (c', v))
            :: on_duplicate upd new old).
    assert (Hhead : forall rest,
      cell ((if bool_decide (c' ∈ upd) then (c', cell new c') else (c', v)) :: rest) c
      = if String.eqb c' c then (if bool_decide (c' ∈ upd) then cell new c' else v)
        else cell rest c).
    { intros rest. destruct (bool_decide (c' ∈ upd)); reflexivity. }
    rewrite Hhead, IH, cell_cons.
    change (((c', v) :: old).*1) with (c' :: old.*1).
    destruct (String.eqb_spec c' c) as [->|Hne].
    + destruct (bool_decide (c ∈ upd)); [|reflexivity].
      rewrite bool_decide_eq_true_2; [reflexivity | left].
    + destruct (bool_decide (c ∈ upd)); [|reflexivity].
      destruct (bool_decide (c ∈ old.*1)) eqn:Ho.
      * rewrite bool_decide_eq_true_2; [reflexivity|].
        right. apply bool_decide_eq_true in Ho. exact Ho.
      * rewrite bool_decide_eq_false_2; [reflexivity|].
        apply bool_decide_eq_false in Ho. intros Hin.
        apply elem_of_cons in Hin as [->|Hin]; [congruence | auto].
Qed.

Lemma key_of_eq pk (r1 r2 : row) :
  key_of pk r1 = key_of pk r2 <-> forall c, c ∈ pk -> cell r1 c = cell r2 c.
Proof.
  unfold key_of. induction pk as [|k pk IH]; cbn.
  - split; [intros _ c Hc; inversion Hc | reflexivity].
  - split.
    + intros [= Hk Hrest] c Hc. apply elem_of_cons in Hc as [->|Hc]; [exact Hk|].
      apply IH; assumption.
    + intros H. f_equal; [apply H; left | apply IH; intros c Hc; apply H; right; exact Hc].
Qed.

Lemma key_on_duplicate pk upd (new old : row) :
  key_of pk old = key_of pk new ->
  key_of pk (on_duplicate upd new old) = key_of pk new.
Proof.
  rewrite !key_of_eq. intros H c Hc. rewrite cell_on_duplicate.
  destruct (bool_decide (c ∈ upd)); [|auto].
  destruct (bool_decide (c ∈ old.*1)) eqn:Ho; [reflexivity|].
  apply bool_decide_eq_false in Ho. rewrite <- (H c Hc).
  symmetry. apply cell_not_in. exact Ho.
Qed.

Lemma on_duplicate_idem upd (new old : row) :
  on_duplicate upd new (on_duplicate upd new old) = on_duplicate upd new old.
Proof.
  unfold on_duplicate. rewrite map_map. apply map_ext. intros [c v]. cbn.
  destruct (bool_decide (c ∈ upd)) eqn:Hu; cbn; rewrite Hu; reflexivity.
Qed.

Lemma on_duplicate_self upd (r : row) : NoDup r.*1 -> on_duplicate upd r r = r.
Proof.
  intros Hnd. unfold on_duplicate. transitivity (map id r); [|apply map_id].
  apply map_ext_in. intros [c v] Hin. cbn.
  destruct (bool_decide (c ∈ upd)); [|reflexivity].
  f_equal. apply cell_of_elem; [exact Hnd|]. apply list_elem_of_In. exact Hin.
Qed.

(** When the update list covers every column outside the key, the row
    left by the update is the new row, whatever the old one held. *)
Lemma on_duplicate_overwrites pk upd (new old : row) :
  NoDup new.*1 -> old.*1 = new.*1 ->
  (forall c, c ∈ new.*1 -> c ∈ pk \/ c ∈ upd) ->
  key_of pk old = key_of pk new ->
  on_duplicate upd new old = new.
Proof.
  intros Hnd Hnames Hcov Hkey.
  transitivity (map (fun c => (c, cell new c)) old.*1);
    [|rewrite Hnames; apply row_rebuild; exact Hnd].
  unfold on_duplicate. change (old.*1) with (map fst old). rewrite map_map.
  apply map_ext_in. intros [c v] Hin. cbn.
  destruct (bool_decide (c ∈ upd)) eqn:Hu; [reflexivity|].
  apply bool_decide_eq_false in Hu. f_equal.
  assert (Hc : c ∈ new.*1).
  { rewrite <- Hnames. apply list_elem_of_fmap. exists (c, v).
    split; [reflexivity | apply list_elem_of_In; exact Hin]. }
  destruct (Hcov c Hc) as [Hpk|]; [|contradiction].
  rewrite key_of_eq in Hkey. rewrite <- (Hkey c Hpk).
  symmetry. apply cell_of_elem; [rewrite Hnames; exact Hnd|].
  apply list_elem_of_In. exact Hin.
Qed.

Lemma upsert_rows_idem pk upd (r : row) (t : table) :
  NoDup r.*1 ->
  upsert_rows pk upd r (upsert_rows pk upd r t) = upsert_rows pk upd r t.
Proof.
  intros Hnd. induction t as [|r0 t IH]; cbn.
  - rewrite bool_decide_eq_true_2 by reflexivity.
    rewrite on_duplicate_self by exact Hnd. reflexivity.
  - destruct (bool_decide (key_of pk r0 = key_of pk r)) eqn:Hk; cbn.
    + apply bool_decide_eq_true in Hk.
      rewrite bool_decide_eq_true_2 by (apply key_on_duplicate; exact Hk).
      rewrite on_duplicate_idem. reflexivity.
    + rewrite Hk, IH. reflexivity.
Qed.

Lemma upsert_rows_keys pk upd (r : row) (t : table) :
  map (key_of pk) (upsert_rows pk upd r t) =
  if bool_decide (key_of pk r ∈ map (key_of pk) t) then map (key_of pk) t
  else (map (key_of pk) t ++ [key_of pk r])%list.
Proof.
  induction t as [|r0 t IH]; cbn.
  - rewrite bool_decide_eq_false_2; [reflexivity | apply not_elem_of_nil].
  - destruct (bool_decide (key_of pk r0 = key_of pk r)) eqn:Hk; cbn.
    + apply bool_decide_eq_true in Hk.
      rewrite bool_decide_eq_true_2 by (rewrite Hk; left).
      rewrite key_on_duplicate by exact Hk. rewrite Hk. reflexivity.
    + apply bool_decide_eq_false in Hk. rewrite IH.
      destruct (bool_decide (key_of pk r ∈ map (key_of pk) t)) eqn:Hin.
      * rewrite bool_decide_eq_true_2; [reflexivity|].
        right. apply bool_decide_eq_true in Hin. exact Hin.
      * rewrite bool_decide_eq_false_2; [reflexivity|].
        apply bool_decide_eq_false in Hin. intros H.
        apply elem_of_cons in H as [H|H]; [congruence | auto].
Qed.

Lemma upsert_rows_NoDup pk upd (r : row) (t : table) :
  NoDup (map (key_of pk) t) -> NoDup (map (key_of pk) (upsert_rows pk upd r t)).
Proof.
  intros Hnd. rewrite upsert_rows_keys.
  destruct (bool_decide _) eqn:Hin; [exact Hnd|].
  apply bool_decide_eq_false in Hin.
  apply NoDup_app. split; [exact Hnd|]. split.
  - intros k Hk Hk'. apply list_elem_of_singleton in Hk'. subst. auto.
  - apply NoDup_singleton.
Qed.

Lemma upsert_rows_names pk upd (r : row) (t : table) cols :
  r.*1 = cols -> Forall (fun r0 : row => r0.*1 = cols) t ->
  Forall (fun r0 : row => r0.*1 = cols) (upsert_rows pk upd r t).
Proof.
  intros Hr. induction 1 as [|r0 t H0 Ht IH]; cbn.
  - constructor; [exact Hr | constructor].
  - destruct (bool_decide _).
    + constructor; [rewrite on_duplicate_names; exact H0 | exact Ht].
    + constructor; [exact H0 | exact IH].
Qed.
(* ------------------------------------------------------------------ *)
(** ** Statements and typed upserts *)

Lemma execute_run st params w :
  execute st params w =
  match stored st params with
  | inr r => (Ok tt, committed st r w)
  | inl e => (Raise e, w)
  end.
Proof.
  unfold execute, stored, committed.
  destruct (all_params params) as [vals|]; [|reflexivity].
  destruct (stored_row _ _); reflexivity.
Qed.

Lemma int_id_run p w :
  int_id p w = (match id_of p with inr z => Ok z | inl e => Raise e end, w).
Proof.
  unfold int_id, id_of, bind. destruct (item p "id") as [e|v]; cbn; [reflexivity|].
  destruct (py_int v); reflexivity.
Qed.

Lemma upsert_unfold py e p :
  upsert py e p =
  bind (execute (entity_stmt e) (entity_params py e p))
    (fun _ => bind (int_id p)
       (fun i => upsert_raw py (entity_resource e) i (entity_updated e p) p)).
Proof. destruct e; reflexivity. Qed.

(** What a typed upsert does, case by case. *)
Lemma upsert_run py e p w :
  upsert py e p w =
  match stored (entity_stmt e) (entity_params py e p) with
  | inl e1 => (Raise e1, w)
  | inr r =>
      match id_of p with
      | inl e2 => (Raise e2, committed (entity_stmt e) r w)
      | inr i =>
          match stored raw_snapshots_stmt
                  (raw_params py (entity_resource e) i (entity_updated e p) p) with
          | inl e3 => (Raise e3, committed (entity_stmt e) r w)
          | inr rr =>
              (Ok tt, committed raw_snapshots_stmt rr (committed (entity_stmt e) r w))
          end
      end
  end.
Proof.
  rewrite upsert_unfold. unfold bind at 1. rewrite execute_run.
  destruct (stored (entity_stmt e) _) as [e1|r]; [reflexivity|].
  unfold bind. rewrite int_id_run.
  destruct (id_of p) as [e2|i]; [reflexivity|].
  unfold upsert_raw. rewrite execute_run.
  destruct (stored raw_snapshots_stmt _); reflexivity.
Qed.

Lemma all_params_length ps vals : all_params ps = Some vals -> length vals = length ps.
Proof.
  revert vals. induction ps as [|p ps IH]; cbn; intros vals.
  - intros [= <-]. reflexivity.
  - destruct p as [v|]; [|discriminate].
    destruct (all_params ps) as [vs|]; [|discriminate].
    intros [= <-]. cbn. f_equal. auto.
Qed.

Lemma stored_row_names types (r r' : row) :
  stored_row types r = Some r' -> r'.*1 = r.*1.
Proof.
  revert r'. induction r as [|[c v] r IH]; cbn; intros r'.
  - intros [= <-]. reflexivity.
  - destruct (stored_row types r) as [s'|]; [|discriminate].
    destruct (lookup_key_ty types c) as [ty|].
    + destruct (store_key ty v); [|discriminate].
      intros [= <-]. cbn. f_equal. auto.
    + intros [= <-]. cbn. f_equal. auto.
Qed.

Lemma stored_names st ps r :
  stored st ps = inr r -> length ps = length (st_cols st) -> r.*1 = st_cols st.
Proof.
  unfold stored. destruct (all_params ps) as [vals|] eqn:Hv; [|discriminate].
  destruct (stored_row _ _) as [r'|] eqn:Hr; [|discriminate].
  intros [= <-] Hlen. rewrite (stored_row_names _ _ _ Hr).
  apply fst_zip. rewrite (all_params_length _ _ Hv). lia.
Qed.

Lemma entity_params_length py e p :
  length (entity_params py e p) = length (st_cols (entity_stmt e)).
Proof. destruct e; reflexivity. Qed.

Lemma statements_ok : forallb stmt_ok statements = true.
Proof. vm_compute. reflexivity. Qed.

Lemma stmt_ok_in st : st ∈ statements -> stmt_ok st = true.
Proof.
  intros Hin. pose proof statements_ok as H. rewrite forallb_forall in H.
  apply H. apply list_elem_of_In. exact Hin.
Qed.

Lemma stmt_ok_NoDup st : stmt_ok st = true -> NoDup (st_cols st).
Proof.
  unfold stmt_ok. intros H. apply andb_true_iff in H as [H _].
  apply bool_decide_eq_true in H. exact H.
Qed.

Lemma stmt_ok_covers st c :
  stmt_ok st = true -> c ∈ st_cols st -> c ∈ st_pk st \/ c ∈ st_upd st.
Proof.
  unfold stmt_ok. intros H Hc. apply andb_true_iff in H as [_ H].
  rewrite forallb_forall in H. apply list_elem_of_In in Hc.
  specialize (H c Hc). apply orb_true_iff in H as [H|H];
    apply bool_decide_eq_true in H; auto.
Qed.

Lemma entity_stmt_in e : entity_stmt e ∈ statements.
Proof. destruct e; unfold statements; cbn; set_solver. Qed.

Lemma raw_stmt_in : raw_snapshots_stmt ∈ statements.
Proof. unfold statements. set_solver. Qed.

Lemma statements_by_table st1 st2 :
  st1 ∈ statements -> st2 ∈ statements -> st_table st1 = st_table st2 -> st1 = st2.
Proof.
  intros H1 H2. unfold statements in *.
  repeat (apply elem_of_cons in H1 as [->|H1]); [..|inversion H1];
    repeat (apply elem_of_cons in H2 as [->|H2]); try (inversion H2; fail);
    cbn; intros Heq; first [reflexivity | discriminate Heq].
Qed.

Lemma entity_table_not_raw e : st_table (entity_stmt e) <> "raw_snapshots".
Proof. destruct e; discriminate. Qed.

Lemma iod_same tbl pk upd (r : row) (d : database) :
  insert_on_duplicate tbl pk upd r d !!! tbl = upsert_rows pk upd r (d !!! tbl).
Proof. unfold insert_on_duplicate. apply lookup_total_insert_eq. Qed.

Lemma iod_other tbl pk upd (r : row) (d : database) tbl' :
  tbl' <> tbl -> insert_on_duplicate tbl pk upd r d !!! tbl' = d !!! tbl'.
Proof. intros H. unfold insert_on_duplicate. apply lookup_total_insert_ne. congruence. Qed.

Lemma iod_idem tbl pk upd (r : row) (d : database) :
  NoDup r.*1 ->
  insert_on_duplicate tbl pk upd r (insert_on_duplicate tbl pk upd r d)
  = insert_on_duplicate tbl pk upd r d.
Proof.
  intros Hnd. unfold insert_on_duplicate at 1.
  rewrite iod_same, upsert_rows_idem by exact Hnd.
  unfold insert_on_duplicate. apply insert_insert_eq.
Qed.

Lemma iod_comm t1 pk1 upd1 (r1 : row) t2 pk2 upd2 (r2 : row) (d : database) :
  t1 <> t2 ->
  insert_on_duplicate t1 pk1 upd1 r1 (insert_on_duplicate t2 pk2 upd2 r2 d)
  = insert_on_duplicate t2 pk2 upd2 r2 (insert_on_duplicate t1 pk1 upd1 r1 d).
Proof.
  intros Hne. unfold insert_on_duplicate at 1 3.
  rewrite !iod_other by congruence.
  unfold insert_on_duplicate. apply insert_insert_ne. exact Hne.
Qed.

Lemma filter_none {A} (f : A -> bool) (l : list A) :
  (forall x, x ∈ l -> f x = false) -> List.filter f l = [].
Proof.
  induction l as [|x l IH]; cbn; intros H; [reflexivity|].
  rewrite (H x) by left. apply IH. intros y Hy. apply H. right. exact Hy.
Qed.

Lemma rows_with_key_upsert pk upd (r : row) (t : table) :
  NoDup r.*1 ->
  (forall c, c ∈ r.*1 -> c ∈ pk \/ c ∈ upd) ->
  NoDup (map (key_of pk) t) ->
  Forall (fun r0 : row => r0.*1 = r.*1) t ->
  rows_with_key pk (key_of pk r) (upsert_rows pk upd r t) = [r].
Proof.
  intros Hnd Hcov Hkeys Hnames. unfold rows_with_key.
  induction t as [|r0 t IH]; cbn.
  - rewrite bool_decide_eq_true_2 by reflexivity. reflexivity.
  - apply NoDup_cons in Hkeys as [Hr0 Hkeys].
    apply Forall_cons in Hnames as [Hn0 Hnames].
    destruct (bool_decide (key_of pk r0 = key_of pk r)) eqn:Hk; cbn.
    + apply bool_decide_eq_true in Hk.
      rewrite (on_duplicate_overwrites pk upd r r0 Hnd Hn0 Hcov Hk).
      rewrite bool_decide_eq_true_2 by reflexivity. f_equal.
      apply filter_none. intros r1 Hr1. apply bool_decide_eq_false_2.
      intros Heq. apply Hr0. rewrite Hk, <- Heq.
      apply list_elem_of_In, in_map, list_elem_of_In. exact Hr1.
    + rewrite Hk. apply IH; assumption.
Qed.

(** The store after a typed upsert, as a function of the store before. *)
Lemma upsert_db py e p w :
  db (upsert py e p w).2 =
  match stored (entity_stmt e) (entity_params py e p) with
  | inl _ => db w
  | inr r =>
      let d1 := insert_on_duplicate (st_table (entity_stmt e)) (st_pk (entity_stmt e))
                  (st_upd (entity_stmt e)) r (db w) in
      match id_of p with
      | inl _ => d1
      | inr i =>
          match stored raw_snapshots_stmt
                  (raw_params py (entity_resource e) i (entity_updated e p) p) with
          | inl _ => d1
          | inr rr =>
              insert_on_duplicate "raw_snapshots" ["resource"; "entity_id"]
                ["updated_at"; "payload_json"] rr d1
          end
      end
  end.
Proof.
  rewrite upsert_run.
  destruct (stored (entity_stmt e) _) as [e1|r]; [reflexivity|].
  destruct (id_of p) as [e2|i]; [reflexivity|].
  destruct (stored raw_snapshots_stmt _); reflexivity.
Qed.

Lemma upsert_outcome py e p w w0 :
  (upsert py e p w).1 = (upsert py e p w0).1.
Proof.
  rewrite !upsert_run.
  destruct (stored (entity_stmt e) _) as [e1|r]; [reflexivity|].
  destruct (id_of p) as [e2|i]; [reflexivity|].
  destruct (stored raw_snapshots_stmt _); reflexivity.
Qed.

Lemma table_wf_upsert st (r : row) (t : table) :
  r.*1 = st_cols st -> table_wf st t ->
  table_wf st (upsert_rows (st_pk st) (st_upd st) r t).
Proof.
  intros Hr [Hk Hn]. split.
  - apply upsert_rows_NoDup. exact Hk.
  - apply upsert_rows_names; assumption.
Qed.

Lemma db_wf_insert st (r : row) (d : database) :
  st ∈ statements -> r.*1 = st_cols st -> db_wf d ->
  db_wf (insert_on_duplicate (st_table st) (st_pk st) (st_upd st) r d).
Proof.
  intros Hst Hr Hwf. unfold db_wf in *. rewrite Forall_forall in *.
  intros st' Hst'. destruct (decide (st_table st' = st_table st)) as [Heq|Hne].
  - assert (st' = st) as -> by (apply statements_by_table; assumption).
    rewrite iod_same. apply table_wf_upsert; [exact Hr | apply Hwf; exact Hst].
  - rewrite iod_other by exact Hne. apply Hwf. exact Hst'.
Qed.

Lemma execute_wf st ps w :
  st ∈ statements -> length ps = length (st_cols st) ->
  db_wf (db w) -> db_wf (db (execute st ps w).2).
Proof.
  intros Hst Hlen Hwf. rewrite execute_run.
  destruct (stored st ps) as [e|r] eqn:Hs; [exact Hwf|].
  cbn. apply db_wf_insert; [exact Hst | eapply stored_names; eassumption | exact Hwf].
Qed.

Lemma upsert_wf py e p w : db_wf (db w) -> db_wf (db (upsert py e p w).2).
Proof.
  intros Hwf. rewrite upsert_db.
  destruct (stored (entity_stmt e) _) as [e1|r] eqn:Hs; [exact Hwf|].
  assert (Hwf1 : db_wf (insert_on_duplicate (st_table (entity_stmt e))
                          (st_pk (entity_stmt e)) (st_upd (entity_stmt e)) r (db w))).
  { apply db_wf_insert; [apply entity_stmt_in| |exact Hwf].
    eapply stored_names; [exact Hs | apply entity_params_length]. }
  cbv zeta. destruct (id_of p) as [e2|i]; [exact Hwf1|].
  destruct (stored raw_snapshots_stmt _) as [e3|rr] eqn:Hs'; [exact Hwf1|].
  apply (db_wf_insert raw_snapshots_stmt); [apply raw_stmt_in| |exact Hwf1].
  eapply stored_names; [exact Hs' | reflexivity].
Qed.

(** C3. For every entity type and payload: applying the typed upsert a
    second time gives the same outcome and leaves the whole store as the
    first application left it; a store whose tables have no duplicate
    primary key keeps that property; and when the upsert succeeds on such
    a store, the table holds exactly one row under the primary key, equal
    to the row built from the payload alone (every column overwritten),
    after one application as after two. *)
Theorem upsert_idempotent (py : pylib) (e : entity) (p : dict) (w : world) :
  let st := entity_stmt e in
  let w1 := (upsert py e p w).2 in
  let w2 := (upsert py e p w1).2 in
  db w2 = db w1
  /\ (upsert py e p w1).1 = (upsert py e p w).1
  /\ (db_wf (db w) -> db_wf (db w1))
  /\ (db_wf (db w) -> (upsert py e p w).1 = Ok tt ->
      exists r, stored st (entity_params py e p) = inr r
        /\ rows_with_key (st_pk st) (key_of (st_pk st) r) (db w1 !!! st_table st) = [r]
        /\ rows_with_key (st_pk st) (key_of (st_pk st) r) (db w2 !!! st_table st) = [r]).
Proof.
  cbv zeta.
  assert (Hidem : db (upsert py e p (upsert py e p w).2).2 = db (upsert py e p w).2).
  { rewrite (upsert_db py e p (upsert py e p w).2), (upsert_db py e p w).
    destruct (stored (entity_stmt e) _) as [e1|r] eqn:Hs; [reflexivity|].
    assert (Hnd : NoDup r.*1).
    { rewrite (stored_names _ _ _ Hs (entity_params_length py e p)).
      apply stmt_ok_NoDup, stmt_ok_in, entity_stmt_in. }
    cbv zeta. destruct (id_of p) as [e2|i]; [apply iod_idem; exact Hnd|].
    destruct (stored raw_snapshots_stmt _) as [e3|rr] eqn:Hs';
      [apply iod_idem; exact Hnd|].
    assert (Hnd' : NoDup rr.*1).
    { rewrite (stored_names _ _ _ Hs' eq_refl).
      apply stmt_ok_NoDup, stmt_ok_in, raw_stmt_in. }
    rewrite (iod_comm (st_table (entity_stmt e)) _ _ r "raw_snapshots")
      by apply entity_table_not_raw.
    rewrite (iod_idem "raw_snapshots" _ _ rr) by exact Hnd'.
    rewrite (iod_idem (st_table (entity_stmt e)) _ _ r) by exact Hnd.
    reflexivity. }
  split; [exact Hidem|]. split; [apply upsert_outcome|].
  split; [apply upsert_wf|].
  intros Hwf Hok. rewrite Hidem.
  rewrite upsert_run in Hok. rewrite (upsert_db py e p w).
  destruct (stored (entity_stmt e) _) as [e1|r] eqn:Hs; [discriminate|].
  exists r. split; [reflexivity|].
  assert (Hn : r.*1 = st_cols (entity_stmt e))
    by (apply (stored_names _ _ _ Hs (entity_params_length py e p))).
  assert (Hrow : rows_with_key (st_pk (entity_stmt e)) (key_of (st_pk (entity_stmt e)) r)
            (insert_on_duplicate (st_table (entity_stmt e)) (st_pk (entity_stmt e))
               (st_upd (entity_stmt e)) r (db w) !!! st_table (entity_stmt e)) = [r]).
  { rewrite iod_same.
    pose proof (stmt_ok_in _ (entity_stmt_in e)) as Hok'.
    unfold db_wf in Hwf. rewrite Forall_forall in Hwf.
    destruct (Hwf _ (entity_stmt_in e)) as [Hk Hcols].
    apply rows_with_key_upsert.
    - rewrite Hn. apply stmt_ok_NoDup. exact Hok'.
    - intros c Hc. rewrite Hn in Hc. apply stmt_ok_covers; assumption.
    - exact Hk.
    - rewrite Hn. exact Hcols. }
  cbv zeta. destruct (id_of p) as [e2|i]; [discriminate|].
  destruct (stored raw_snapshots_stmt _) as [e3|rr]; [discriminate|].
  rewrite iod_other by apply entity_table_not_raw. auto.
Qed.


Lemma db_wf_empty : db_wf ∅.
Proof.
  unfold db_wf. apply Forall_forall. intros st _.
  rewrite lookup_total_empty. split; constructor.
Qed.

Lemma upsert_idempotent_witness :
  let p := [("id", JNum 7); ("name", JStr "Ann")] in
  exists r, stored users_stmt (user_params Demo.py p) = inr r
    /\ rows_with_key ["id"] (key_of ["id"] r)
         (db (upsert Demo.py User p Demo.world0).2 !!! "users") = [r]
    /\ rows_with_key ["id"] (key_of ["id"] r)
         (db (upsert Demo.py User p (upsert Demo.py User p Demo.world0).2).2 !!! "users")
       = [r].
Proof.
  apply (proj2 (proj2 (proj2 (upsert_idempotent Demo.py User
           [("id", JNum 7); ("name", JStr "Ann")] Demo.world0)))).
  - apply db_wf_empty.
  - reflexivity.
Defined.

(* ------------------------------------------------------------------ *)
(** ** Typed rows and their raw snapshots *)

Lemma strict_int_int s z : strict_int s = Some z -> int_of_string s = Some z.
Proof. unfold strict_int. destruct (forallb _ _); [auto | discriminate]. Qed.

(** A value the [BIGINT] key column accepts is one [int] converts, to
    the same integer. *)
Lemma bigint_key_int (d : dict) v v' :
  to_param (get d "id") = Some v -> store_key BIGINT v = Some v' ->
  exists z, v' = SInt z /\ in_bigint z = true /\ id_of d = inr z.
Proof.
  unfold get, id_of, item. destruct (lookup_key d "id") as [j|]; cbn.
  - destruct j as [|b|z|s|l|o]; cbn; intros Hv Hk; inversion Hv; subst; cbn in Hk;
      try discriminate.
    + revert Hk. destruct (in_bigint _) eqn:Hr; [intros [= <-] | intros [=]].
      exists (if b then 1 else 0). auto.
    + revert Hk. destruct (in_bigint z) eqn:Hr; [intros [= <-] | intros [=]]. eauto.
    + revert Hk. destruct (strict_int s) as [z|] eqn:Hs; [|intros [=]].
      destruct (in_bigint z) eqn:Hr; [intros [= <-] | intros [=]].
      exists z. rewrite (strict_int_int _ _ Hs). auto.
  - intros Hv Hk; inversion Hv; subst; discriminate.
Qed.

Lemma stored_row_id v (rest : row) :
  stored_row id_bigint (("id", v) :: rest) =
  match stored_row id_bigint rest with
  | None => None
  | Some s' =>
      match store_key BIGINT v with
      | Some v' => Some (("id", v') :: s')
      | None => None
      end
  end.
Proof. reflexivity. Qed.

Lemma stored_head_key st v ps r :
  st_types st = id_bigint ->
  (exists cs, st_cols st = "id" :: cs) ->
  stored st (Some v :: ps) = inr r ->
  exists v', store_key BIGINT v = Some v' /\ cell r "id" = v'.
Proof.
  intros Hty [cs Hcs]. unfold stored. rewrite Hty, Hcs. cbn [all_params].
  destruct (all_params ps) as [vals|]; [|discriminate].
  change (zip ("id" :: cs) (v :: vals)) with (("id", v) :: zip cs vals).
  rewrite stored_row_id.
  destruct (stored_row id_bigint (zip cs vals)) as [s'|]; [|discriminate].
  destruct (store_key BIGINT v) as [v'|]; [|discriminate].
  intros [= <-]. exists v'. auto.
Qed.

(** For the entity types keyed by an integer id, a typed row is never
    stored without its raw snapshot: if the typed statement goes through,
    so do the conversion of the id and the raw statement, and the raw row
    is filed under the resource name and the same id. *)
Lemma upsert_paired py e p w r :
  e <> TriggerCategory ->
  stored (entity_stmt e) (entity_params py e p) = inr r ->
  exists z rr,
    cell r "id" = SInt z
    /\ id_of p = inr z
    /\ cell rr "resource" = SStr (entity_resource e)
    /\ cell rr "entity_id" = SInt z
    /\ cell rr "payload_json" = SStr (py_dumps_unicode py (JObj p))
    /\ upsert py e p w = (Ok tt, committed raw_snapshots_stmt rr (committed (entity_stmt e) r w))
    /\ trace (upsert py e p w).2
       = (trace w ++ [EvUpsert (st_table (entity_stmt e)) r; EvUpsert "raw_snapshots" rr])%list.
Proof.
  intros Hne Hs.
  assert (Hhead : exists v ps, to_param (get p "id") = Some v
            /\ entity_params py e p = Some v :: ps).
  { destruct (to_param (get p "id")) as [v|] eqn:Hv.
    - exists v.
      destruct e; try congruence; cbn [entity_params];
        unfold user_params, org_params, ticket_params, comment_params,
          attachment_params, view_params, trigger_params, macro_params;
        rewrite Hv; eauto.
    - exfalso. unfold stored in Hs.
      destruct e; try congruence; cbn [entity_params] in Hs;
        unfold user_params, org_params, ticket_params, comment_params,
          attachment_params, view_params, trigger_params, macro_params in Hs;
        rewrite Hv in Hs; discriminate Hs. }
  destruct Hhead as (v & ps & Hv & Hps). rewrite Hps in Hs.
  destruct (stored_head_key (entity_stmt e) v ps r) as (v' & Hk & Hcell);
    [destruct e; try congruence; reflexivity
    |destruct e; try congruence; eexists; reflexivity
    |exact Hs|].
  destruct (bigint_key_int p v v' Hv Hk) as (z & -> & Hrange & Hid).
  rewrite upsert_run, Hps, Hs, Hid.
  assert (Hraw : stored raw_snapshots_stmt
            (raw_params py (entity_resource e) z (entity_updated e p) p)
          = inr [("resource", SStr (entity_resource e)); ("entity_id", SInt z);
                 ("updated_at", parse_dt py (entity_updated e p));
                 ("payload_json", SStr (py_dumps_unicode py (JObj p)))]).
  { unfold stored, raw_params. cbn. rewrite Hrange.
    destruct e; try congruence; reflexivity. }
  rewrite Hraw. eexists z, _. repeat split; try reflexivity; try exact Hcell;
    try exact Hid.
  cbn. rewrite <- app_assoc. reflexivity.
Qed.

(** C7. A trigger category whose id is the string "abc": the typed row is
    stored under the key "abc" and committed, then [int(c["id"])] raises
    [ValueError]; no raw snapshot is written for it. *)
Theorem trigger_category_unpaired :
  let c := [("id", JStr "abc"); ("name", JStr "Escalations")] in
  let typed := [("id", SStr "abc"); ("name", SStr "Escalations"); ("position", SNull);
                ("created_at", SNull); ("updated_at", SNull)] in
  upsert_trigger_category Demo.py c Demo.world0
  = (Raise ValueError, committed trigger_categories_stmt typed Demo.world0)
  /\ trace (upsert_trigger_category Demo.py c Demo.world0).2
     = [EvUpsert "trigger_categories" typed]
  /\ db (upsert_trigger_category Demo.py c Demo.world0).2 !!! "trigger_categories"
     = [typed]
  /\ db (upsert_trigger_category Demo.py c Demo.world0).2 !!! "raw_snapshots" = [].
Proof. cbv zeta. repeat split; reflexivity. Qed.

(* ------------------------------------------------------------------ *)
(** ** Effects of the fetcher and of the download *)

#[global] Instance same_preorder {A} (f : world -> A) : PreOrder (same f).
Proof.
  split.
  - intros w. reflexivity.
  - intros w1 w2 w3 H1 H2. unfold same in *. congruence.
Qed.

Section Effects.

Variable cfg : config.
Variable remote : nat -> request -> option response.
Variable py : pylib.

Context (R : world -> world -> Prop) `{!PreOrder R}.

(** Relations that the bookkeeping of requests and sleeps respects. *)
Hypothesis R_requested : forall rq w, R w (requested rq w).
Hypothesis R_sleep : forall d w, R w (log (EvSleep d) w).

Lemma http_get_preserves rq : preserves R (http_get remote rq).
Proof. intros w. rewrite http_get_run. apply R_requested. Qed.

Lemma sleep_preserves d : preserves R (sleep d).
Proof.
  unfold sleep. destruct d as [q|[]|]; cbn beta iota; try papply preserves_raise.
  destruct (Qle_bool 0 q); [|papply preserves_raise].
  papply preserves_modify. intros w. apply R_sleep.
Qed.

Lemma sleep_for_preserves resp b : preserves R (sleep_for py resp b).
Proof. unfold sleep_for. repeat preserves_step. Qed.

Lemma retry_loop_preserves n b rq : preserves R (retry_loop remote py n b rq).
Proof.
  revert b. induction n as [|n IH]; intros b; cbn [retry_loop].
  - papply preserves_raise.
  - papply preserves_bind; [papply http_get_preserves|]. intros resp.
    destruct (status_code resp =? 200); [repeat preserves_step|].
    destruct (bool_decide _); [|papply preserves_raise].
    papply preserves_bind; [papply sleep_for_preserves|]. intros d.
    papply preserves_bind; [papply sleep_preserves|]. intros _. apply IH.
Qed.

Lemma get_with_retry_preserves url params stream :
  preserves R (get_with_retry remote py url params stream).
Proof. papply retry_loop_preserves. Qed.

Lemma get_page_preserves url params : preserves R (get_page remote py url params).
Proof.
  unfold get_page. papply preserves_bind; [papply preserves_lift_sum|]. intros u.
  papply preserves_bind; [papply get_with_retry_preserves|]. intros r.
  destruct r; [papply preserves_ret | papply preserves_raise].
Qed.

(** Relations that, besides, writing a file and making a directory
    respect. *)
Hypothesis R_files : forall fs w, R w (with_files fs w).
Hypothesis R_write : forall p c w, R w (log (EvWrite p c) w).
Hypothesis R_dirs : forall ds w, R w (with_dirs ds w).

Lemma write_chunks_preserves target chunks : preserves R (write_chunks target chunks).
Proof.
  induction chunks as [|[c|] rest IH]; cbn [write_chunks].
  - papply preserves_ret.
  - papply preserves_bind; [|intros _; exact IH].
    destruct (negb _); [|papply preserves_ret].
    papply preserves_modify. intros w.
    etransitivity; [apply R_files | apply R_write].
  - papply preserves_raise.
Qed.

Lemma open_wb_preserves target : preserves R (open_wb py target).
Proof.
  intros w. unfold open_wb. destruct (py_open_fails py target); [reflexivity|].
  apply R_files.
Qed.

Lemma probe_preserves target : preserves R (probe py target).
Proof.
  intros w. unfold probe. destruct (files w !! target); [reflexivity|].
  destruct (py_stat_fails py target); reflexivity.
Qed.

Lemma ensure_dir_preserves p : preserves R (ensure_dir py p).
Proof.
  intros w. unfold ensure_dir. destruct (_ || _); [apply R_dirs | reflexivity].
Qed.

Lemma transfer_preserves url target : preserves R (transfer remote py url target).
Proof.
  unfold transfer. papply preserves_bind; [papply preserves_lift_sum|]. intros u.
  papply preserves_bind; [papply get_with_retry_preserves|]. intros r.
  destruct r as [j|resp]; [papply preserves_raise|].
  papply preserves_bind; [apply open_wb_preserves|]. intros _.
  papply preserves_bind; [papply write_chunks_preserves|]. intros _.
  papply preserves_ret.
Qed.

Lemma download_attachment_preserves tid cid att :
  preserves R (download_attachment cfg remote py tid cid att).
Proof.
  unfold download_attachment.
  destruct (negb (DOWNLOAD_ATTACHMENTS cfg)); [papply preserves_ret|].
  destruct (negb (truthy _)); [papply preserves_ret|].
  papply preserves_bind; [apply ensure_dir_preserves|]. intros _.
  papply preserves_bind; [papply preserves_lift_sum|]. intros target.
  papply preserves_bind; [apply probe_preserves|]. intros present.
  destruct present; [papply preserves_ret|].
  papply preserves_try; [papply transfer_preserves | intros e; papply preserves_ret].
Qed.

End Effects.



(* ------------------------------------------------------------------ *)
(** ** The attachment download *)

Lemma prefix_append s t : String.prefix s (s ++ t) = true.
Proof.
  induction s as [|c s IH]; [destruct t; reflexivity|].
  change (String c s ++ t) with (String c (s ++ t)). cbn [String.prefix].
  destruct (ascii_dec c c); [exact IH | contradiction].
Qed.

Lemma append_assoc s t u : (s ++ t) ++ u = s ++ (t ++ u).
Proof.
  induction s as [|c s IH]; [reflexivity|].
  change (String c ((s ++ t) ++ u) = String c (s ++ (t ++ u))). f_equal. exact IH.
Qed.

(** Where a file is, the directory above it is. *)
Lemma dir_exists_file p rest w content :
  files w !! (p ++ "/" ++ rest) = Some content -> dir_exists p w = true.
Proof.
  intros H. unfold dir_exists. apply orb_true_iff. right.
  apply existsb_exists. exists (p ++ "/" ++ rest). split.
  - apply list_elem_of_In, elem_of_elements, elem_of_dom. eauto.
  - rewrite <- append_assoc. apply prefix_append.
Qed.

Lemma attachment_target_under cfg py tid att target :
  attachment_target cfg py tid att = inr target ->
  exists rest, target = ticket_dir cfg tid ++ "/" ++ rest.
Proof.
  unfold attachment_target. destruct (safe_filename _) as [e|fname]; [discriminate|].
  intros [= <-]. eexists. unfold target_path, ticket_dir.
  rewrite !append_assoc. reflexivity.
Qed.

Lemma nonempty_file_some fs target :
  nonempty_file fs target = true -> exists content, fs !! target = Some content.
Proof. unfold nonempty_file. destruct (fs !! target); [eauto | discriminate]. Qed.

(** The directory of the ticket can be made: it is there, or the
    file system does not refuse. *)
Lemma ensure_dir_run py p w :
  ensure_dir py p w =
  if dir_exists p w || negb (py_mkdir_fails py p)
  then (Ok tt, with_dirs ({[p]} ∪ dirs w) w) else (Raise OSError, w).
Proof. reflexivity. Qed.

Lemma probe_run py target w :
  (files w !! target = None -> py_stat_fails py target = false) ->
  probe py target w = (Ok (nonempty_file (files w) target), w).
Proof.
  intros H. unfold probe, nonempty_file.
  destruct (files w !! target); [reflexivity|]. rewrite H by reflexivity. reflexivity.
Qed.

Lemma download_enabled cfg remote py tid cid att w target :
  DOWNLOAD_ATTACHMENTS cfg = true ->
  truthy (get att "content_url") = true ->
  attachment_target cfg py tid att = inr target ->
  dir_exists (ticket_dir cfg tid) w || negb (py_mkdir_fails py (ticket_dir cfg tid))
    = true ->
  (files w !! target = None -> py_stat_fails py target = false) ->
  download_attachment cfg remote py tid cid att w =
  if nonempty_file (files w) target
  then (Ok (Some (py_resolve py target)), with_dirs ({[ticket_dir cfg tid]} ∪ dirs w) w)
  else try_except (transfer remote py (get att "content_url") target) (fun _ => ret None)
         (with_dirs ({[ticket_dir cfg tid]} ∪ dirs w) w).
Proof.
  intros Hd Hu Ht Hm Hs. unfold download_attachment. rewrite Hd, Hu. cbn [negb].
  fold (ticket_dir cfg tid).
  assert (He : ensure_dir py (ticket_dir cfg tid) w
               = (Ok tt, with_dirs ({[ticket_dir cfg tid]} ∪ dirs w) w))
    by (rewrite ensure_dir_run, Hm; reflexivity).
  rewrite (bind_run _ _ _ _ _ He), Ht. cbn [lift_sum].
  rewrite (bind_run _ _ _ target _) by reflexivity.
  rewrite (bind_run _ _ _ _ _
             (probe_run py target (with_dirs ({[ticket_dir cfg tid]} ∪ dirs w) w) Hs)).
  cbn [files with_dirs]. destruct (nonempty_file (files w) target); reflexivity.
Qed.

(** With a non-empty file at the target path nothing can be refused:
    the directory is there and so is the file. *)
Lemma download_present cfg remote py tid cid att w target :
  DOWNLOAD_ATTACHMENTS cfg = true ->
  truthy (get att "content_url") = true ->
  attachment_target cfg py tid att = inr target ->
  nonempty_file (files w) target = true ->
  download_attachment cfg remote py tid cid att w
  = (Ok (Some (py_resolve py target)), with_dirs ({[ticket_dir cfg tid]} ∪ dirs w) w).
Proof.
  intros Hd Hu Ht Hf.
  destruct (nonempty_file_some _ _ Hf) as [content Hc].
  destruct (attachment_target_under _ _ _ _ _ Ht) as [rest Hr].
  rewrite (download_enabled cfg remote py tid cid att w target Hd Hu Ht), Hf;
    [reflexivity| |].
  - apply orb_true_iff. left. rewrite Hr in Hc. eapply dir_exists_file. exact Hc.
  - rewrite Hc. discriminate.
Qed.

Lemma download_disabled cfg remote py tid cid att w :
  DOWNLOAD_ATTACHMENTS cfg = false \/ truthy (get att "content_url") = false ->
  download_attachment cfg remote py tid cid att w = (Ok None, w).
Proof.
  intros [H|H]; unfold download_attachment; rewrite H; cbn [negb]; [reflexivity|].
  destruct (negb (DOWNLOAD_ATTACHMENTS cfg)); reflexivity.
Qed.

Lemma transfer_Ok remote py url target w r w' :
  transfer remote py url target w = (Ok r, w') -> r = Some (py_resolve py target).
Proof.
  unfold transfer. intros H.
  apply bind_Ok in H as (u & w1 & _ & H).
  apply bind_Ok in H as (f & w2 & _ & H).
  destruct f as [j|resp]; [discriminate H|].
  apply bind_Ok in H as ([] & w3 & _ & H).
  apply bind_Ok in H as ([] & w4 & _ & H).
  inversion H. reflexivity.
Qed.

(** A path is returned only when the download is enabled, the
    attachment has a content URL, and the path is the resolved target. *)
Lemma download_some cfg remote py tid cid att w p w' :
  download_attachment cfg remote py tid cid att w = (Ok (Some p), w') ->
  DOWNLOAD_ATTACHMENTS cfg = true
  /\ truthy (get att "content_url") = true
  /\ exists target, attachment_target cfg py tid att = inr target
       /\ p = py_resolve py target
       /\ dirs w' = {[ticket_dir cfg tid]} ∪ dirs w.
Proof.
  destruct (DOWNLOAD_ATTACHMENTS cfg) eqn:Hd;
    [|rewrite download_disabled by auto; discriminate].
  destruct (truthy (get att "content_url")) eqn:Hu;
    [|rewrite download_disabled by auto; discriminate].
  unfold download_attachment. rewrite Hd, Hu. cbn [negb]. fold (ticket_dir cfg tid).
  intros H. apply bind_Ok in H as ([] & w1 & He & H).
  assert (Hw1 : w1 = with_dirs ({[ticket_dir cfg tid]} ∪ dirs w) w).
  { rewrite ensure_dir_run in He. destruct (_ || _); congruence. }
  apply bind_Ok in H as (target & w2 & Ht & H).
  apply lift_sum_Ok in Ht as [Ht ->].
  apply bind_Ok in H as (present & w3 & Hp & H).
  assert (w3 = w1) as ->.
  { unfold probe in Hp. destruct (files w1 !! target); [congruence|].
    destruct (py_stat_fails py target); congruence. }
  split; [reflexivity|]. split; [reflexivity|]. exists target. split; [exact Ht|].
  destruct present.
  - injection H as <- <-. split; [reflexivity|]. rewrite Hw1. reflexivity.
  - unfold try_except in H.
    assert (Hdirs : preserves (same dirs)
              (transfer remote py (get att "content_url") target))
      by (papply transfer_preserves; intros; reflexivity).
    specialize (Hdirs w1). unfold same in Hdirs.
    destruct (transfer remote py _ target w1) as [[r|e|] w4] eqn:Htr;
      cbn [fst snd] in *.
    + apply transfer_Ok in Htr. injection H as Hr Hw'. split; [congruence|].
      subst w1 w4. cbn in Hdirs. congruence.
    + discriminate H.
    + discriminate H.
Qed.

Lemma with_dirs_id w : with_dirs (dirs w) w = w.
Proof. destruct w; reflexivity. Qed.

(** C9. With downloads disabled or no content URL the call returns
    nothing and leaves the world as it is. The target path is the
    attachment directory, the ticket id, and the attachment id joined to
    the sanitized file name by two underscores. When a non-empty file
    exists at the target path the call returns the resolved path without
    any request, write or store access; and a second call made after a
    call that returned a path, the file being non-empty, returns the same
    path and changes nothing. *)
Theorem download_idempotent (cfg : config) (remote : nat -> request -> option response)
    (py : pylib) (tid cid : Z) (att : dict) (w : world) :
  (DOWNLOAD_ATTACHMENTS cfg = false \/ truthy (get att "content_url") = false ->
   download_attachment cfg remote py tid cid att w = (Ok None, w))
  /\ (forall target, attachment_target cfg py tid att = inr target ->
      exists fname,
        safe_filename (py_or (get att "file_name")
                         (JStr ("attachment_" ++ py_str py (get att "id")))) = inr fname
        /\ target = ATTACHMENTS_DIR cfg ++ "/" ++ pretty tid ++ "/"
                    ++ py_str py (get att "id") ++ "__" ++ fname)
  /\ (forall target,
      DOWNLOAD_ATTACHMENTS cfg = true -> truthy (get att "content_url") = true ->
      attachment_target cfg py tid att = inr target ->
      nonempty_file (files w) target = true ->
      exists w', download_attachment cfg remote py tid cid att w
                 = (Ok (Some (py_resolve py target)), w')
        /\ nreq w' = nreq w /\ trace w' = trace w /\ files w' = files w /\ db w' = db w)
  /\ (forall p w1 target,
      download_attachment cfg remote py tid cid att w = (Ok (Some p), w1) ->
      attachment_target cfg py tid att = inr target ->
      nonempty_file (files w1) target = true ->
      download_attachment cfg remote py tid cid att w1 = (Ok (Some p), w1)).
Proof.
  split; [apply download_disabled|]. split; [|split].
  - intros target. unfold attachment_target.
    destruct (safe_filename _) as [e|fname]; [discriminate|].
    intros [= <-]. exists fname. split; reflexivity.
  - intros target Hd Hu Ht Hf.
    rewrite (download_present _ _ _ _ _ _ _ target Hd Hu Ht Hf).
    eexists. split; [reflexivity|]. repeat split.
  - intros p w1 target H1 Ht Hf.
    apply download_some in H1 as (Hd & Hu & target' & Ht' & -> & Hdirs).
    assert (target' = target) as -> by congruence.
    rewrite (download_present _ _ _ _ _ _ _ target Hd Hu Ht Hf).
    assert (Hw : with_dirs ({[ticket_dir cfg tid]} ∪ dirs w1) w1 = w1).
    { rewrite Hdirs, (assoc_L (∪)), (idemp_L (∪)), <- Hdirs. apply with_dirs_id. }
    rewrite Hw. reflexivity.
Qed.

Lemma stored_row_cell_untyped types (r r' : row) c :
  stored_row types r = Some r' -> lookup_key_ty types c = None -> cell r' c = cell r c.
Proof.
  revert r'. induction r as [|[c0 v] r IH]; cbn [stored_row]; intros r'.
  - intros [= <-]. reflexivity.
  - destruct (stored_row types r) as [s'|]; [|discriminate].
    destruct (lookup_key_ty types c0) as [ty|] eqn:Hty.
    + destruct (store_key ty v) as [v'|]; [|discriminate].
      intros [= <-] Hc. rewrite !cell_cons.
      destruct (String.eqb_spec c0 c) as [->|Hne]; [congruence | auto].
    + intros [= <-] Hc. rewrite !cell_cons.
      destruct (String.eqb_spec c0 c); auto.
Qed.





Lemma bootstrap_start_floor_witness :
  no_checkpoint "users" Demo.world0
  /\ start_time_at (Demo.cfg false false) (clock Demo.world0) <= clock Demo.world0 - 120.
Proof.
  split; [reflexivity|].
  apply (proj1 (proj2 (proj2 (bootstrap_start_floor (Demo.cfg false false)
           "users" "cursor" inr Demo.world0 eq_refl)))).
Defined.

(** A first call downloads the file; the second returns the same path
    and leaves the world as the first call left it. *)
Lemma download_idempotent_witness :
  let remote := Demo.script [Demo.stream_reply [Some "%PDF"]] in
  let w1 := (download_attachment (Demo.cfg false false) remote Demo.py 42 1
               Demo.attachment Demo.world0).2 in
  download_attachment (Demo.cfg false false) remote Demo.py 42 1 Demo.attachment w1
  = (Ok (Some "/srv/./attachments/42/7__report_final.pdf"), w1).
Proof.
  cbv zeta.
  apply (proj2 (proj2 (proj2 (download_idempotent (Demo.cfg false false)
           (Demo.script [Demo.stream_reply [Some "%PDF"]]) Demo.py 42 1
           Demo.attachment Demo.world0)))
         _ _ "./attachments/42/7__report_final.pdf").
  - vm_compute. reflexivity.
  - vm_compute. reflexivity.
  - vm_compute. reflexivity.
Defined.


(** C8, counterexample. A whole run, downloads enabled: ticket 42 is
    closed and its one comment carries two attachments, the first with a
    [file_name] that is a number, the second well formed, and the server
    would answer every request. The run raises [TypeError] out of the
    download of the first attachment: no row is stored for either
    attachment, and the views, triggers, trigger categories and macros
    are never fetched. *)
Lemma bad_file_name_aborts_run :
  let bad := [("id", JNum 8); ("file_name", JNum 2024);
              ("content_url", JStr "https://acme.zendesk.com/attachments/8")] in
  let script :=
    [Demo.reply 200 (Some (JObj [("users", JArr []); ("end_of_stream", JBool true)]));
     Demo.reply 200 (Some (JObj [("organizations", JArr [])]));
     Demo.reply 200
       (Some (JObj [("tickets", JArr [Demo.ticket_closed]);
                    ("end_of_stream", JBool true)]));
     Demo.reply 200
       (Some (JObj [("comments",
                     JArr [JObj [("id", JNum 9); ("body", JStr "see files");
                                 ("attachments",
                                  JArr [JObj bad; JObj Demo.attachment])]])]));
     Demo.stream_reply [Some "%PDF"];
     Demo.reply 200 (Some (JObj [("views", JArr [])]));
     Demo.reply 200 (Some (JObj [("triggers", JArr [])]));
     Demo.reply 200 (Some (JObj [("trigger_categories", JArr [])]));
     Demo.reply 200 (Some (JObj [("macros", JArr [])]))] in
  let out := main (Demo.cfg false false) (Demo.script script) Demo.py 3 Demo.world0 in
  out.1 = Raise TypeError
  /\ db out.2 !!! "attachments" = []
  /\ length (db out.2 !!! "ticket_comments") = 1%nat
  /\ nreq out.2 = 4%nat.
Proof. vm_compute. repeat split. Qed.

(* ------------------------------------------------------------------ *)
(** ** Pages, records and checkpoints *)







Lemma for_records_preserves (R : world -> world -> Prop) `{!PreOrder R}
    page key (body : dict -> M unit) :
  (forall d, preserves R (body d)) -> preserves R (for_records page key body).
Proof.
  intros Hb. unfold for_records. repeat preserves_step. apply Hb.
Qed.



Lemma get_cursor_val_of resource w r s :
  select_first "sync_state" "resource" (SStr resource) (db w) = Some r ->
  cell r "cursor_token" = SStr s ->
  get_cursor_val resource w = (Ok (JStr s), w).
Proof.
  intros Hsel Hc. unfold get_cursor_val, bind, read. rewrite Hsel, Hc. reflexivity.
Qed.




(* ------------------------------------------------------------------ *)
(** ** Checkpoints of the time-based coordinators *)

Section EventsFeed.

Variable cfg : config.
Variable remote : nat -> request -> option response.
Variable py : pylib.

Lemma execute_keeps_sync_state st ps :
  st_table st <> "sync_state" -> preserves (same sync_state_of) (execute st ps).
Proof.
  intros Hne w. rewrite execute_run. destruct (stored st ps) as [e|r]; [reflexivity|].
  unfold same, sync_state_of, committed. cbn.
  rewrite iod_other by congruence. reflexivity.
Qed.

Lemma upsert_keeps_sync_state e u : preserves (same sync_state_of) (upsert py e u).
Proof.
  rewrite upsert_unfold.
  papply preserves_bind; [apply execute_keeps_sync_state; destruct e; discriminate|].
  intros _. papply preserves_bind; [unfold int_id; repeat preserves_step|].
  intros i. apply execute_keeps_sync_state. discriminate.
Qed.

Lemma attachment_step_keeps_sync_state tid cid a :
  preserves (same sync_state_of) (attachment_step cfg remote py tid cid a).
Proof.
  unfold attachment_step.
  papply preserves_bind; [papply preserves_lift_sum|]. intros att.
  papply preserves_bind;
    [papply download_attachment_preserves; intros; reflexivity|].
  intros lp. apply (upsert_keeps_sync_state (Attachment tid cid lp)).
Qed.

Lemma child_event_step_keeps_sync_state tid ce :
  preserves (same sync_state_of) (child_event_step cfg remote py tid ce).
Proof.
  unfold child_event_step.
  papply preserves_bind; [papply preserves_lift_sum|]. intros d.
  destruct (is_comment_event d); [|papply preserves_ret].
  papply preserves_bind; [papply preserves_lift_sum|]. intros ce_id.
  papply preserves_bind; [apply (upsert_keeps_sync_state (Comment tid))|]. intros _.
  papply preserves_bind; [papply preserves_lift_sum|]. intros l.
  papply preserves_for_each. intros a.
  papply preserves_bind; [papply preserves_lift_sum|]. intros i.
  papply preserves_bind; [papply preserves_lift_sum|]. intros cid.
  apply attachment_step_keeps_sync_state.
Qed.

Lemma event_step_keeps_sync_state ev :
  preserves (same sync_state_of) (event_step cfg remote py ev).
Proof.
  unfold event_step.
  papply preserves_bind; [papply preserves_lift_sum|]. intros tid.
  papply preserves_bind.
  - destruct (CLOSED_TICKETS_ONLY cfg); [|papply preserves_ret].
    papply preserves_bind; [papply get_page_preserves; intros; reflexivity|].
    intros r. repeat preserves_step.
  - intros [|]; [|papply preserves_ret].
    papply preserves_bind; [papply preserves_lift_sum|]. intros l.
    papply preserves_for_each. intros ce. apply child_event_step_keeps_sync_state.
Qed.

(** A page of the ticket-events feed that links to a next page: whatever
    [end_time] it carries, the next page is requested with the
    checkpoint table as it was before the page was fetched. *)
Lemma ticket_events_page_not_checkpointed n url params w p w0 wa :
  get_page remote py url params w = (Ok (JObj p), w0) ->
  for_records (JObj p) "ticket_events" (event_step cfg remote py) w0 = (Ok tt, wa) ->
  truthy (get p "next_page") = true ->
  ticket_events_pages cfg remote py (S n) url params w
  = ticket_events_pages cfg remote py n (get p "next_page") [] wa
  /\ sync_state_of wa = sync_state_of w.
Proof.
  intros Hget Hrec Hnext. split.
  - cbn [ticket_events_pages]. rewrite (bind_run _ _ _ _ _ Hget).
    rewrite (bind_run _ _ _ _ _ Hrec). cbn [as_dict lift_sum].
    rewrite (bind_run _ _ wa p wa) by reflexivity. rewrite Hnext. reflexivity.
  - assert (H1 : preserves (same sync_state_of) (get_page remote py url params))
      by (papply get_page_preserves; intros; reflexivity).
    assert (H2 : preserves (same sync_state_of)
                   (for_records (JObj p) "ticket_events" (event_step cfg remote py)))
      by (papply for_records_preserves; apply event_step_keeps_sync_state).
    specialize (H1 w). specialize (H2 w0). rewrite Hget in H1. rewrite Hrec in H2.
    unfold same in *. cbn in *. congruence.
Qed.

End EventsFeed.

(** C1. The ticket-events coordinator on a feed of two pages, the fetch
    of the second failing: the first page carries [end_time =
    1700000100] and is processed, the second page is requested, and no
    checkpoint has been written for [ticket_events]: the run ends with
    the error and an empty checkpoint table. On the same feed the
    organizations coordinator writes the checkpoint "1700000100" before
    it requests the second page. *)
Theorem ticket_events_checkpoint_lost :
  let cfg := Demo.cfg false false in
  let next_e := "https://acme.zendesk.com/api/v2/incremental/ticket_events.json?start_time=1700000100" in
  let next_o := "https://acme.zendesk.com/api/v2/incremental/organizations.json?start_time=1700000100" in
  let run_e := sync_ticket_events_for_comments cfg
                 (Demo.script [Demo.reply 200 (Some (JObj Demo.events_page1));
                               Demo.reply 404 None]) Demo.py 5 Demo.world0 in
  let run_o := sync_organizations cfg
                 (Demo.script [Demo.reply 200 (Some (JObj Demo.organizations_page1));
                               Demo.reply 404 None]) Demo.py 5 Demo.world0 in
  run_e.1 = Raise (GetFailed next_e 404 (DetailText ""))
  /\ trace run_e.2
     = [EvGet (page_request "https://acme.zendesk.com/api/v2/incremental/ticket_events.json"
                 [("start_time", JNum 1699913600); ("per_page", JNum 500);
                  ("include", JStr "comment_events")]);
        EvGet (page_request next_e [])]
  /\ sync_state_of run_e.2 = []
  /\ get_cursor_val "ticket_events" run_e.2 = (Ok JNull, run_e.2)
  /\ run_o.1 = Raise (GetFailed next_o 404 (DetailText ""))
  /\ fetches_and_checkpoints (trace run_o.2)
     = [EvGet (page_request "https://acme.zendesk.com/api/v2/incremental/organizations.json"
                 [("per_page", JNum 100); ("start_time", JNum 1699913600)]);
        EvUpsert "sync_state"
          [("resource", SStr "organizations"); ("cursor_token", SStr "1700000100");
           ("updated_at", SInt 1700000000)];
        EvGet (page_request next_o [])]
  /\ get_cursor_val "organizations" run_o.2 = (Ok (JStr "1700000100"), run_o.2).
Proof. cbv zeta. repeat split; vm_compute; reflexivity. Qed.

(* ------------------------------------------------------------------ *)
(** ** What the coordinators do besides deleting *)

#[global] Instance no_delete_preorder : PreOrder no_delete.
Proof.
  split.
  - intros w. exists []. rewrite app_nil_r. auto.
  - intros w1 w2 w3 (e1 & H1 & F1) (e2 & H2 & F2). exists (e1 ++ e2)%list.
    rewrite H2, H1, <- app_assoc. split; [reflexivity|].
    rewrite forallb_app, F1, F2. reflexivity.
Qed.


Section Coordinators.

Variable cfg : config.
Variable remote : nat -> request -> option response.
Variable py : pylib.

Context (R : world -> world -> Prop) `{!PreOrder R}.

(** Relations that every effect but a [DELETE] respects. *)
Hypothesis R_requested : forall rq w, R w (requested rq w).
Hypothesis R_sleep : forall d w, R w (log (EvSleep d) w).
Hypothesis R_files : forall fs w, R w (with_files fs w).
Hypothesis R_write : forall p c w, R w (log (EvWrite p c) w).
Hypothesis R_dirs : forall ds w, R w (with_dirs ds w).
Hypothesis R_commit : forall st r w, R w (committed st r w).

Lemma execute_respects st ps : preserves R (execute st ps).
Proof.
  intros w. rewrite execute_run. destruct (stored st ps); [reflexivity | apply R_commit].
Qed.

Lemma upsert_respects e u : preserves R (upsert py e u).
Proof.
  rewrite upsert_unfold.
  papply preserves_bind; [apply execute_respects|]. intros _.
  papply preserves_bind; [unfold int_id; repeat preserves_step|]. intros i.
  apply execute_respects.
Qed.

Lemma set_cursor_val_respects res tok : preserves R (set_cursor_val res tok).
Proof.
  unfold set_cursor_val. papply preserves_bind; [papply preserves_read|].
  intros now. apply execute_respects.
Qed.

Lemma get_cursor_val_respects res : preserves R (get_cursor_val res).
Proof. unfold get_cursor_val. repeat preserves_step. Qed.

Lemma checkpoint_respects res page key conv : preserves R (checkpoint res page key conv).
Proof.
  unfold checkpoint. papply preserves_bind; [papply preserves_lift_sum|]. intros p.
  destruct (truthy _); [apply set_cursor_val_respects | papply preserves_ret].
Qed.

Lemma page_flag_respects page key : preserves R (page_flag page key).
Proof. unfold page_flag. repeat preserves_step. Qed.

Lemma bootstrap_or_respects last k conv : preserves R (bootstrap_or cfg last k conv).
Proof. unfold bootstrap_or, initial_start_time_epoch. repeat preserves_step. Qed.

Lemma get_page_respects url params : preserves R (get_page remote py url params).
Proof. papply get_page_preserves; auto. Qed.




Lemma iter_cursor_page_respects fuel page body :
  (forall p, preserves R (body p)) ->
  preserves R (iter_cursor_page remote py fuel page body).
Proof.
  intros Hb. revert page. induction fuel as [|n IH]; intros page; cbn [iter_cursor_page].
  - papply preserves_fuel.
  - papply preserves_bind; [apply Hb|]. intros [|]; [papply preserves_ret|].
    papply preserves_bind; [papply preserves_lift_sum|]. intros p.
    papply preserves_bind; [papply preserves_lift_sum|]. intros after_url.
    destruct (negb _); [papply preserves_ret|].
    papply preserves_bind; [apply get_page_respects|]. intros page'.
    papply preserves_bind; [apply IH|]. intros rest. papply preserves_ret.
Qed.

Lemma list_pages_from_respects fuel page body :
  (forall p, preserves R (body p)) ->
  preserves R (list_pages_from remote py fuel page body).
Proof.
  intros Hb. revert page. induction fuel as [|n IH]; intros page; cbn [list_pages_from].
  - papply preserves_fuel.
  - papply preserves_bind; [apply Hb|]. intros _.
    papply preserves_bind; [papply preserves_lift_sum|]. intros p.
    papply preserves_bind; [papply preserves_lift_sum|]. intros next_url.
    destruct (negb _); [papply preserves_ret|].
    papply preserves_bind; [apply get_page_respects|]. intros page'.
    papply preserves_bind; [apply IH|]. intros rest. papply preserves_ret.
Qed.

Lemma iter_list_pages_respects fuel url params body :
  (forall p, preserves R (body p)) ->
  preserves R (iter_list_pages remote py fuel url params body).
Proof.
  intros Hb. unfold iter_list_pages.
  papply preserves_bind; [apply get_page_respects|]. intros page.
  apply list_pages_from_respects. exact Hb.
Qed.





Lemma sync_users_respects fuel : preserves R (sync_users cfg remote py fuel).
Proof.
  unfold sync_users.
  papply preserves_bind; [apply get_cursor_val_respects|]. intros last.
  papply preserves_bind; [apply bootstrap_or_respects|]. intros start.
  papply preserves_bind; [apply get_page_respects|]. intros first.
  papply preserves_bind; [|intros _; papply preserves_ret].
  apply iter_cursor_page_respects. intros page. unfold users_body.
  papply preserves_bind;
    [papply for_records_preserves; apply (upsert_respects User)|]. intros _.
  papply preserves_bind; [apply checkpoint_respects|]. intros _.
  apply page_flag_respects.
Qed.

Lemma organizations_pages_respects fuel url params :
  preserves R (organizations_pages cfg remote py fuel url params).
Proof.
  revert url params. induction fuel as [|n IH]; intros url params;
    cbn [organizations_pages].
  - papply preserves_fuel.
  - papply preserves_bind; [apply get_page_respects|]. intros page.
    papply preserves_bind;
      [papply for_records_preserves; apply (upsert_respects Organization)|]. intros _.
    papply preserves_bind; [apply checkpoint_respects|]. intros _.
    papply preserves_bind; [papply preserves_lift_sum|]. intros p.
    destruct (negb _); [papply preserves_ret|].
    papply preserves_bind; [papply sleep_preserves; auto|]. intros _. apply IH.
Qed.

Lemma sync_organizations_respects fuel :
  preserves R (sync_organizations cfg remote py fuel).
Proof.
  unfold sync_organizations. destruct (SKIP_ORGANIZATIONS cfg); [papply preserves_ret|].
  papply preserves_bind; [apply get_cursor_val_respects|]. intros last.
  papply preserves_bind; [apply bootstrap_or_respects|]. intros start.
  apply organizations_pages_respects.
Qed.




Lemma snapshot_pages_respects fuel key e page :
  preserves R (snapshot_pages remote py fuel key (upsert py e) page).
Proof.
  revert page. induction fuel as [|n IH]; intros page; cbn [snapshot_pages].
  - papply preserves_fuel.
  - papply preserves_bind;
      [papply for_records_preserves; apply (upsert_respects e)|]. intros _.
    papply preserves_bind; [papply preserves_lift_sum|]. intros p.
    papply preserves_bind; [papply preserves_lift_sum|]. intros next_page.
    destruct (negb _); [papply preserves_ret|].
    papply preserves_bind; [apply get_page_respects|]. intros page'. apply IH.
Qed.

Lemma snapshots_respect fuel :
  preserves R (sync_views cfg remote py fuel)
  /\ preserves R (sync_triggers cfg remote py fuel)
  /\ preserves R (sync_trigger_categories cfg remote py fuel)
  /\ preserves R (sync_macros cfg remote py fuel).
Proof.
  repeat split;
    (papply preserves_bind; [apply get_page_respects|]; intros page).
  - apply (snapshot_pages_respects fuel "views" View).
  - apply (snapshot_pages_respects fuel "triggers" Trigger).
  - apply (snapshot_pages_respects fuel "trigger_categories" TriggerCategory).
  - apply (snapshot_pages_respects fuel "macros" Macro).
Qed.


End Coordinators.

(* ------------------------------------------------------------------ *)
(** ** Pruning of the tickets out of scope *)

#[global] Instance keeps_absent_preorder tid : PreOrder (keeps_absent tid).
Proof.
  split.
  - intros w H. exact H.
  - intros w1 w2 w3 H1 H2 H. apply H2, H1, H.
Qed.









Section Pruning.

Variable cfg : config.
Variable remote : nat -> request -> option response.
Variable py : pylib.










Lemma delete_ticket_absent z w :
  ticket_absent z (db (delete_ticket z w).2)
  /\ forall tid, keeps_absent tid w (delete_ticket z w).2.
Proof.
  rewrite delete_ticket_run. cbn [snd db]. unfold db_after_delete. split.
  - split; [|split]; intros r Hr.
    + apply delete_where_gone in Hr. exact Hr.
    + rewrite delete_where_other_total in Hr by discriminate.
      apply delete_where_gone in Hr. exact Hr.
    + rewrite !delete_where_other_total in Hr by discriminate.
      apply delete_where_gone in Hr. exact Hr.
  - intros tid (A1 & A2 & A3).
    split; [|split]; intros r Hr; do 3 apply delete_where_subset in Hr; auto.
Qed.






Hypothesis closed_only : CLOSED_TICKETS_ONLY cfg = true.
Hypothesis prune : PRUNE_REOPENED_FROM_DB cfg = true.






End Pruning.




(* ------------------------------------------------------------------ *)
(** ** File names and time stamps *)

Lemma sub_illegal_clean s b : clean (sub_illegal s b) = true.
Proof.
  revert b. induction s as [|c s IH]; intros b; [reflexivity|].
  cbn [sub_illegal]. destruct (is_illegal c) eqn:Hc.
  - destruct b; [apply IH|]. unfold clean. cbn [list_ascii_of_string forallb].
    rewrite andb_true_iff. split; [reflexivity | apply IH].
  - unfold clean. cbn [list_ascii_of_string forallb]. rewrite Hc. apply IH.
Qed.

Lemma sub_illegal_id s b : clean s = true -> sub_illegal s b = s.
Proof.
  revert b. induction s as [|c s IH]; intros b; [reflexivity|].
  unfold clean. cbn [list_ascii_of_string forallb sub_illegal]. intros H.
  apply andb_true_iff in H as [Hc Hs].
  apply negb_true_iff in Hc. rewrite Hc. f_equal. apply IH. exact Hs.
Qed.

Lemma take_str_clean n s : clean s = true -> clean (take_str n s) = true.
Proof.
  revert s. induction n as [|n IH]; intros [|c s]; try reflexivity.
  unfold clean. cbn [list_ascii_of_string forallb take_str]. intros H.
  apply andb_true_iff in H as [Hc Hs].
  rewrite Hc. apply IH. exact Hs.
Qed.

Lemma take_str_length n s : (String.length (take_str n s) <= n)%nat.
Proof.
  revert s. induction n as [|n IH]; intros [|c s]; cbn; try lia.
  specialize (IH s). lia.
Qed.

Lemma py_or_falsy a b : truthy a = false -> py_or a b = b.
Proof. unfold py_or. intros ->. reflexivity. Qed.

(** X1. [safe_filename] on every input: a falsy name (None, the empty
    string, 0, an empty container) gives the empty name; a name that is
    a string gives a name of at most 180 characters none of which is one
    of the nine characters the pattern replaces; anything else raises
    [TypeError]. *)
Theorem safe_filename_clean (name : json) :
  (truthy name = false -> safe_filename name = inr "")
  /\ (forall s, name = JStr s ->
      exists s', safe_filename name = inr s'
        /\ (String.length s' <= 180)%nat /\ clean s' = true)
  /\ (truthy name = true -> (forall s, name <> JStr s) ->
      safe_filename name = inl TypeError).
Proof.
  split; [|split].
  - intros H. unfold safe_filename. rewrite py_or_falsy by exact H. reflexivity.
  - intros s ->. unfold safe_filename.
    assert (E : py_or (JStr s) (JStr "") = JStr s).
    { unfold py_or. cbn. destruct s; reflexivity. }
    rewrite E. eexists. split; [reflexivity|].
    destruct (180 <? String.length (sub_illegal s false))%nat eqn:Hlen.
    + split; [apply take_str_length | apply take_str_clean, sub_illegal_clean].
    + apply Nat.ltb_ge in Hlen. split; [exact Hlen | apply sub_illegal_clean].
  - intros Ht Hns. unfold safe_filename, py_or. rewrite Ht.
    destruct name; try reflexivity. exfalso. eapply Hns. reflexivity.
Qed.

(** X2. A name that needs no change is left as it is: a string of at
    most 180 characters without any replaced character is returned
    unchanged, so sanitizing a sanitized name gives the same name. *)
Theorem safe_filename_fixed :
  (forall s, clean s = true -> (String.length s <= 180)%nat ->
     safe_filename (JStr s) = inr s)
  /\ (forall name s, safe_filename name = inr s -> safe_filename (JStr s) = inr s).
Proof.
  assert (Hfix : forall s, clean s = true -> (String.length s <= 180)%nat ->
            safe_filename (JStr s) = inr s).
  { intros s Hc Hl. unfold safe_filename.
    assert (E : py_or (JStr s) (JStr "") = JStr s).
    { unfold py_or. cbn. destruct s; reflexivity. }
    rewrite E, (sub_illegal_id s false Hc).
    apply Nat.ltb_ge in Hl. rewrite Hl. reflexivity. }
  split; [exact Hfix|].
  intros name s H. unfold safe_filename in H.
  destruct (py_or name (JStr "")) as [| | |s0| |]; try discriminate H.
  cbv zeta in H.
  remember (if (180 <? String.length (sub_illegal s0 false))%nat
            then take_str 180 (sub_illegal s0 false) else sub_illegal s0 false)
    as x eqn:Hx.
  assert (s = x) by congruence. subst s. rewrite Hx. apply Hfix.
  - destruct (180 <? _)%nat; [apply take_str_clean|]; apply sub_illegal_clean.
  - destruct (180 <? String.length (sub_illegal s0 false))%nat eqn:Hlen.
    + apply take_str_length.
    + apply Nat.ltb_ge in Hlen. exact Hlen.
Qed.

Lemma replace_Z_empty s : replace_Z s = "" -> s = "".
Proof.
  destruct s as [|c s]; [reflexivity|]. cbn [replace_Z].
  destruct (Ascii.eqb c "Z"); discriminate.
Qed.

Lemma replace_Z_app s t : replace_Z (s ++ t) = replace_Z s ++ replace_Z t.
Proof.
  induction s as [|c s IH]; [reflexivity|].
  change (String c s ++ t) with (String c (s ++ t)). cbn [replace_Z].
  rewrite IH. destruct (Ascii.eqb c "Z"); reflexivity.
Qed.

Lemma replace_Z_idem s : replace_Z (replace_Z s) = replace_Z s.
Proof.
  induction s as [|c s IH]; [reflexivity|]. cbn [replace_Z].
  destruct (Ascii.eqb c "Z") eqn:Hc.
  - rewrite replace_Z_app, IH. reflexivity.
  - cbn [replace_Z]. rewrite Hc, IH. reflexivity.
Qed.

(** X3. [parse_dt] never raises: a falsy value and a value that is not
    a string give NULL. On a string it reads [Z] as [+00:00]: writing
    the offset out in place of every [Z] changes nothing, so a time
    stamp ending in [Z] and the same one ending in [+00:00] are stored
    alike; and what is stored is what [fromisoformat] makes of the
    string after the replacement, NULL when it rejects it. *)
Theorem parse_dt_zulu (py : pylib) :
  (forall j, truthy j = false -> parse_dt py j = SNull)
  /\ (forall j, (forall s, j <> JStr s) -> parse_dt py j = SNull)
  /\ (forall s, parse_dt py (JStr (replace_Z s)) = parse_dt py (JStr s))
  /\ (forall s, parse_dt py (JStr (s ++ "Z")) = parse_dt py (JStr (s ++ "+00:00")))
  /\ (forall s, s <> "" ->
      parse_dt py (JStr s)
      = match py_fromisoformat py (replace_Z s) with Some d => SStr d | None => SNull end).
Proof.
  assert (Hrep : forall s, parse_dt py (JStr (replace_Z s)) = parse_dt py (JStr s)).
  { intros s. unfold parse_dt. cbn [truthy]. rewrite replace_Z_idem.
    destruct (String.eqb s "") eqn:Hs.
    - apply String.eqb_eq in Hs. subst s. reflexivity.
    - destruct (String.eqb (replace_Z s) "") eqn:Hr; [|reflexivity].
      apply String.eqb_eq, replace_Z_empty in Hr. subst s. discriminate Hs. }
  split; [|split; [|split; [|split]]].
  - intros j H. unfold parse_dt. rewrite H. reflexivity.
  - intros j H. unfold parse_dt. destruct (negb (truthy j)); [reflexivity|].
    destruct j; try reflexivity. exfalso. eapply H. reflexivity.
  - exact Hrep.
  - intros s. rewrite <- (Hrep (s ++ "Z")), <- (Hrep (s ++ "+00:00")).
    rewrite !replace_Z_app. reflexivity.
  - intros s Hs. unfold parse_dt. cbn [truthy].
    destruct (String.eqb s "") eqn:E; [apply String.eqb_eq in E; contradiction|].
    reflexivity.
Qed.

(* ------------------------------------------------------------------ *)
(** ** The fetcher: failures that are not retried *)

Lemma get_with_retry_after remote py url params stream w k ds m :
  retried remote py {| req_url := url; req_params := params; req_stream := stream |}
    k (nreq w) 0 = Some ds ->
  (k + m = 8)%nat ->
  get_with_retry remote py url params stream w
  = retry_loop remote py m (backoff_at k)
      {| req_url := url; req_params := params; req_stream := stream |}
      (after_rounds {| req_url := url; req_params := params; req_stream := stream |} ds w).
Proof.
  intros Hk Hm. unfold get_with_retry. change 1%Q with (backoff_at 0).
  rewrite <- Hm. rewrite (retry_rounds remote py k m 0 _ w ds Hk). reflexivity.
Qed.

(** X4. A request that fails in transit ([SESSION.get] raises: no
    connection, time-out) is not retried: whatever the number of
    retryable responses before it, the fetch raises that exception at
    once, without sleeping, though attempts remain. *)
Theorem transport_error_not_retried (remote : nat -> request -> option response)
    (py : pylib) (url : string) (params : dict) (stream : bool) (w : world)
    (k : nat) (ds : list Q) :
  let rq := {| req_url := url; req_params := params; req_stream := stream |} in
  (k < 8)%nat ->
  retried remote py rq k (nreq w) 0 = Some ds ->
  remote (nreq w + k)%nat rq = None ->
  get_with_retry remote py url params stream w
  = (Raise RequestException, requested rq (after_rounds rq ds w))
  /\ nreq (get_with_retry remote py url params stream w).2 = (nreq w + k + 1)%nat.
Proof.
  intros rq Hlt Hk Hnone.
  pose proof (retried_length _ _ _ _ _ _ _ Hk) as Hlen.
  assert (E : get_with_retry remote py url params stream w
              = (Raise RequestException, requested rq (after_rounds rq ds w))).
  { rewrite (get_with_retry_after remote py url params stream w k ds (S (7 - k)) Hk)
      by lia.
    fold rq. cbn [retry_loop]. unfold bind. rewrite http_get_run.
    rewrite nreq_after_rounds, Hlen, Hnone. reflexivity. }
  split; [exact E|]. rewrite E. cbn. rewrite nreq_after_rounds, Hlen. lia.
Qed.

Lemma transport_error_not_retried_witness :
  get_with_retry (Demo.script [Demo.reply 503 None]) Demo.py "u" [] false Demo.world0
  = (Raise RequestException,
     requested {| req_url := "u"; req_params := []; req_stream := false |}
       (after_rounds {| req_url := "u"; req_params := []; req_stream := false |}
          [1%Q] Demo.world0))
  /\ nreq (get_with_retry (Demo.script [Demo.reply 503 None]) Demo.py "u" [] false
             Demo.world0).2 = 2%nat.
Proof.
  apply (transport_error_not_retried (Demo.script [Demo.reply 503 None]) Demo.py
           "u" [] false Demo.world0 1 [1%Q]).
  - lia.
  - reflexivity.
  - reflexivity.
Defined.

(** X5. A retryable response whose [Retry-After] header is not empty
    and is not a number that [float] accepts (a date, for one) ends the
    fetch: [float] raises [ValueError], which nothing catches; there is
    no sleep and no further attempt. *)
Theorem retry_after_not_a_number (remote : nat -> request -> option response)
    (py : pylib) (url : string) (params : dict) (stream : bool) (w : world)
    (k : nat) (ds : list Q) (resp : response) (s : string) :
  let rq := {| req_url := url; req_params := params; req_stream := stream |} in
  (k < 8)%nat ->
  retried remote py rq k (nreq w) 0 = Some ds ->
  remote (nreq w + k)%nat rq = Some resp ->
  retryable resp = true ->
  retry_after resp = Some s -> s <> "" -> py_float py s = None ->
  get_with_retry remote py url params stream w
  = (Raise ValueError, requested rq (after_rounds rq ds w)).
Proof.
  intros rq Hlt Hk Hresp Hre Hs Hne Hf.
  pose proof (retried_length _ _ _ _ _ _ _ Hk) as Hlen.
  rewrite (get_with_retry_after remote py url params stream w k ds (S (7 - k)) Hk)
    by lia.
  fold rq. cbn [retry_loop]. unfold bind at 1. rewrite http_get_run.
  rewrite nreq_after_rounds, Hlen, Hresp.
  unfold retryable in Hre. apply andb_true_iff in Hre as [H200 Hin].
  apply negb_true_iff in H200. rewrite H200, Hin.
  unfold bind at 1. unfold sleep_for. rewrite Hs, Hf.
  apply String.eqb_neq in Hne. rewrite Hne. reflexivity.
Qed.

Lemma retry_after_not_a_number_witness :
  get_with_retry (Demo.script [Sample.busy_until; Demo.reply 200 (Some JNull)])
    Sample.py "u" [] false Demo.world0
  = (Raise ValueError,
     requested {| req_url := "u"; req_params := []; req_stream := false |} Demo.world0).
Proof.
  apply (retry_after_not_a_number
           (Demo.script [Sample.busy_until; Demo.reply 200 (Some JNull)])
           Sample.py "u" [] false Demo.world0 0 [] Sample.busy_until
           "Wed, 21 Oct 2015 07:28:00 GMT").
  - lia.
  - reflexivity.
  - reflexivity.
  - reflexivity.
  - reflexivity.
  - discriminate.
  - reflexivity.
Defined.

(* ------------------------------------------------------------------ *)
(** ** Checkpoints: what is written is what is read *)

Lemma find_upsert_resource upd (r : row) (t : table) res :
  cell r "resource" = SStr res ->
  "resource" ∉ upd ->
  exists r', List.find (fun r0 => bool_decide (cell r0 "resource" = SStr res))
               (upsert_rows ["resource"] upd r t) = Some r'
    /\ (r' = r \/ exists r0, r0 ∈ t /\ r' = on_duplicate upd r r0).
Proof.
  intros Hr Hupd. induction t as [|r0 t IH]; cbn [upsert_rows].
  - exists r. cbn. rewrite bool_decide_eq_true_2 by exact Hr. auto.
  - destruct (bool_decide (key_of ["resource"] r0 = key_of ["resource"] r)) eqn:Hk.
    + apply bool_decide_eq_true in Hk. unfold key_of in Hk. cbn in Hk.
      injection Hk as Hk. exists (on_duplicate upd r r0). cbn [List.find].
      rewrite bool_decide_eq_true_2.
      * split; [reflexivity|]. right. exists r0. split; [left | reflexivity].
      * rewrite cell_on_duplicate, bool_decide_eq_false_2 by exact Hupd. congruence.
    + apply bool_decide_eq_false in Hk. cbn [List.find].
      rewrite bool_decide_eq_false_2.
      * destruct IH as (r' & Hf & [->|(r1 & H1 & ->)]).
        -- exists r. auto.
        -- exists (on_duplicate upd r r1). split; [exact Hf|].
           right. exists r1. split; [right; exact H1 | reflexivity].
      * intros H0. apply Hk. unfold key_of. cbn. congruence.
Qed.

Lemma find_upsert_other_resource upd (r : row) (t : table) res res' :
  cell r "resource" = SStr res -> res' <> res ->
  "resource" ∉ upd ->
  List.find (fun r0 => bool_decide (cell r0 "resource" = SStr res'))
    (upsert_rows ["resource"] upd r t)
  = List.find (fun r0 => bool_decide (cell r0 "resource" = SStr res')) t.
Proof.
  intros Hr Hne Hupd. induction t as [|r0 t IH]; cbn [upsert_rows].
  - cbn. rewrite bool_decide_eq_false_2 by congruence. reflexivity.
  - destruct (bool_decide (key_of ["resource"] r0 = key_of ["resource"] r)) eqn:Hk.
    + apply bool_decide_eq_true in Hk. unfold key_of in Hk. cbn in Hk.
      injection Hk as Hk. cbn [List.find].
      rewrite (bool_decide_eq_false_2 (cell r0 "resource" = SStr res')) by congruence.
      rewrite bool_decide_eq_false_2; [reflexivity|].
      rewrite cell_on_duplicate, bool_decide_eq_false_2 by exact Hupd. congruence.
    + cbn [List.find]. rewrite IH. reflexivity.
Qed.

Lemma stored_checkpoint resource tok now :
  (String.length resource <= 64)%nat -> (String.length tok <= 255)%nat ->
  stored sync_state_stmt [Some (SStr resource); Some (SStr tok); Some (SInt now)]
  = inr [("resource", SStr resource); ("cursor_token", SStr tok);
         ("updated_at", SInt now)].
Proof.
  intros H1 H2. apply Nat.leb_le in H1, H2. unfold stored. cbn.
  rewrite H1, H2. reflexivity.
Qed.

Lemma stored_checkpoint_resource resource tok now r :
  stored sync_state_stmt [Some (SStr resource); tok; Some (SInt now)] = inr r ->
  cell r "resource" = SStr resource.
Proof.
  unfold stored. destruct tok as [v|]; [|discriminate]. cbn.
  destruct (match v with SNull => None | _ => _ end) as [v'|]; [|discriminate].
  destruct (String.length resource <=? 64)%nat; [|discriminate].
  intros [= <-]. reflexivity.
Qed.

Lemma set_cursor_val_run resource tok w :
  set_cursor_val resource tok w =
  match stored sync_state_stmt
          [Some (SStr resource); to_param tok; Some (SInt (clock w))] with
  | inr r => (Ok tt, committed sync_state_stmt r w)
  | inl e => (Raise e, w)
  end.
Proof. unfold set_cursor_val, bind, read. apply execute_run. Qed.

(** X6. The checkpoint written is the checkpoint read: for a resource
    name of at most 64 characters and a token of at most 255, on a
    checkpoint table shaped by its schema, [set_cursor_val] succeeds,
    [get_cursor_val] on the same resource then returns that token
    (whatever token the resource had before), and the table keeps its
    shape. *)
Theorem cursor_round_trip (resource tok : string) (w : world) :
  (String.length resource <= 64)%nat -> (String.length tok <= 255)%nat ->
  table_wf sync_state_stmt (sync_state_of w) ->
  (set_cursor_val resource (JStr tok) w).1 = Ok tt
  /\ get_cursor_val resource (set_cursor_val resource (JStr tok) w).2
     = (Ok (JStr tok), (set_cursor_val resource (JStr tok) w).2)
  /\ table_wf sync_state_stmt (sync_state_of (set_cursor_val resource (JStr tok) w).2).
Proof.
  intros H1 H2 Hwf. rewrite set_cursor_val_run.
  cbn [to_param]. rewrite (stored_checkpoint resource tok (clock w) H1 H2).
  set (r := [("resource", SStr resource); ("cursor_token", SStr tok);
             ("updated_at", SInt (clock w))]).
  split; [reflexivity|]. cbn [snd]. split.
  - destruct (find_upsert_resource ["cursor_token"; "updated_at"] r
                (sync_state_of w) resource eq_refl) as (r' & Hf & Hr').
    { intros H. repeat (apply elem_of_cons in H as [H|H]; [discriminate H|]).
      inversion H. }
    apply (get_cursor_val_of resource _ r' tok).
    + unfold select_first, committed. cbn [db log with_db sync_state_stmt st_table
        st_pk st_upd]. rewrite iod_same. exact Hf.
    + destruct Hr' as [->|(r0 & H0 & ->)]; [reflexivity|].
      rewrite cell_on_duplicate. cbn.
      destruct Hwf as [_ Hn]. rewrite Forall_forall in Hn.
      rewrite (Hn r0 H0). reflexivity.
  - unfold sync_state_of, committed. cbn [db log with_db sync_state_stmt st_table
      st_pk st_upd]. rewrite iod_same.
    apply (table_wf_upsert sync_state_stmt); [reflexivity | exact Hwf].
Qed.

Lemma cursor_round_trip_witness :
  get_cursor_val "tickets"
    (set_cursor_val "tickets" (JStr "B")
       (set_cursor_val "tickets" (JStr "A") Demo.world0).2).2
  = (Ok (JStr "B"),
     (set_cursor_val "tickets" (JStr "B")
        (set_cursor_val "tickets" (JStr "A") Demo.world0).2).2).
Proof.
  apply (proj1 (proj2 (cursor_round_trip "tickets" "B"
           (set_cursor_val "tickets" (JStr "A") Demo.world0).2 ltac:(cbn; lia)
           ltac:(cbn; lia)
           (proj2 (proj2 (cursor_round_trip "tickets" "A" Demo.world0
              ltac:(cbn; lia) ltac:(cbn; lia)
              ltac:(split; constructor))))))).
Defined.

(** X7. Checkpoints are kept per resource: writing the checkpoint of
    one resource, with any token and whether the write succeeds or not,
    leaves the checkpoint read for every other resource and every table
    other than [sync_state] as they were. *)
Theorem cursor_independent (resource resource' : string) (tok : json) (w : world) :
  resource' <> resource ->
  (get_cursor_val resource' (set_cursor_val resource tok w).2).1
  = (get_cursor_val resource' w).1
  /\ (forall tbl, tbl <> "sync_state" ->
      db (set_cursor_val resource tok w).2 !! tbl = db w !! tbl).
Proof.
  intros Hne. rewrite set_cursor_val_run.
  destruct (stored sync_state_stmt _) as [e|r] eqn:Hs; [split; reflexivity|].
  apply stored_checkpoint_resource in Hs. cbn [snd]. split.
  - unfold get_cursor_val, bind, read, select_first, committed.
    cbn [db log with_db sync_state_stmt st_table st_pk st_upd].
    rewrite iod_same.
    rewrite (find_upsert_other_resource _ r _ resource resource' Hs Hne).
    + destruct (List.find _ _) as [r0|]; [|reflexivity].
      destruct (cell r0 "cursor_token"); reflexivity.
    + intros H. repeat (apply elem_of_cons in H as [H|H]; [discriminate H|]).
      inversion H.
  - intros tbl Htbl. unfold committed, insert_on_duplicate.
    cbn [db log with_db sync_state_stmt st_table]. apply lookup_insert_ne. congruence.
Qed.

Lemma cursor_independent_witness :
  (get_cursor_val "users"
     (set_cursor_val "tickets" (JStr "B")
        (set_cursor_val "users" (JStr "A") Demo.world0).2).2).1
  = (get_cursor_val "users" (set_cursor_val "users" (JStr "A") Demo.world0).2).1.
Proof.
  apply (proj1 (cursor_independent "tickets" "users" (JStr "B")
           (set_cursor_val "users" (JStr "A") Demo.world0).2 ltac:(discriminate))).
Defined.

(* ------------------------------------------------------------------ *)
(** ** Typed upserts: what they leave alone, and how they compose *)

Lemma upsert_rows_length pk upd (r : row) (t : table) :
  (length t <= length (upsert_rows pk upd r t) <= S (length t))%nat.
Proof.
  induction t as [|r0 t IH]; cbn [upsert_rows].
  - cbn. lia.
  - destruct (bool_decide _); cbn [length]; lia.
Qed.

Lemma upsert_rows_other pk upd (r : row) (t : table) r0 :
  key_of pk r0 <> key_of pk r ->
  r0 ∈ upsert_rows pk upd r t <-> r0 ∈ t.
Proof.
  intros Hne. induction t as [|r1 t IH]; cbn [upsert_rows].
  - split; intros H; [|inversion H].
    apply list_elem_of_singleton in H. subst. contradiction.
  - destruct (bool_decide (key_of pk r1 = key_of pk r)) eqn:Hk.
    + apply bool_decide_eq_true in Hk. rewrite !elem_of_cons. split.
      * intros [->|H]; [|auto]. exfalso. apply Hne. apply key_on_duplicate. exact Hk.
      * intros [->|H]; [contradiction | auto].
    + rewrite !elem_of_cons, IH. tauto.
Qed.

Lemma on_duplicate_twice upd (r1 r2 old : row) :
  on_duplicate upd r2 (on_duplicate upd r1 old) = on_duplicate upd r2 old.
Proof.
  unfold on_duplicate. rewrite map_map. apply map_ext. intros [c v]. cbn.
  destruct (bool_decide (c ∈ upd)) eqn:Hu; cbn; rewrite Hu; reflexivity.
Qed.

Lemma upsert_rows_overwrite pk upd (r1 r2 : row) (t : table) :
  NoDup r2.*1 -> r1.*1 = r2.*1 ->
  (forall c, c ∈ r2.*1 -> c ∈ pk \/ c ∈ upd) ->
  key_of pk r1 = key_of pk r2 ->
  upsert_rows pk upd r2 (upsert_rows pk upd r1 t) = upsert_rows pk upd r2 t.
Proof.
  intros Hnd Hn Hcov Hk. induction t as [|r0 t IH]; cbn [upsert_rows].
  - rewrite bool_decide_eq_true_2 by exact Hk.
    rewrite (on_duplicate_overwrites pk upd r2 r1 Hnd Hn Hcov Hk). reflexivity.
  - destruct (bool_decide (key_of pk r0 = key_of pk r1)) eqn:H1.
    + apply bool_decide_eq_true in H1. cbn [upsert_rows].
      rewrite bool_decide_eq_true_2
        by (rewrite (key_on_duplicate pk upd r1 r0 H1); exact Hk).
      rewrite bool_decide_eq_true_2 by congruence.
      rewrite on_duplicate_twice. reflexivity.
    + apply bool_decide_eq_false in H1. cbn [upsert_rows].
      rewrite !bool_decide_eq_false_2 by congruence. rewrite IH. reflexivity.
Qed.

Lemma iod_overwrite tbl pk upd (r1 r2 : row) (d : database) :
  NoDup r2.*1 -> r1.*1 = r2.*1 ->
  (forall c, c ∈ r2.*1 -> c ∈ pk \/ c ∈ upd) ->
  key_of pk r1 = key_of pk r2 ->
  insert_on_duplicate tbl pk upd r2 (insert_on_duplicate tbl pk upd r1 d)
  = insert_on_duplicate tbl pk upd r2 d.
Proof.
  intros Hnd Hn Hcov Hk. unfold insert_on_duplicate at 1.
  rewrite iod_same, upsert_rows_overwrite by assumption.
  unfold insert_on_duplicate. apply insert_insert_eq.
Qed.

Lemma iod_length tbl pk upd (r : row) (d : database) tbl' :
  (length (d !!! tbl')
   <= length (insert_on_duplicate tbl pk upd r d !!! tbl')
   <= (if bool_decide (tbl' = tbl) then S (length (d !!! tbl')) else length (d !!! tbl')))%nat.
Proof.
  destruct (decide (tbl' = tbl)) as [->|Hne].
  - rewrite bool_decide_eq_true_2 by reflexivity. rewrite iod_same.
    apply upsert_rows_length.
  - rewrite bool_decide_eq_false_2 by exact Hne. rewrite iod_other by exact Hne. lia.
Qed.

Lemma upsert_keeps_world py e p w :
  let w' := (upsert py e p w).2 in
  files w' = files w /\ dirs w' = dirs w /\ nreq w' = nreq w /\ clock w' = clock w.
Proof.
  cbv zeta. rewrite upsert_run.
  destruct (stored (entity_stmt e) _) as [e1|r]; [auto|].
  destruct (id_of p) as [e2|i]; [auto|].
  destruct (stored raw_snapshots_stmt _); auto.
Qed.

(** X8. What an upsert leaves alone, whatever the entity type, the
    payload and the outcome: every table other than the entity's own
    and [raw_snapshots]; in every table the rows already there (no table
    loses a row, and none grows by more than one); in the entity's
    table every row under another primary key, which is there after the
    upsert exactly if it was there before; and the files, the
    directories, the request counter and the clock. *)
Theorem upsert_frame (py : pylib) (e : entity) (p : dict) (w : world) :
  let st := entity_stmt e in
  let w' := (upsert py e p w).2 in
  (forall tbl, tbl <> st_table st -> tbl <> "raw_snapshots" ->
     db w' !! tbl = db w !! tbl)
  /\ (forall tbl, (length (db w !!! tbl) <= length (db w' !!! tbl)
                   <= S (length (db w !!! tbl)))%nat)
  /\ (forall r r0, stored st (entity_params py e p) = inr r ->
        key_of (st_pk st) r0 <> key_of (st_pk st) r ->
        r0 ∈ db w' !!! st_table st <-> r0 ∈ db w !!! st_table st)
  /\ files w' = files w /\ dirs w' = dirs w /\ nreq w' = nreq w /\ clock w' = clock w.
Proof.
  cbv zeta. split; [|split; [|split; [|apply upsert_keeps_world]]].
  - intros tbl H1 H2. rewrite upsert_db.
    destruct (stored (entity_stmt e) _) as [e1|r]; [reflexivity|]. cbv zeta.
    assert (E : insert_on_duplicate (st_table (entity_stmt e)) (st_pk (entity_stmt e))
                  (st_upd (entity_stmt e)) r (db w) !! tbl = db w !! tbl)
      by (apply lookup_insert_ne; congruence).
    destruct (id_of p) as [e2|i]; [exact E|].
    destruct (stored raw_snapshots_stmt _) as [e3|rr]; [exact E|].
    rewrite <- E. apply lookup_insert_ne. congruence.
  - intros tbl. rewrite upsert_db.
    destruct (stored (entity_stmt e) _) as [e1|r]; [lia|]. cbv zeta.
    pose proof (iod_length (st_table (entity_stmt e)) (st_pk (entity_stmt e))
                  (st_upd (entity_stmt e)) r (db w) tbl) as H1.
    assert (H1' : (length (db w !!! tbl)
               <= length (insert_on_duplicate (st_table (entity_stmt e))
                            (st_pk (entity_stmt e)) (st_upd (entity_stmt e)) r (db w)
                          !!! tbl)
               <= S (length (db w !!! tbl)))%nat)
      by (destruct (bool_decide _); lia).
    destruct (id_of p) as [e2|i]; [exact H1'|].
    destruct (stored raw_snapshots_stmt _) as [e3|rr]; [exact H1'|].
    pose proof (iod_length "raw_snapshots" ["resource"; "entity_id"]
                  ["updated_at"; "payload_json"] rr
                  (insert_on_duplicate (st_table (entity_stmt e))
                     (st_pk (entity_stmt e)) (st_upd (entity_stmt e)) r (db w)) tbl) as H2.
    destruct (decide (tbl = "raw_snapshots")) as [->|Hne].
    + rewrite bool_decide_eq_true_2 in H2 by reflexivity.
      rewrite bool_decide_eq_false_2 in H1
        by (intros H; symmetry in H; exact (entity_table_not_raw e H)).
      lia.
    + rewrite bool_decide_eq_false_2 in H2 by exact Hne. lia.
  - intros r r0 Hs Hk. rewrite upsert_db, Hs. cbv zeta.
    assert (E : r0 ∈ insert_on_duplicate (st_table (entity_stmt e))
                  (st_pk (entity_stmt e)) (st_upd (entity_stmt e)) r (db w)
                !!! st_table (entity_stmt e)
              <-> r0 ∈ db w !!! st_table (entity_stmt e))
      by (rewrite iod_same; apply upsert_rows_other; exact Hk).
    destruct (id_of p) as [e2|i]; [exact E|].
    destruct (stored raw_snapshots_stmt _) as [e3|rr]; [exact E|].
    rewrite iod_other by apply entity_table_not_raw. exact E.
Qed.

Lemma stored_raw_row py res z upd p rr :
  stored raw_snapshots_stmt (raw_params py res z upd p) = inr rr ->
  rr = [("resource", SStr res); ("entity_id", SInt z);
        ("updated_at", parse_dt py upd);
        ("payload_json", SStr (py_dumps_unicode py (JObj p)))].
Proof.
  unfold stored, raw_params. cbn.
  destruct (in_bigint z); [|discriminate].
  destruct (String.length res <=? 64)%nat; [|discriminate].
  intros [= <-]. reflexivity.
Qed.

Lemma id_of_get (p1 p2 : dict) z1 z2 :
  get p1 "id" = get p2 "id" -> id_of p1 = inr z1 -> id_of p2 = inr z2 -> z1 = z2.
Proof.
  unfold get, id_of, item.
  destruct (lookup_key p1 "id") as [v1|]; [|discriminate].
  destruct (lookup_key p2 "id") as [v2|]; [|discriminate].
  intros -> H1 H2. congruence.
Qed.

Lemma entity_pk e : st_pk (entity_stmt e) = ["id"].
Proof. destruct e; reflexivity. Qed.

(** What a typed upsert that returns normally has stored. *)
Lemma upsert_Ok_rows py e p w :
  e <> TriggerCategory ->
  (upsert py e p w).1 = Ok tt ->
  exists r z,
    stored (entity_stmt e) (entity_params py e p) = inr r
    /\ id_of p = inr z
    /\ cell r "id" = SInt z
    /\ stored raw_snapshots_stmt
         (raw_params py (entity_resource e) z (entity_updated e p) p)
       = inr [("resource", SStr (entity_resource e)); ("entity_id", SInt z);
              ("updated_at", parse_dt py (entity_updated e p));
              ("payload_json", SStr (py_dumps_unicode py (JObj p)))].
Proof.
  intros Hne. rewrite upsert_run.
  destruct (stored (entity_stmt e) _) as [e1|r] eqn:Hs; [discriminate|].
  destruct (upsert_paired py e p w r Hne Hs) as (z & rr & Hc & Hid & _).
  rewrite Hid.
  destruct (stored raw_snapshots_stmt _) as [e3|rr'] eqn:Hr; [discriminate|].
  intros _. exists r, z. repeat split; try assumption.
  rewrite (stored_raw_row _ _ _ _ _ _ Hr) in Hr. exact Hr.
Qed.

(** X9. The last write wins. For the eight entity types keyed by an
    integer id and two payloads with the same id: when the upsert of the
    second payload succeeds, upserting the first payload and then the
    second leaves the store exactly as upserting the second alone,
    typed row and raw snapshot included; nothing of the first payload
    survives. *)
Theorem upsert_last_wins (py : pylib) (e : entity) (p1 p2 : dict) (w : world) :
  e <> TriggerCategory ->
  get p1 "id" = get p2 "id" ->
  (upsert py e p2 w).1 = Ok tt ->
  db (upsert py e p2 (upsert py e p1 w).2).2 = db (upsert py e p2 w).2.
Proof.
  intros Hne Hid H2.
  destruct (upsert_Ok_rows py e p2 w Hne H2) as (r2 & z2 & Hs2 & Hz2 & Hc2 & Hr2).
  rewrite (upsert_db py e p2 w), (upsert_db py e p2 (upsert py e p1 w).2).
  rewrite Hs2, Hz2, Hr2. cbv zeta.
  rewrite (upsert_db py e p1 w).
  destruct (stored (entity_stmt e) (entity_params py e p1)) as [e1|r1] eqn:Hs1;
    [reflexivity|].
  assert (H1 : (upsert py e p1 w).1 = Ok tt).
  { destruct (upsert_paired py e p1 w r1 Hne Hs1) as (z & rr & _ & _ & _ & _ & _ & E & _).
    rewrite E. reflexivity. }
  destruct (upsert_Ok_rows py e p1 w Hne H1) as (r1' & z1 & Hs1' & Hz1 & Hc1 & Hr1).
  assert (r1' = r1) by congruence. subst r1'.
  assert (z1 = z2) by (eapply id_of_get; eassumption). subst z2.
  rewrite Hz1, Hr1. cbv zeta.
  pose proof (stmt_ok_in _ (entity_stmt_in e)) as Hok.
  pose proof (stmt_ok_in _ raw_stmt_in) as Hokr.
  assert (Hn1 : r1.*1 = st_cols (entity_stmt e))
    by (apply (stored_names _ _ _ Hs1 (entity_params_length py e p1))).
  assert (Hn2 : r2.*1 = st_cols (entity_stmt e))
    by (apply (stored_names _ _ _ Hs2 (entity_params_length py e p2))).
  set (T := st_table (entity_stmt e)).
  set (rr1 := [("resource", SStr (entity_resource e)); ("entity_id", SInt z1);
               ("updated_at", parse_dt py (entity_updated e p1));
               ("payload_json", SStr (py_dumps_unicode py (JObj p1)))]).
  set (rr2 := [("resource", SStr (entity_resource e)); ("entity_id", SInt z1);
               ("updated_at", parse_dt py (entity_updated e p2));
               ("payload_json", SStr (py_dumps_unicode py (JObj p2)))]).
  rewrite (iod_comm T _ _ r2 "raw_snapshots") by apply entity_table_not_raw.
  rewrite (iod_overwrite "raw_snapshots" _ _ rr1 rr2).
  - rewrite (iod_overwrite T _ _ r1 r2); [reflexivity| | | |].
    + rewrite Hn2. apply stmt_ok_NoDup. exact Hok.
    + congruence.
    + intros c Hc. rewrite Hn2 in Hc. apply stmt_ok_covers; assumption.
    + rewrite entity_pk. unfold key_of. cbn. congruence.
  - apply (stmt_ok_NoDup _ Hokr).
  - reflexivity.
  - intros c Hc. apply (stmt_ok_covers _ c Hokr). exact Hc.
  - reflexivity.
Qed.

Lemma upsert_last_wins_witness :
  db (upsert Demo.py User [("id", JNum 7); ("name", JStr "Bob")]
        (upsert Demo.py User [("id", JNum 7); ("name", JStr "Ann"); ("role", JStr "admin")]
           Demo.world0).2).2
  = db (upsert Demo.py User [("id", JNum 7); ("name", JStr "Bob")] Demo.world0).2.
Proof.
  apply (upsert_last_wins Demo.py User
           [("id", JNum 7); ("name", JStr "Ann"); ("role", JStr "admin")]
           [("id", JNum 7); ("name", JStr "Bob")] Demo.world0).
  - discriminate.
  - reflexivity.
  - reflexivity.
Defined.



(* ------------------------------------------------------------------ *)
(** ** The ticket delete, row by row *)

Lemma delete_where_comm t1 c1 z1 t2 c2 z2 (d : database) :
  t1 <> t2 ->
  delete_where t1 c1 z1 (delete_where t2 c2 z2 d)
  = delete_where t2 c2 z2 (delete_where t1 c1 z1 d).
Proof.
  intros Hne. unfold delete_where at 1 3.
  rewrite !delete_where_other_total by congruence.
  unfold delete_where. apply insert_insert_ne. exact Hne.
Qed.

Lemma filter_filter_same {A} (f : A -> bool) (l : list A) :
  List.filter f (List.filter f l) = List.filter f l.
Proof.
  induction l as [|x l IH]; cbn; [reflexivity|].
  destruct (f x) eqn:Hx; cbn; [rewrite Hx, IH|]; auto.
Qed.

Lemma delete_where_idem tbl col z (d : database) :
  delete_where tbl col z (delete_where tbl col z d) = delete_where tbl col z d.
Proof.
  unfold delete_where at 1. rewrite delete_where_same, filter_filter_same.
  unfold delete_where. apply insert_insert_eq.
Qed.

Lemma filter_all {A} (f : A -> bool) (l : list A) :
  (forall x, x ∈ l -> f x = true) -> List.filter f l = l.
Proof.
  induction l as [|x l IH]; cbn; intros H; [reflexivity|].
  rewrite (H x) by left. f_equal. apply IH. intros y Hy. apply H. right. exact Hy.
Qed.

Lemma delete_where_total tbl col z (d : database) tbl' :
  delete_where tbl col z d !!! tbl' =
  if bool_decide (tbl' = tbl)
  then List.filter (fun r => negb (bool_decide (cell r col = SInt z))) (d !!! tbl')
  else d !!! tbl'.
Proof.
  destruct (decide (tbl' = tbl)) as [->|Hne].
  - rewrite bool_decide_eq_true_2 by reflexivity. apply delete_where_same.
  - rewrite bool_decide_eq_false_2 by exact Hne. apply delete_where_other_total. exact Hne.
Qed.

Lemma elem_of_delete_where tbl col z (d : database) r :
  r ∈ delete_where tbl col z d !!! tbl <-> r ∈ d !!! tbl /\ cell r col <> SInt z.
Proof.
  rewrite delete_where_same, !list_elem_of_In, filter_In, negb_true_iff.
  split; intros [H1 H2]; split; auto.
  - apply bool_decide_eq_false in H2. exact H2.
  - apply bool_decide_eq_false_2. exact H2.
Qed.

(** X11. [delete_ticket] removes exactly the rows of the ticket: after
    it, a row is in [tickets] exactly if it was there with another id,
    and in [ticket_comments] and [attachments] exactly if it was there
    with another ticket id, so that the ticket is absent and the rows of
    every other ticket are kept. When the ticket is absent already the
    rows of every table are as they were; and deleting a second time
    leaves the store as the first delete left it. *)
Theorem delete_ticket_exact (tid : Z) (w : world) :
  let d' := db (delete_ticket tid w).2 in
  (forall r, r ∈ d' !!! "tickets" <-> r ∈ db w !!! "tickets" /\ cell r "id" <> SInt tid)
  /\ (forall r, r ∈ d' !!! "ticket_comments"
        <-> r ∈ db w !!! "ticket_comments" /\ cell r "ticket_id" <> SInt tid)
  /\ (forall r, r ∈ d' !!! "attachments"
        <-> r ∈ db w !!! "attachments" /\ cell r "ticket_id" <> SInt tid)
  /\ ticket_absent tid d'
  /\ (ticket_absent tid (db w) -> forall tbl, d' !!! tbl = db w !!! tbl)
  /\ db (delete_ticket tid (delete_ticket tid w).2).2 = d'.
Proof.
  cbv zeta. rewrite !delete_ticket_run. cbn [snd db]. unfold db_after_delete.
  split; [|split; [|split; [|split; [|split]]]].
  - intros r. rewrite elem_of_delete_where.
    rewrite !delete_where_other_total by discriminate. reflexivity.
  - intros r. rewrite delete_where_other_total by discriminate.
    rewrite elem_of_delete_where.
    rewrite delete_where_other_total by discriminate. reflexivity.
  - intros r. rewrite !delete_where_other_total by discriminate.
    apply elem_of_delete_where.
  - pose proof (delete_ticket_absent tid w) as [H _].
    rewrite delete_ticket_run in H. exact H.
  - intros (A1 & A2 & A3) tbl. rewrite !delete_where_total.
    repeat match goal with
           | |- context [bool_decide (tbl = ?t)] => destruct (bool_decide (tbl = t)) eqn:?
           end;
      repeat match goal with
             | H : bool_decide (tbl = _) = true |- _ =>
                 apply bool_decide_eq_true in H; subst tbl
             end;
      try discriminate; try reflexivity;
      apply filter_all; intros r Hr; apply negb_true_iff, bool_decide_eq_false_2; auto.
  - rewrite (delete_where_comm "attachments" _ _ "tickets") by discriminate.
    rewrite (delete_where_comm "attachments" _ _ "ticket_comments") by discriminate.
    rewrite delete_where_idem.
    rewrite (delete_where_comm "ticket_comments" _ _ "tickets") by discriminate.
    rewrite delete_where_idem.
    rewrite delete_where_idem. reflexivity.
Qed.

(* ------------------------------------------------------------------ *)
(** ** The attachment download: what ends up on disk *)

Lemma append_empty_r s : s ++ "" = s.
Proof.
  induction s as [|c s IH]; [reflexivity|].
  change (String c (s ++ "") = String c s). f_equal. exact IH.
Qed.

Lemma write_chunks_all target cs w c0 :
  files w !! target = Some c0 ->
  exists w', write_chunks target (map Some cs) w = (Ok tt, w')
    /\ files w' !! target = Some (c0 ++ joined cs)
    /\ (forall p, p <> target -> files w' !! p = files w !! p)
    /\ dirs w' = dirs w.
Proof.
  revert w c0. induction cs as [|c cs IH]; intros w c0 H0; cbn [map write_chunks].
  - exists w. cbn [joined fold_right]. rewrite append_empty_r. auto.
  - destruct (String.eqb c "") eqn:Hc; cbn [negb].
    + apply String.eqb_eq in Hc. subst c.
      destruct (IH w c0 H0) as (w' & Hw & Hf & Hp & Hd). exists w'.
      unfold bind at 1, ret. split; [exact Hw|]. auto.
    + unfold bind at 1, write at 1, modify.
      destruct (IH (log (EvWrite target c)
                      (with_files (<[target := default "" (files w !! target) ++ c]>
                                     (files w)) w)) (c0 ++ c))
        as (w' & Hw & Hf & Hp & Hd).
      { cbn. rewrite lookup_insert_eq, H0. reflexivity. }
      exists w'. split; [exact Hw|]. split; [|split].
      * rewrite Hf. cbn [joined fold_right]. rewrite append_assoc. reflexivity.
      * intros p Hne. rewrite (Hp p Hne). cbn. apply lookup_insert_ne. congruence.
      * exact Hd.
Qed.

Lemma write_chunks_broken target cs rest w c0 :
  files w !! target = Some c0 ->
  exists w', write_chunks target (map Some cs ++ None :: rest) w
             = (Raise RequestException, w')
    /\ files w' !! target = Some (c0 ++ joined cs)
    /\ (forall p, p <> target -> files w' !! p = files w !! p)
    /\ dirs w' = dirs w.
Proof.
  revert w c0. induction cs as [|c cs IH]; intros w c0 H0;
    cbn [map app write_chunks].
  - exists w. cbn [joined fold_right]. rewrite append_empty_r. auto.
  - destruct (String.eqb c "") eqn:Hc; cbn [negb].
    + apply String.eqb_eq in Hc. subst c.
      destruct (IH w c0 H0) as (w' & Hw & Hf & Hp & Hd). exists w'.
      unfold bind at 1, ret. split; [exact Hw|]. auto.
    + unfold bind at 1, write at 1, modify.
      destruct (IH (log (EvWrite target c)
                      (with_files (<[target := default "" (files w !! target) ++ c]>
                                     (files w)) w)) (c0 ++ c))
        as (w' & Hw & Hf & Hp & Hd).
      { cbn. rewrite lookup_insert_eq, H0. reflexivity. }
      exists w'. split; [exact Hw|]. split; [|split].
      * rewrite Hf. cbn [joined fold_right]. rewrite append_assoc. reflexivity.
      * intros p Hne. rewrite (Hp p Hne). cbn. apply lookup_insert_ne. congruence.
      * exact Hd.
Qed.

Lemma get_with_retry_disk remote py u params stream w r w2 :
  get_with_retry remote py u params stream w = (r, w2) ->
  files w2 = files w /\ dirs w2 = dirs w.
Proof.
  intros H.
  assert (Hf : preserves (same files) (get_with_retry remote py u params stream))
    by (papply get_with_retry_preserves; intros; reflexivity).
  assert (Hd : preserves (same dirs) (get_with_retry remote py u params stream))
    by (papply get_with_retry_preserves; intros; reflexivity).
  specialize (Hf w). specialize (Hd w). rewrite H in Hf, Hd. auto.
Qed.

(** The transfer of a body that arrives, whole or up to a break. *)
Lemma transfer_stream remote py u target w resp w2 :
  u <> "" ->
  py_open_fails py target = false ->
  get_with_retry remote py u [] true w = (Ok (Stream resp), w2) ->
  (forall cs, resp_chunks resp = map Some cs ->
     exists w', transfer remote py (JStr u) target w = (Ok (Some (py_resolve py target)), w')
       /\ files w' !! target = Some (joined cs)
       /\ (forall p, p <> target -> files w' !! p = files w !! p)
       /\ dirs w' = dirs w)
  /\ (forall cs rest, resp_chunks resp = (map Some cs ++ None :: rest)%list ->
     exists w', transfer remote py (JStr u) target w = (Raise RequestException, w')
       /\ files w' !! target = Some (joined cs)
       /\ (forall p, p <> target -> files w' !! p = files w !! p)
       /\ dirs w' = dirs w).
Proof.
  intros Hu Hopen Hg. destruct (get_with_retry_disk _ _ _ _ _ _ _ _ Hg) as [Hf2 Hd2].
  assert (Hrun :
            transfer remote py (JStr u) target w
            = bind (write_chunks target (resp_chunks resp))
                (fun _ => ret (Some (py_resolve py target)))
                (with_files (<[target := ""]> (files w2)) w2)).
  { unfold transfer. cbn [as_url lift_sum].
    rewrite (bind_run _ _ w u w) by reflexivity.
    rewrite (bind_run _ _ _ _ _ Hg).
    unfold bind at 1, open_wb at 1. rewrite Hopen. reflexivity. }
  split.
  - intros cs Hcs. rewrite Hrun, Hcs.
    destruct (write_chunks_all target cs
                (with_files (<[target := ""]> (files w2)) w2) "")
      as (w' & Hw & Hf & Hp & Hd).
    { cbn. apply lookup_insert_eq. }
    exists w'. rewrite (bind_run _ _ _ _ _ Hw). split; [reflexivity|].
    split; [exact Hf|]. split.
    + intros p Hne. rewrite (Hp p Hne). cbn. rewrite Hf2.
      apply lookup_insert_ne. congruence.
    + rewrite Hd. cbn. exact Hd2.
  - intros cs rest Hcs. rewrite Hrun, Hcs.
    destruct (write_chunks_broken target cs rest
                (with_files (<[target := ""]> (files w2)) w2) "")
      as (w' & Hw & Hf & Hp & Hd).
    { cbn. apply lookup_insert_eq. }
    exists w'. rewrite (bind_raise _ _ _ _ _ Hw). split; [reflexivity|].
    split; [exact Hf|]. split.
    + intros p Hne. rewrite (Hp p Hne). cbn. rewrite Hf2.
      apply lookup_insert_ne. congruence.
    + rewrite Hd. cbn. exact Hd2.
Qed.

Lemma download_fresh cfg remote py tid cid att w u target :
  DOWNLOAD_ATTACHMENTS cfg = true ->
  get att "content_url" = JStr u -> u <> "" ->
  attachment_target cfg py tid att = inr target ->
  dir_exists (ticket_dir cfg tid) w || negb (py_mkdir_fails py (ticket_dir cfg tid))
    = true ->
  (files w !! target = None -> py_stat_fails py target = false) ->
  nonempty_file (files w) target = false ->
  download_attachment cfg remote py tid cid att w
  = try_except (transfer remote py (JStr u) target) (fun _ => ret None)
      (with_dirs ({[ticket_dir cfg tid]} ∪ dirs w) w).
Proof.
  intros Hd Hu Hne Ht Hm Hs Hf.
  rewrite (download_enabled cfg remote py tid cid att w target Hd);
    [|rewrite Hu|exact Ht|exact Hm|exact Hs].
  - rewrite Hf, Hu. reflexivity.
  - cbn. apply negb_true_iff, String.eqb_neq. exact Hne.
Qed.

(** X12. A download that goes through puts the body on disk: with
    downloads enabled, a content URL, a target path that can be formed
    and no non-empty file there yet, on a file system that does not
    refuse to make the ticket directory, to probe the target or to open
    it for writing, when the fetch of the URL returns a response whose
    body arrives whole, the call returns the resolved target path and
    the file at the target path holds the chunks of the body end to end,
    in place of whatever it held; no other file is touched. *)
Theorem download_stores_body (cfg : config) (remote : nat -> request -> option response)
    (py : pylib) (tid cid : Z) (att : dict) (w : world) (u target : string)
    (resp : response) (w2 : world) (cs : list string) :
  DOWNLOAD_ATTACHMENTS cfg = true ->
  get att "content_url" = JStr u -> u <> "" ->
  attachment_target cfg py tid att = inr target ->
  dir_exists (ticket_dir cfg tid) w || negb (py_mkdir_fails py (ticket_dir cfg tid))
    = true ->
  (files w !! target = None -> py_stat_fails py target = false) ->
  py_open_fails py target = false ->
  nonempty_file (files w) target = false ->
  get_with_retry remote py u [] true (with_dirs ({[ticket_dir cfg tid]} ∪ dirs w) w)
    = (Ok (Stream resp), w2) ->
  resp_chunks resp = map Some cs ->
  exists w',
    download_attachment cfg remote py tid cid att w
      = (Ok (Some (py_resolve py target)), w')
    /\ files w' !! target = Some (joined cs)
    /\ (forall p, p <> target -> files w' !! p = files w !! p).
Proof.
  intros Hd Hu Hne Ht Hm Hs Hopen Hf Hg Hcs.
  rewrite (download_fresh cfg remote py tid cid att w u target Hd Hu Hne Ht Hm Hs Hf).
  destruct (transfer_stream remote py u target _ resp w2 Hne Hopen Hg) as [Hall _].
  destruct (Hall cs Hcs) as (w' & Htr & Hfile & Hp & _).
  exists w'. unfold try_except. rewrite Htr. auto.
Qed.

Lemma download_stores_body_witness :
  exists w',
    download_attachment (Demo.cfg false false)
      (Demo.script [Demo.stream_reply [Some "%PDF"; Some ""; Some "-1.7"]])
      Demo.py 42 1 Demo.attachment Demo.world0
    = (Ok (Some "/srv/./attachments/42/7__report_final.pdf"), w')
    /\ files w' !! "./attachments/42/7__report_final.pdf" = Some "%PDF-1.7"
    /\ (forall p, p <> "./attachments/42/7__report_final.pdf" ->
        files w' !! p = files Demo.world0 !! p).
Proof.
  apply (download_stores_body (Demo.cfg false false)
           (Demo.script [Demo.stream_reply [Some "%PDF"; Some ""; Some "-1.7"]])
           Demo.py 42 1 Demo.attachment Demo.world0
           "https://acme.zendesk.com/attachments/7"
           "./attachments/42/7__report_final.pdf"
           (Demo.stream_reply [Some "%PDF"; Some ""; Some "-1.7"])
           (requested {| req_url := "https://acme.zendesk.com/attachments/7";
                         req_params := []; req_stream := true |}
              (with_dirs ({[ticket_dir (Demo.cfg false false) 42]} ∪ dirs Demo.world0)
                 Demo.world0))
           ["%PDF"; ""; "-1.7"]).
  - reflexivity.
  - reflexivity.
  - discriminate.
  - vm_compute. reflexivity.
  - reflexivity.
  - reflexivity.
  - reflexivity.
  - reflexivity.
  - reflexivity.
  - reflexivity.
Defined.

(** X13. A download that breaks leaves its partial file, and the next
    call takes the partial file for the attachment: on a file system
    that does not refuse to make the ticket directory, to probe the
    target or to open it for writing, when the body breaks after chunks
    that are not all empty, the call returns no path and
    the file at the target path holds the chunks received; a later call
    for the same attachment, whatever the server would answer, returns
    the resolved path of that file without any request and leaves the
    world as it is. *)
Theorem partial_download_reused (cfg : config)
    (remote : nat -> request -> option response)
    (py : pylib) (tid cid : Z) (att : dict) (w : world) (u target : string)
    (resp : response) (w2 : world) (cs : list string) (rest : list (option string)) :
  DOWNLOAD_ATTACHMENTS cfg = true ->
  get att "content_url" = JStr u -> u <> "" ->
  attachment_target cfg py tid att = inr target ->
  dir_exists (ticket_dir cfg tid) w || negb (py_mkdir_fails py (ticket_dir cfg tid))
    = true ->
  (files w !! target = None -> py_stat_fails py target = false) ->
  py_open_fails py target = false ->
  nonempty_file (files w) target = false ->
  get_with_retry remote py u [] true (with_dirs ({[ticket_dir cfg tid]} ∪ dirs w) w)
    = (Ok (Stream resp), w2) ->
  resp_chunks resp = (map Some cs ++ None :: rest)%list ->
  joined cs <> "" ->
  exists w',
    download_attachment cfg remote py tid cid att w = (Ok None, w')
    /\ files w' !! target = Some (joined cs)
    /\ (forall remote' cid',
        download_attachment cfg remote' py tid cid' att w'
        = (Ok (Some (py_resolve py target)), w')).
Proof.
  intros Hd Hu Hne Ht Hm Hs Hopen Hf Hg Hcs Hjoined.
  rewrite (download_fresh cfg remote py tid cid att w u target Hd Hu Hne Ht Hm Hs Hf).
  destruct (transfer_stream remote py u target _ resp w2 Hne Hopen Hg) as [_ Hbrk].
  destruct (Hbrk cs rest Hcs) as (w' & Htr & Hfile & _ & Hdirs).
  exists w'. unfold try_except. rewrite Htr. split; [reflexivity|].
  split; [exact Hfile|]. intros remote' cid'.
  assert (Hfull : nonempty_file (files w') target = true).
  { unfold nonempty_file. rewrite Hfile.
    apply String.eqb_neq in Hjoined. rewrite Hjoined. reflexivity. }
  rewrite (download_present cfg remote' py tid cid' att w' target Hd); [| |exact Ht|exact Hfull].
  - f_equal. cbn [dirs with_dirs] in Hdirs.
    rewrite Hdirs, (assoc_L (∪)), (idemp_L (∪)), <- Hdirs. apply with_dirs_id.
  - rewrite Hu. cbn. apply negb_true_iff, String.eqb_neq. exact Hne.
Qed.

Lemma partial_download_reused_witness :
  exists w',
    download_attachment (Demo.cfg false false)
      (Demo.script [Demo.stream_reply [Some "%PDF"; None; Some "-1.7"]])
      Demo.py 42 1 Demo.attachment Demo.world0 = (Ok None, w')
    /\ files w' !! "./attachments/42/7__report_final.pdf" = Some "%PDF"
    /\ (forall remote' cid',
        download_attachment (Demo.cfg false false) remote' Demo.py 42 cid'
          Demo.attachment w'
        = (Ok (Some "/srv/./attachments/42/7__report_final.pdf"), w')).
Proof.
  apply (partial_download_reused (Demo.cfg false false)
           (Demo.script [Demo.stream_reply [Some "%PDF"; None; Some "-1.7"]])
           Demo.py 42 1 Demo.attachment Demo.world0
           "https://acme.zendesk.com/attachments/7"
           "./attachments/42/7__report_final.pdf"
           (Demo.stream_reply [Some "%PDF"; None; Some "-1.7"])
           (requested {| req_url := "https://acme.zendesk.com/attachments/7";
                         req_params := []; req_stream := true |}
              (with_dirs ({[ticket_dir (Demo.cfg false false) 42]} ∪ dirs Demo.world0)
                 Demo.world0))
           ["%PDF"] [Some "-1.7"]).
  - reflexivity.
  - reflexivity.
  - discriminate.
  - vm_compute. reflexivity.
  - reflexivity.
  - reflexivity.
  - reflexivity.
  - reflexivity.
  - reflexivity.
  - reflexivity.
  - discriminate.
Defined.

Lemma clean_app s t : clean (s ++ t) = clean s && clean t.
Proof.
  induction s as [|c s IH]; [reflexivity|].
  change (clean (String c (s ++ t)) = clean (String c s) && clean t).
  unfold clean in *. cbn [list_ascii_of_string forallb]. rewrite IH.
  rewrite andb_assoc. reflexivity.
Qed.

Lemma pretty_N_char_clean x s : clean s = true -> clean (String (pretty_N_char x) s) = true.
Proof.
  intros Hs. unfold clean in *. cbn [list_ascii_of_string forallb]. rewrite Hs.
  rewrite andb_true_r. unfold pretty_N_char. repeat case_match; reflexivity.
Qed.

Lemma pretty_N_go_clean x s : clean s = true -> clean (pretty_N_go x s) = true.
Proof.
  revert s. induction (N.lt_wf_0 x) as [x _ IH]; intros s Hs.
  destruct (decide (x = 0%N)) as [->|Hx]; [rewrite pretty_N_go_0; exact Hs|].
  rewrite pretty_N_go_step by lia.
  apply IH; [apply N.div_lt; lia | apply pretty_N_char_clean; exact Hs].
Qed.

(** The decimal numeral of an integer holds digits and a sign only. *)
Lemma pretty_Z_clean (z : Z) : clean (pretty z) = true.
Proof.
  assert (HN : forall n : N, clean (pretty n) = true).
  { intros n. unfold pretty, pretty_N. destruct (decide (n = 0%N)); [reflexivity|].
    apply pretty_N_go_clean. reflexivity. }
  destruct z as [|p|p]; [reflexivity|apply (HN (Npos p))|].
  change (pretty (Zneg p)) with ("-" ++ pretty (Npos p)).
  rewrite clean_app, HN. reflexivity.
Qed.

(** X14. The file of an attachment whose id is an integer lies in the
    directory of its ticket: the target path is that directory, a
    separator and a file name made of the id in decimal, two
    underscores and the sanitized name, and this file name holds no
    slash, no backslash and none of the other characters
    [safe_filename] replaces, whatever the [file_name] of the
    attachment is. *)
Theorem attachment_target_confined (cfg : config) (py : pylib) (tid z : Z)
    (att : dict) (target : string) :
  get att "id" = JNum z ->
  attachment_target cfg py tid att = inr target ->
  exists fname,
    target = ticket_dir cfg tid ++ "/" ++ (pretty z ++ "__" ++ fname)
    /\ clean (pretty z ++ "__" ++ fname) = true
    /\ (String.length fname <= 180)%nat.
Proof.
  intros Hid. unfold attachment_target. rewrite Hid. cbn [py_str].
  destruct (safe_filename _) as [e|fname] eqn:Hs; [discriminate|].
  intros [= <-]. exists fname.
  assert (Hf : (String.length fname <= 180)%nat /\ clean fname = true).
  { unfold safe_filename in Hs.
    destruct (py_or _ _) as [| | |s0| |]; try discriminate Hs. cbv zeta in Hs.
    remember (if (180 <? String.length (sub_illegal s0 false))%nat
              then take_str 180 (sub_illegal s0 false) else sub_illegal s0 false)
      as x eqn:Hx.
    assert (fname = x) by congruence. subst fname. rewrite Hx.
    destruct (180 <? String.length (sub_illegal s0 false))%nat eqn:Hlen.
    - split; [apply take_str_length | apply take_str_clean, sub_illegal_clean].
    - apply Nat.ltb_ge in Hlen. split; [exact Hlen | apply sub_illegal_clean]. }
  destruct Hf as [Hlen Hclean]. split; [|split; [|exact Hlen]].
  - unfold target_path, ticket_dir. rewrite !append_assoc. reflexivity.
  - rewrite !clean_app, pretty_Z_clean, Hclean. reflexivity.
Qed.

Lemma attachment_target_confined_witness :
  exists fname,
    "./attachments/42/7__report_final.pdf"
    = ticket_dir (Demo.cfg false false) 42 ++ "/" ++ (pretty 7 ++ "__" ++ fname)
    /\ clean (pretty 7 ++ "__" ++ fname) = true
    /\ (String.length fname <= 180)%nat.
Proof.
  apply (attachment_target_confined (Demo.cfg false false) Demo.py 42 7 Demo.attachment
           "./attachments/42/7__report_final.pdf").
  - reflexivity.
  - vm_compute. reflexivity.
Defined.

(* ------------------------------------------------------------------ *)
(** ** A run with the attachment download switched off *)

#[global] Instance same_disk_preorder : PreOrder (same disk) := same_preorder disk.

Section StoreOnly.

Variable cfg : config.
Variable remote : nat -> request -> option response.
Variable py : pylib.

Context (R : world -> world -> Prop) `{!PreOrder R}.

(** Relations that requests, sleeps and statements respect. *)
Hypothesis R_requested : forall rq w, R w (requested rq w).
Hypothesis R_sleep : forall d w, R w (log (EvSleep d) w).
Hypothesis R_commit : forall st r w, R w (committed st r w).
Hypothesis R_delete : forall tbl col z w,
  R w (log (EvDelete tbl col z) (with_db (delete_where tbl col z (db w)) w)).

Hypothesis downloads_off : DOWNLOAD_ATTACHMENTS cfg = false.

Local Ltac rapply lem := apply lem; try exact _; try assumption.

Lemma attachment_step_store_only tid cid a :
  preserves R (attachment_step cfg remote py tid cid a).
Proof.
  unfold attachment_step.
  papply preserves_bind; [papply preserves_lift_sum|]. intros att.
  papply preserves_bind.
  { intros w. rewrite download_disabled by auto. reflexivity. }
  intros lp. rapply (upsert_respects py R R_commit (Attachment tid cid lp)).
Qed.

Lemma comment_step_store_only t c : preserves R (comment_step cfg remote py t c).
Proof.
  unfold comment_step.
  papply preserves_bind; [unfold int_id; repeat preserves_step|]. intros tid.
  papply preserves_bind; [rapply (upsert_respects py R R_commit (Comment tid))|].
  intros _.
  papply preserves_bind; [papply preserves_lift_sum|]. intros l.
  papply preserves_for_each. intros a.
  papply preserves_bind; [unfold comment_id_of; papply preserves_lift_sum|]. intros cid.
  apply attachment_step_store_only.
Qed.

Lemma delete_ticket_store_only tid : preserves R (delete_ticket tid).
Proof.
  unfold delete_ticket, execute_delete.
  repeat (papply preserves_bind; [papply preserves_modify; intros w; apply R_delete|];
          intros _).
  papply preserves_modify. intros w. apply R_delete.
Qed.

Lemma ticket_step_store_only fuel t : preserves R (ticket_step cfg remote py fuel t).
Proof.
  unfold ticket_step.
  papply preserves_bind; [papply preserves_lift_sum|]. intros status.
  destruct (CLOSED_TICKETS_ONLY cfg && negb (status =? "closed")%string).
  - destruct (PRUNE_REOPENED_FROM_DB cfg); [|papply preserves_ret].
    papply preserves_bind; [unfold int_id; repeat preserves_step|]. intros i.
    apply delete_ticket_store_only.
  - papply preserves_bind; [rapply (upsert_respects py R R_commit Ticket)|]. intros _.
    destruct (negb _); [|papply preserves_ret].
    papply preserves_bind; [papply preserves_lift_sum|]. intros i.
    papply preserves_bind; [|intros _; papply preserves_ret].
    rapply iter_list_pages_respects. intros cpage.
    papply for_records_preserves. apply comment_step_store_only.
Qed.

Lemma sync_tickets_store_only fuel :
  preserves R (sync_tickets_comments_attachments cfg remote py fuel).
Proof.
  unfold sync_tickets_comments_attachments.
  papply preserves_bind; [rapply get_cursor_val_respects|]. intros last.
  papply preserves_bind.
  { unfold ticket_initial_params.
    papply preserves_bind; [rapply bootstrap_or_respects|]. intros start.
    papply preserves_ret. }
  intros params.
  papply preserves_bind; [rapply get_page_respects|]. intros first.
  rapply iter_cursor_page_respects. intros page. unfold tickets_body.
  papply preserves_bind;
    [papply for_records_preserves; intros t; apply ticket_step_store_only|].
  intros _. papply preserves_bind; [rapply checkpoint_respects|]. intros _.
  rapply page_flag_respects.
Qed.

Lemma child_event_step_store_only tid ce :
  preserves R (child_event_step cfg remote py tid ce).
Proof.
  unfold child_event_step.
  papply preserves_bind; [papply preserves_lift_sum|]. intros d.
  destruct (is_comment_event d); [|papply preserves_ret].
  papply preserves_bind; [papply preserves_lift_sum|]. intros ce_id.
  papply preserves_bind; [rapply (upsert_respects py R R_commit (Comment tid))|].
  intros _.
  papply preserves_bind; [papply preserves_lift_sum|]. intros l.
  papply preserves_for_each. intros a.
  papply preserves_bind; [papply preserves_lift_sum|]. intros i.
  papply preserves_bind; [papply preserves_lift_sum|]. intros cid.
  apply attachment_step_store_only.
Qed.

Lemma event_step_store_only ev : preserves R (event_step cfg remote py ev).
Proof.
  unfold event_step.
  papply preserves_bind; [papply preserves_lift_sum|]. intros tid.
  papply preserves_bind.
  - destruct (CLOSED_TICKETS_ONLY cfg); [|papply preserves_ret].
    papply preserves_bind; [rapply get_page_respects|].
    intros r. repeat preserves_step.
  - intros [|]; [|papply preserves_ret].
    papply preserves_bind; [papply preserves_lift_sum|]. intros l.
    papply preserves_for_each. intros ce. apply child_event_step_store_only.
Qed.

Lemma ticket_events_pages_store_only fuel url params :
  preserves R (ticket_events_pages cfg remote py fuel url params).
Proof.
  revert url params. induction fuel as [|n IH]; intros url params;
    cbn [ticket_events_pages].
  - papply preserves_fuel.
  - papply preserves_bind; [rapply get_page_respects|]. intros page.
    papply preserves_bind;
      [papply for_records_preserves; apply event_step_store_only|]. intros _.
    papply preserves_bind; [papply preserves_lift_sum|]. intros p.
    destruct (truthy _); [apply IH | rapply checkpoint_respects].
Qed.

Lemma main_store_only fuel : preserves R (main cfg remote py fuel).
Proof.
  unfold main. rewrite downloads_off.
  destruct (snapshots_respect cfg remote py R R_requested R_sleep R_commit fuel)
    as (Hv & Ht & Hc & Hm).
  papply preserves_bind; [papply preserves_ret|].
  intros _. papply preserves_bind; [papply init_schema_preserves|]. intros _.
  papply preserves_bind; [papply get_db_preserves|]. intros _.
  papply preserves_bind; [rapply sync_users_respects|]. intros _.
  papply preserves_bind; [rapply sync_organizations_respects|]. intros _.
  papply preserves_bind; [apply sync_tickets_store_only|]. intros _.
  papply preserves_bind.
  { destruct (USE_TICKET_EVENTS_FOR_COMMENTS cfg); [|papply preserves_ret].
    unfold sync_ticket_events_for_comments.
    papply preserves_bind; [rapply get_cursor_val_respects|]. intros last.
    papply preserves_bind; [rapply bootstrap_or_respects|]. intros start.
    apply ticket_events_pages_store_only. }
  intros _. papply preserves_bind; [exact Hv|]. intros _.
  papply preserves_bind; [exact Ht|]. intros _.
  papply preserves_bind; [exact Hc|]. intros _.
  papply preserves_bind; [exact Hm|]. intros _. papply preserves_ret.
Qed.

End StoreOnly.

Lemma main_keeps_disk cfg remote py fuel :
  DOWNLOAD_ATTACHMENTS cfg = false -> preserves (same disk) (main cfg remote py fuel).
Proof.
  intros Hoff. apply (main_store_only cfg remote py (same disk)); auto; intros; reflexivity.
Qed.

(** X15. With the attachment download switched off a whole run leaves
    the disk alone: whatever the server answers and however the run
    ends, the files and the directories after [main] are those before
    it. The attachment rows are stored all the same. *)
Theorem downloads_off_disk_untouched (cfg : config)
    (remote : nat -> request -> option response) (py : pylib) (fuel : nat) (w : world) :
  DOWNLOAD_ATTACHMENTS cfg = false ->
  files (main cfg remote py fuel w).2 = files w
  /\ dirs (main cfg remote py fuel w).2 = dirs w.
Proof.
  intros Hoff. pose proof (main_keeps_disk cfg remote py fuel Hoff w) as H.
  unfold same, disk in H. injection H as Hf Hd. auto.
Qed.

Lemma downloads_off_disk_untouched_witness :
  let w' := (main Sample.cfg_store_only (Demo.script Sample.run_script) Demo.py 3
               Demo.world0).2 in
  (files w' = files Demo.world0 /\ dirs w' = dirs Demo.world0)
  /\ (main Sample.cfg_store_only (Demo.script Sample.run_script) Demo.py 3
        Demo.world0).1 = Ok tt
  /\ map (fun r => cell r "local_path") (db w' !!! "attachments") = [SNull].
Proof.
  cbv zeta. split.
  - apply (downloads_off_disk_untouched Sample.cfg_store_only
             (Demo.script Sample.run_script) Demo.py 3 Demo.world0).
    reflexivity.
  - split; vm_compute; reflexivity.
Defined.

(* ------------------------------------------------------------------ *)
(** ** The HTTP entry point *)

(** X16. The entry point of [api/backup.py] answers whatever the run
    does: no exception leaves [handler]; a run that ends normally is
    answered with status 200 and the body for success, a run that raises
    with status 500 and a body that carries the text of the exception,
    in both cases with the world as the run left it. When the variable
    [DOWNLOAD_ATTACHMENTS] is not set the run is made with the download
    switched off and leaves the files and the directories as they were;
    when it is set, its value decides as in [backup.py]. *)
Theorem handler_answers (cfg : config) (env : option string)
    (remote : nat -> request -> option response) (py : pylib)
    (str_exn : exn -> string) (fuel : nat) (w : world) :
  (forall e, (handler cfg env remote py str_exn fuel w).1 <> Raise e)
  /\ (forall w', main (api_config env cfg) remote py fuel w = (Ok tt, w') ->
      handler cfg env remote py str_exn fuel w
      = (Ok (py_dumps py (JObj [("ok", JBool true);
                                ("message", JStr "Zendesk backup finished")]),
             200, json_headers), w'))
  /\ (forall e w', main (api_config env cfg) remote py fuel w = (Raise e, w') ->
      handler cfg env remote py str_exn fuel w
      = (Ok (py_dumps py (JObj [("ok", JBool false); ("error", JStr (str_exn e))]),
             500, json_headers), w'))
  /\ (env = None ->
      DOWNLOAD_ATTACHMENTS (api_config env cfg) = false
      /\ files (handler cfg env remote py str_exn fuel w).2 = files w
      /\ dirs (handler cfg env remote py str_exn fuel w).2 = dirs w)
  /\ (forall v, env = Some v ->
      DOWNLOAD_ATTACHMENTS (api_config env cfg) = String.eqb (lower v) "true").
Proof.
  assert (Hrun : handler cfg env remote py str_exn fuel w
                 = match main (api_config env cfg) remote py fuel w with
                   | (Ok _, w') =>
                       (Ok (py_dumps py (JObj [("ok", JBool true);
                                  ("message", JStr "Zendesk backup finished")]),
                            200, json_headers), w')
                   | (Raise e, w') =>
                       (Ok (py_dumps py (JObj [("ok", JBool false);
                                               ("error", JStr (str_exn e))]),
                            500, json_headers), w')
                   | (Fuel, w') => (Fuel, w')
                   end).
  { unfold handler, try_except, bind.
    destruct (main (api_config env cfg) remote py fuel w) as [[[]|e|] w']; reflexivity. }
  split; [|split; [|split; [|split]]].
  - intros e. rewrite Hrun.
    destruct (main (api_config env cfg) remote py fuel w) as [[[]|e'|] w']; discriminate.
  - intros w' H. rewrite Hrun, H. reflexivity.
  - intros e w' H. rewrite Hrun, H. reflexivity.
  - intros ->. split; [reflexivity|].
    pose proof (main_keeps_disk (api_config None cfg) remote py fuel eq_refl w) as H.
    unfold same, disk in H. injection H as Hf Hd. rewrite Hrun.
    destruct (main (api_config None cfg) remote py fuel w) as [[[]|e'|] w']; auto.
  - intros v ->. reflexivity.
Qed.

(* ------------------------------------------------------------------ *)
(** ** The organizations feed: when the loop ends *)





(* ------------------------------------------------------------------ *)
(** ** Closed-only filtering: what reaches the tickets table *)

#[global] Instance only_closed_stored_preorder : PreOrder only_closed_stored.
Proof.
  split.
  - intros w. exists []. rewrite app_nil_r. auto.
  - intros w1 w2 w3 (e1 & H1 & F1) (e2 & H2 & F2). exists (e1 ++ e2)%list.
    rewrite H2, H1, <- app_assoc, forallb_app, F1, F2. auto.
Qed.

Lemma only_closed_log ev w :
  stores_closed_only ev = true -> only_closed_stored w (log ev w).
Proof. intros H. exists [ev]. cbn. rewrite H. auto. Qed.

Lemma only_closed_logged ev w w0 :
  trace w0 = trace w -> stores_closed_only ev = true ->
  only_closed_stored w (log ev w0).
Proof. intros Ht H. exists [ev]. cbn. rewrite H, Ht. auto. Qed.

Lemma only_closed_same_trace w w' : trace w' = trace w -> only_closed_stored w w'.
Proof. intros H. exists []. rewrite app_nil_r. auto. Qed.

Lemma ticket_row_status py t s r :
  get t "status" = JStr s ->
  stored tickets_stmt (ticket_params py t) = inr r ->
  cell r "status" = SStr s.
Proof.
  intros Hst. unfold stored. destruct (all_params _) as [vals|] eqn:Hv; [|discriminate].
  destruct (stored_row _ _) as [r'|] eqn:Hr; [|discriminate]. intros [= <-].
  rewrite (stored_row_cell_untyped _ _ _ "status" Hr eq_refl).
  unfold ticket_params in Hv. rewrite Hst in Hv. cbn [all_params to_param] in Hv.
  repeat match type of Hv with
         | context [match to_param ?x with _ => _ end] => destruct (to_param x)
         end; try discriminate Hv.
  inversion Hv; subst. reflexivity.
Qed.

Lemma status_lower_closed t :
  status_lower t = inr "closed" ->
  exists s, get t "status" = JStr s /\ lower s = "closed".
Proof.
  unfold status_lower, py_or. destruct (truthy (get t "status")) eqn:Ht.
  - destruct (get t "status") as [| | |s| |]; try discriminate.
    intros [= H]. eauto.
  - cbn. discriminate.
Qed.

Section ClosedOnly.

Variable cfg : config.
Variable remote : nat -> request -> option response.
Variable py : pylib.

Hypothesis closed_only : CLOSED_TICKETS_ONLY cfg = true.

Local Abbreviation R := only_closed_stored.

Lemma execute_other_table st ps :
  st_table st <> "tickets" -> preserves R (execute st ps).
Proof.
  intros Hne w. rewrite execute_run. destruct (stored st ps) as [e|r]; [reflexivity|].
  cbn [snd]. unfold committed. apply only_closed_logged; [reflexivity|].
  cbn. apply String.eqb_neq in Hne. rewrite Hne. reflexivity.
Qed.

Lemma upsert_other_entity e u : e <> Ticket -> preserves R (upsert py e u).
Proof.
  intros Hne. rewrite upsert_unfold.
  papply preserves_bind;
    [apply execute_other_table; destruct e; try discriminate; congruence|].
  intros _. papply preserves_bind; [unfold int_id; repeat preserves_step|]. intros i.
  apply execute_other_table. discriminate.
Qed.

Lemma upsert_closed_ticket t :
  status_lower t = inr "closed" -> preserves R (upsert_ticket py t).
Proof.
  intros Hst. destruct (status_lower_closed t Hst) as (s & Hs & Hl).
  change (upsert_ticket py t) with (upsert py Ticket t). rewrite upsert_unfold.
  papply preserves_bind.
  - intros w. rewrite execute_run.
    destruct (stored (entity_stmt Ticket) _) as [e|r] eqn:Hr; [reflexivity|].
    cbn [snd]. unfold committed. apply only_closed_logged; [reflexivity|].
    cbn [stores_closed_only entity_stmt tickets_stmt st_table]. unfold closed_row.
    rewrite (ticket_row_status py t s r Hs Hr), Hl. reflexivity.
  - intros _. papply preserves_bind; [unfold int_id; repeat preserves_step|]. intros i.
    apply execute_other_table. discriminate.
Qed.

Lemma get_page_closed url params : preserves R (get_page remote py url params).
Proof.
  papply get_page_preserves; intros;
    [unfold requested; apply only_closed_logged | apply only_closed_log]; reflexivity.
Qed.

Lemma checkpoint_closed res page key conv : preserves R (checkpoint res page key conv).
Proof.
  unfold checkpoint. papply preserves_bind; [papply preserves_lift_sum|]. intros p.
  destruct (truthy _); [|papply preserves_ret].
  unfold set_cursor_val. papply preserves_bind; [papply preserves_read|].
  intros now. apply execute_other_table. discriminate.
Qed.

Lemma attachment_step_closed tid cid a :
  preserves R (attachment_step cfg remote py tid cid a).
Proof.
  unfold attachment_step.
  papply preserves_bind; [papply preserves_lift_sum|]. intros att.
  papply preserves_bind.
  { papply download_attachment_preserves; intros;
      first [unfold requested; apply only_closed_logged; reflexivity
            |apply only_closed_log; reflexivity
            |apply only_closed_same_trace; reflexivity]. }
  intros lp. apply (upsert_other_entity (Attachment tid cid lp)). discriminate.
Qed.

Lemma comment_step_closed t c : preserves R (comment_step cfg remote py t c).
Proof.
  unfold comment_step.
  papply preserves_bind; [unfold int_id; repeat preserves_step|]. intros tid.
  papply preserves_bind; [apply (upsert_other_entity (Comment tid)); discriminate|].
  intros _.
  papply preserves_bind; [papply preserves_lift_sum|]. intros l.
  papply preserves_for_each. intros a.
  papply preserves_bind; [unfold comment_id_of; papply preserves_lift_sum|]. intros cid.
  apply attachment_step_closed.
Qed.

Lemma list_pages_from_closed fuel page body :
  (forall p, preserves R (body p)) ->
  preserves R (list_pages_from remote py fuel page body).
Proof.
  intros Hb. revert page. induction fuel as [|n IH]; intros page; cbn [list_pages_from].
  - papply preserves_fuel.
  - papply preserves_bind; [apply Hb|]. intros _.
    papply preserves_bind; [papply preserves_lift_sum|]. intros p.
    papply preserves_bind; [papply preserves_lift_sum|]. intros next_url.
    destruct (negb _); [papply preserves_ret|].
    papply preserves_bind; [apply get_page_closed|]. intros page'.
    papply preserves_bind; [apply IH|]. intros rest. papply preserves_ret.
Qed.

Lemma ticket_step_closed fuel t : preserves R (ticket_step cfg remote py fuel t).
Proof.
  unfold ticket_step. rewrite closed_only. cbn [andb].
  intros w. unfold bind at 1.
  destruct (status_lower t) as [e|status] eqn:Hst; cbn [lift_sum raise ret];
    [reflexivity|].
  destruct (String.eqb_spec status "closed") as [->|Hne]; cbn [negb].
  - revert w. papply preserves_bind; [apply upsert_closed_ticket; exact Hst|].
    intros _. destruct (negb _); [|papply preserves_ret].
    papply preserves_bind; [papply preserves_lift_sum|]. intros i.
    papply preserves_bind; [|intros _; papply preserves_ret].
    unfold iter_list_pages.
    papply preserves_bind; [apply get_page_closed|]. intros page.
    apply list_pages_from_closed. intros cpage.
    papply for_records_preserves. apply comment_step_closed.
  - revert w. destruct (PRUNE_REOPENED_FROM_DB cfg); [|papply preserves_ret].
    papply preserves_bind; [unfold int_id; repeat preserves_step|]. intros i.
    unfold delete_ticket, execute_delete.
    repeat (papply preserves_bind;
            [papply preserves_modify; intros w;
             apply only_closed_logged; reflexivity|];
            intros _).
    papply preserves_modify. intros w. apply only_closed_logged; reflexivity.
Qed.

Lemma iter_tickets_closed n fuel page :
  preserves R (iter_cursor_page remote py n page (tickets_body cfg remote py fuel)).
Proof.
  revert page. induction n as [|n IH]; intros page; cbn [iter_cursor_page].
  - papply preserves_fuel.
  - papply preserves_bind.
    { unfold tickets_body.
      papply preserves_bind;
        [papply for_records_preserves; intros t; apply ticket_step_closed|].
      intros _. papply preserves_bind; [apply checkpoint_closed|]. intros _.
      unfold page_flag. repeat preserves_step. }
    intros [|]; [papply preserves_ret|].
    papply preserves_bind; [papply preserves_lift_sum|]. intros p.
    papply preserves_bind; [papply preserves_lift_sum|]. intros after_url.
    destruct (negb _); [papply preserves_ret|].
    papply preserves_bind; [apply get_page_closed|]. intros page'.
    papply preserves_bind; [apply IH|]. intros rest. papply preserves_ret.
Qed.

Lemma sync_tickets_closed fuel :
  preserves R (sync_tickets_comments_attachments cfg remote py fuel).
Proof.
  unfold sync_tickets_comments_attachments.
  papply preserves_bind; [unfold get_cursor_val; repeat preserves_step|]. intros last.
  papply preserves_bind.
  { unfold ticket_initial_params, bootstrap_or, initial_start_time_epoch.
    repeat preserves_step. }
  intros params.
  papply preserves_bind; [apply get_page_closed|]. intros first.
  apply iter_tickets_closed.
Qed.

End ClosedOnly.

(** X18. With closed-only filtering on, the ticket coordinator stores
    closed tickets only: every row it writes to the [tickets] table
    during a run, whatever the server answers and however the run ends,
    has a status that reads "closed" in lower case. Tickets with any
    other status, or with none, are never written. *)
Theorem closed_only_stores_closed (cfg : config)
    (remote : nat -> request -> option response) (py : pylib) (fuel : nat) (w : world) :
  CLOSED_TICKETS_ONLY cfg = true ->
  exists evs,
    trace (sync_tickets_comments_attachments cfg remote py fuel w).2
    = (trace w ++ evs)%list
    /\ forall r, EvUpsert "tickets" r ∈ evs ->
         exists s, cell r "status" = SStr s /\ lower s = "closed".
Proof.
  intros Hc. destruct (sync_tickets_closed cfg remote py Hc fuel w) as (evs & Ht & Hall).
  exists evs. split; [exact Ht|]. intros r Hr.
  rewrite forallb_forall in Hall. apply list_elem_of_In in Hr.
  specialize (Hall _ Hr). cbn in Hall. unfold closed_row in Hall.
  destruct (cell r "status") as [|z|s]; try discriminate Hall.
  exists s. split; [reflexivity|]. apply String.eqb_eq. exact Hall.
Qed.

Lemma closed_only_stores_closed_witness :
  exists evs,
    trace (sync_tickets_comments_attachments Sample.cfg_store_only
             (Demo.script (skipn 2 Sample.run_script)) Demo.py 3 Demo.world0).2
    = (trace Demo.world0 ++ evs)%list
    /\ forall r, EvUpsert "tickets" r ∈ evs ->
         exists s, cell r "status" = SStr s /\ lower s = "closed".
Proof.
  apply (closed_only_stores_closed Sample.cfg_store_only
           (Demo.script (skipn 2 Sample.run_script)) Demo.py 3 Demo.world0).
  reflexivity.
Defined.

(* ------------------------------------------------------------------ *)
(** ** The tickets feed: where the coordinator stops *)

Lemma tickets_body_flag cfg remote py fuel page w b w' :
  tickets_body cfg remote py fuel page w = (Ok b, w') ->
  exists p, page = JObj p /\ b = truthy (get p "end_of_stream").
Proof.
  unfold tickets_body. intros H.
  apply bind_Ok in H as ([] & w1 & _ & H).
  apply bind_Ok in H as ([] & w2 & _ & H).
  unfold page_flag in H. apply bind_Ok in H as (p & w3 & Hp & H).
  destruct page as [| | | | |d]; try discriminate Hp.
  cbn in Hp. injection Hp as <- <-. cbn in H. injection H as <- <-. eauto.
Qed.

Lemma iter_tickets_stops cfg remote py fuel n page w pages w' :
  iter_cursor_page remote py n page (tickets_body cfg remote py fuel) w = (Ok pages, w') ->
  exists init last,
    pages = (init ++ [last])%list
    /\ forallb has_next init = true /\ has_next last = false
    /\ (length pages <= n)%nat.
Proof.
  revert page w pages w'. induction n as [|n IH]; intros page w pages w';
    cbn [iter_cursor_page]; [discriminate|].
  intros H. apply bind_Ok in H as (stop & w1 & Hb & H).
  apply tickets_body_flag in Hb as (p & -> & ->).
  destruct (truthy (get p "end_of_stream")) eqn:Heos.
  - injection H as <- <-. exists [], (JObj p). cbn. rewrite Heos. cbn.
    repeat split; auto. lia.
  - apply bind_Ok in H as (p' & w2 & Hp & H). cbn in Hp. injection Hp as <- <-.
    apply bind_Ok in H as (after_url & w3 & Hl & H).
    destruct (link_or_next p "after_url") as [e|u] eqn:Hlink; [discriminate Hl|].
    cbn in Hl. injection Hl as <- <-.
    destruct (truthy u) eqn:Hu; cbn [negb] in H.
    + apply bind_Ok in H as (page' & w4 & _ & H).
      apply bind_Ok in H as (rest & w5 & Hrest & H).
      injection H as <- <-.
      apply IH in Hrest as (init & last & -> & Hinit & Hlast & Hlen).
      exists (JObj p :: init), last. cbn [app forallb has_next].
      rewrite Heos, Hlink, Hu, Hinit. cbn. repeat split; auto.
      cbn in Hlen |- *. lia.
    + injection H as <- <-. exists [], (JObj p). cbn. rewrite Heos, Hlink, Hu. cbn.
      repeat split; auto. lia.
Qed.

(** X19. Where the ticket coordinator stops: the pages a run that ends
    normally went through are pages that are not flagged as the end of
    the stream and link to a next page, followed by one last page that
    is flagged or has no such link. The coordinator never reads past a
    page flagged [end_of_stream], even when that page links further,
    and never stops before one while a link is there. *)
Theorem tickets_feed_stops (cfg : config) (remote : nat -> request -> option response)
    (py : pylib) (fuel : nat) (w : world) (pages : list json) (w' : world) :
  sync_tickets_comments_attachments cfg remote py fuel w = (Ok pages, w') ->
  exists init last,
    pages = (init ++ [last])%list
    /\ forallb has_next init = true /\ has_next last = false
    /\ (length pages <= fuel)%nat.
Proof.
  unfold sync_tickets_comments_attachments. intros H.
  apply bind_Ok in H as (last & w1 & _ & H).
  apply bind_Ok in H as (params & w2 & _ & H).
  apply bind_Ok in H as (first & w3 & _ & H).
  eapply iter_tickets_stops. exact H.
Qed.

Lemma tickets_feed_stops_witness :
  exists init last,
    [JObj Demo.tickets_page_open; JObj Demo.tickets_page_closed] = (init ++ [last])%list
    /\ forallb has_next init = true /\ has_next last = false
    /\ (length [JObj Demo.tickets_page_open; JObj Demo.tickets_page_closed] <= 5)%nat.
Proof.
  apply (tickets_feed_stops (Demo.cfg true true)
           (Demo.script [Demo.reply 200 (Some (JObj Demo.tickets_page_open));
                         Demo.reply 200 (Some (JObj Demo.tickets_page_closed));
                         Demo.reply 200 (Some (JObj Demo.no_comments))])
           Demo.py 5 Demo.world0
           [JObj Demo.tickets_page_open; JObj Demo.tickets_page_closed]
           (sync_tickets_comments_attachments (Demo.cfg true true)
              (Demo.script [Demo.reply 200 (Some (JObj Demo.tickets_page_open));
                            Demo.reply 200 (Some (JObj Demo.tickets_page_closed));
                            Demo.reply 200 (Some (JObj Demo.no_comments))])
              Demo.py 5 Demo.world0).2).
  vm_compute. reflexivity.
Defined.

(* ------------------------------------------------------------------ *)
(** ** Events of tickets out of scope *)

(** X21. In closed-only mode the events coordinator skips the events of
    a ticket that is not closed: it fetches the ticket, and when the
    answer holds no ticket or one whose status in lower case is not
    "closed", the event is done with, whatever child events it
    carries: nothing is stored, nothing is downloaded, and no request
    but that one is made. *)
Theorem event_of_open_ticket_skipped (cfg : config)
    (remote : nat -> request -> option response) (py : pylib) (ev : dict) (tid : Z)
    (w : world) (p t : dict) (s : string) (w1 : world) :
  CLOSED_TICKETS_ONLY cfg = true ->
  py_int (get ev "ticket_id") = inr tid ->
  get_page remote py (JStr (Z_BASE cfg ++ "/api/v2/tickets/" ++ pretty tid ++ ".json"))
    [] w = (Ok (JObj p), w1) ->
  get_default p "ticket" (JObj []) = JObj t ->
  status_lower t = inr s -> s <> "closed" ->
  event_step cfg remote py ev w = (Ok tt, w1)
  /\ db w1 = db w /\ files w1 = files w /\ dirs w1 = dirs w.
Proof.
  intros Hc Htid Hg Ht Hs Hne. split.
  - unfold event_step. rewrite Htid, Hc. cbn [lift_sum].
    rewrite (bind_run _ _ w tid w) by reflexivity.
    assert (Hin : bind (get_page remote py
                     (JStr (Z_BASE cfg ++ "/api/v2/tickets/" ++ pretty tid ++ ".json")) [])
                    (fun r => bind (lift_sum (as_dict r)) (fun p0 =>
                       bind (lift_sum (as_dict (get_default p0 "ticket" (JObj []))))
                         (fun t0 => bind (lift_sum (status_lower t0))
                            (fun status => ret (String.eqb status "closed"))))) w
                  = (Ok false, w1)).
    { rewrite (bind_run _ _ _ _ _ Hg). cbn [as_dict lift_sum].
      rewrite (bind_run _ _ w1 p w1) by reflexivity. rewrite Ht. cbn [as_dict lift_sum].
      rewrite (bind_run _ _ w1 t w1) by reflexivity. rewrite Hs. cbn [lift_sum].
      rewrite (bind_run _ _ w1 s w1) by reflexivity.
      apply String.eqb_neq in Hne. rewrite Hne. reflexivity. }
    rewrite (bind_run _ _ _ _ _ Hin). reflexivity.
  - assert (Hdb : preserves (same db) (get_page remote py
               (JStr (Z_BASE cfg ++ "/api/v2/tickets/" ++ pretty tid ++ ".json")) []))
      by (papply get_page_preserves; intros; reflexivity).
    assert (Hf : preserves (same files) (get_page remote py
               (JStr (Z_BASE cfg ++ "/api/v2/tickets/" ++ pretty tid ++ ".json")) []))
      by (papply get_page_preserves; intros; reflexivity).
    assert (Hd : preserves (same dirs) (get_page remote py
               (JStr (Z_BASE cfg ++ "/api/v2/tickets/" ++ pretty tid ++ ".json")) []))
      by (papply get_page_preserves; intros; reflexivity).
    specialize (Hdb w). specialize (Hf w). specialize (Hd w).
    rewrite Hg in Hdb, Hf, Hd. auto.
Qed.

Lemma event_of_open_ticket_skipped_witness :
  let ev := [("ticket_id", JNum 42);
             ("child_events", JArr [JObj [("event_type", JStr "Comment");
                                          ("id", JNum 9); ("body", JStr "hello")]])] in
  let remote := Demo.script [Demo.reply 200 (Some (JObj [("ticket", Demo.ticket_open)]))] in
  event_step (Demo.cfg true false) remote Demo.py ev Demo.world0
  = (Ok tt, requested (page_request "https://acme.zendesk.com/api/v2/tickets/42.json" [])
              Demo.world0)
  /\ db (requested (page_request "https://acme.zendesk.com/api/v2/tickets/42.json" [])
           Demo.world0) = db Demo.world0
  /\ files (requested (page_request "https://acme.zendesk.com/api/v2/tickets/42.json" [])
              Demo.world0) = files Demo.world0
  /\ dirs (requested (page_request "https://acme.zendesk.com/api/v2/tickets/42.json" [])
             Demo.world0) = dirs Demo.world0.
Proof.
  cbv zeta.
  apply (event_of_open_ticket_skipped (Demo.cfg true false)
           (Demo.script [Demo.reply 200 (Some (JObj [("ticket", Demo.ticket_open)]))])
           Demo.py _ 42 Demo.world0 [("ticket", Demo.ticket_open)]
           [("id", JNum 42); ("status", JStr "open")] "open").
  - reflexivity.
  - reflexivity.
  - vm_compute. reflexivity.
  - reflexivity.
  - reflexivity.
  - discriminate.
Defined.

(* ------------------------------------------------------------------ *)
(** ** An attachment whose file name is not a string *)

(** X23. The download catches what the transfer raises, not what the
    forming of the target path raises: with downloads enabled and a
    content URL, an attachment whose [file_name] is truthy and not a
    string makes [safe_filename] raise [TypeError]. The download then
    raises, whatever the file system and the server do: the attachment
    step raises with it, the loop over the attachments stops there, and
    no row is stored, no request is made and no file is touched. When
    the ticket directory is there or can be made, the exception is the
    [TypeError], which leaves [download_attachment] after the ticket
    directory is made and before any request. *)
Theorem download_file_name_not_a_string (cfg : config)
    (remote : nat -> request -> option response) (py : pylib) (tid cid : Z)
    (att : dict) (w : world) :
  DOWNLOAD_ATTACHMENTS cfg = true ->
  truthy (get att "content_url") = true ->
  truthy (get att "file_name") = true ->
  (forall s, get att "file_name" <> JStr s) ->
  attachment_target cfg py tid att = inl TypeError
  /\ (exists e w1,
        download_attachment cfg remote py tid cid att w = (Raise e, w1)
        /\ attachment_step cfg remote py tid cid (JObj att) w = (Raise e, w1)
        /\ (forall rest,
            for_each (attachment_step cfg remote py tid cid) (JObj att :: rest) w
            = (Raise e, w1))
        /\ db w1 = db w /\ nreq w1 = nreq w /\ files w1 = files w)
  /\ (dir_exists (ticket_dir cfg tid) w || negb (py_mkdir_fails py (ticket_dir cfg tid))
        = true ->
      let w1 := with_dirs ({[ticket_dir cfg tid]} ∪ dirs w) w in
      download_attachment cfg remote py tid cid att w = (Raise TypeError, w1)
      /\ attachment_step cfg remote py tid cid (JObj att) w = (Raise TypeError, w1)
      /\ (forall rest,
          for_each (attachment_step cfg remote py tid cid) (JObj att :: rest) w
          = (Raise TypeError, w1))
      /\ db w1 = db w /\ nreq w1 = nreq w).
Proof.
  intros Hd Hu Hf Hns.
  assert (Ht : attachment_target cfg py tid att = inl TypeError).
  { unfold attachment_target, safe_filename, py_or. rewrite Hf, Hf.
    destruct (get att "file_name") as [| | |s| |]; try reflexivity.
    exfalso. apply (Hns s). reflexivity. }
  assert (Hdl : download_attachment cfg remote py tid cid att w
                = if dir_exists (ticket_dir cfg tid) w
                     || negb (py_mkdir_fails py (ticket_dir cfg tid))
                  then (Raise TypeError, with_dirs ({[ticket_dir cfg tid]} ∪ dirs w) w)
                  else (Raise OSError, w)).
  { unfold download_attachment. rewrite Hd, Hu, Ht. cbn [negb].
    fold (ticket_dir cfg tid). unfold bind at 1. rewrite ensure_dir_run.
    destruct (_ || _); reflexivity. }
  assert (Hstep : forall e w1,
             download_attachment cfg remote py tid cid att w = (Raise e, w1) ->
             attachment_step cfg remote py tid cid (JObj att) w = (Raise e, w1)).
  { intros e w1 H. unfold attachment_step. cbn [as_dict lift_sum].
    rewrite (bind_run _ _ w att w) by reflexivity.
    apply bind_raise. exact H. }
  assert (Hloop : forall e w1,
             download_attachment cfg remote py tid cid att w = (Raise e, w1) ->
             forall rest,
               for_each (attachment_step cfg remote py tid cid) (JObj att :: rest) w
               = (Raise e, w1)).
  { intros e w1 H rest. cbn [for_each]. apply bind_raise. apply Hstep. exact H. }
  split; [exact Ht|]. split.
  - destruct (dir_exists (ticket_dir cfg tid) w
              || negb (py_mkdir_fails py (ticket_dir cfg tid))).
    + exists TypeError, (with_dirs ({[ticket_dir cfg tid]} ∪ dirs w) w).
      split; [exact Hdl|]. split; [apply Hstep; exact Hdl|].
      split; [apply Hloop; exact Hdl|]. repeat split.
    + exists OSError, w.
      split; [exact Hdl|]. split; [apply Hstep; exact Hdl|].
      split; [apply Hloop; exact Hdl|]. repeat split.
  - intros Hm. cbv zeta. rewrite Hm in Hdl.
    split; [exact Hdl|]. split; [apply Hstep; exact Hdl|].
    split; [apply Hloop; exact Hdl|]. split; reflexivity.
Qed.

Lemma download_file_name_not_a_string_witness :
  let att := [("id", JNum 7); ("file_name", JNum 2024);
              ("content_url", JStr "https://acme.zendesk.com/attachments/7")] in
  let w1 := with_dirs ({[ticket_dir (Demo.cfg false false) 42]} ∪ dirs Demo.world0)
              Demo.world0 in
  attachment_target (Demo.cfg false false) Demo.py 42 att = inl TypeError
  /\ download_attachment (Demo.cfg false false) (Demo.script []) Demo.py 42 1 att
       Demo.world0 = (Raise TypeError, w1)
  /\ (forall rest,
      for_each (attachment_step (Demo.cfg false false) (Demo.script []) Demo.py 42 1)
        (JObj att :: rest) Demo.world0 = (Raise TypeError, w1)).
Proof.
  cbv zeta.
  destruct (download_file_name_not_a_string (Demo.cfg false false) (Demo.script [])
              Demo.py 42 1
              [("id", JNum 7); ("file_name", JNum 2024);
               ("content_url", JStr "https://acme.zendesk.com/attachments/7")]
              Demo.world0 eq_refl eq_refl eq_refl
              ltac:(intros s; discriminate)) as (Ht & _ & H).
  destruct (H eq_refl) as (Hdl & _ & Hloop & _).
  split; [exact Ht|]. split; [exact Hdl | exact Hloop].
Defined.
